(** * useTracker: lifecycle synchronisation between a reactive engine and a
      component runtime

    A shallow embedding of [packages/react-meteor-data/useTracker.js].

    The hook keeps one mutable object [refs] per component instance and
    mutates it from four entry points: the render pass (the [useMemo]
    callback), the post-commit effect ([useEffect]), the callback handed to
    [Tracker.autorun] ([tracked]) and the leak-guard timer.  The embedding
    threads an explicit [State] through a small state-and-exception monad:
    a JavaScript [throw] aborts the rest of the function but keeps every
    mutation made so far.

    User code ([reactiveFn], [computationHandler], the cleanup it returns)
    is a parameter: a function on an arbitrary user world [W] that may
    return or throw.  The reactive engine, the timer service and the
    component runtime are modelled by the capabilities the hook consumes. *)

From Stdlib Require Import ZArith List Bool String Arith Lia.
Import ListNotations.

Set Implicit Arguments.

(** ** Values, exceptions, outcomes *)

(** The values a reactive function can return, as far as [checkCursor]
    distinguishes them: primitives, a Mongo cursor, a plain object with
    its own enumerable members (each a cursor or not), any other object.
    The members are data properties, so that reading one runs no user
    code; a plain object with accessor properties, whose getters line 15
    would run, has no counterpart here. *)
Inductive Member : Type :=
| MCursor
| MOther.

Inductive JsVal : Type :=
| VUndefined
| VNull
| VBool (b : bool)
| VNum (z : Z)
| VStr (s : string)
| VCursor
| VPojo (members : list (string * Member))
| VObject.

Inductive Exn : Type :=
| TypeError
| UserError (code : nat).

Inductive Outcome (A : Type) : Type :=
| Ok (a : A)
| Throw (e : Exn).

Arguments Ok {A} a.
Arguments Throw {A} e.

(** What [tracked] and [reactiveFn] receive: [null] (server), a
    computation object with its current [firstRun] flag, or [undefined]
    (only when the effect replays with an unset slot). *)
Inductive CompArg : Type :=
| ArgNull
| ArgUndefined
| ArgComp (cid : nat) (firstRun : bool).

(** The content of [refs.computation]. *)
Inductive Slot : Type :=
| SlotUndefined
| SlotNull
| SlotComp (cid : nat).

Definition slotTruthy (c : Slot) : bool :=
  match c with SlotComp _ => true | _ => false end.

Definition slotArg (c : Slot) : CompArg :=
  match c with
  | SlotUndefined => ArgUndefined
  | SlotNull => ArgNull
  | SlotComp cid => ArgComp cid false
  end.

(** The second argument of the hook: omitted, [null], an array of keys
    compared by identity, or any other value (a number, a boolean, an
    object without a length). *)
Inductive Deps : Type :=
| DepsUndefined
| DepsNull
| DepsOther (truthy : bool)
| DepsArray (keys : list nat).

Definition isArray (d : Deps) : bool :=
  match d with DepsArray _ => true | _ => false end.

Definition depsTruthy (d : Deps) : bool :=
  match d with
  | DepsUndefined | DepsNull => false
  | DepsOther t => t
  | DepsArray _ => true
  end.

Inductive Warning : Type :=
| WarnCursor
| WarnCleanupNotFunction
| WarnReactiveFnType
| WarnDepsType
| WarnHandlerType.

(** Calls the hook makes on its collaborators, in program order. *)
Inductive Event : Type :=
| EvAutorun (cid : nat)
| EvStop (cid : nat)
| EvHandler (c : CompArg)
| EvReactive (c : CompArg)
| EvCleanup
| EvForceUpdate
| EvSetTimeout (id delay : nat)
| EvClearTimeout (id : option nat)
| EvWarn (w : Warning).

Definition isForceUpdate (e : Event) : bool :=
  match e with EvForceUpdate => true | _ => false end.

Definition isStop (e : Event) : bool :=
  match e with EvStop _ => true | _ => false end.

Definition isCleanup (e : Event) : bool :=
  match e with EvCleanup => true | _ => false end.

Definition isAutorun (e : Event) : bool :=
  match e with EvAutorun _ => true | _ => false end.

Definition isReactive (e : Event) : bool :=
  match e with EvReactive _ => true | _ => false end.

Definition isHandler (e : Event) : bool :=
  match e with EvHandler _ => true | _ => false end.

Definition isClearTimeout (e : Event) : bool :=
  match e with EvClearTimeout _ => true | _ => false end.

Definition countEv (P : Event -> bool) (l : list Event) : nat :=
  List.length (filter P l).

(** [fur] (line 32): used to create a forceUpdate from useReducer. *)
Definition fur (x : nat) : nat := x + 1.

(** Environment flags: [Meteor.isServer], [Meteor.isDevelopment] and
    whether [Package.mongo.Mongo] is loaded. *)
Record Env : Type := {
  isServer : bool;
  isDevelopment : bool;
  mongoLoaded : bool
}.

(** Where the component instance is in the runtime's life cycle. *)
Inductive Phase : Type :=
| Rendering
| Mounted
| Gone.

(** The leak-guard delay of the source, in time units. *)
Definition guardDelay : nat := 50.

Section Model.

Variable W : Type.

(** ** User code *)

Definition UserFn (A B : Type) : Type := A -> W -> Outcome B * W.

(** A value used in call position: calling a non-function throws. *)
Inductive Callable (A B : Type) : Type :=
| NotCallable
| Fn (f : UserFn A B).

(** A truthy value returned by the computation handler. *)
Inductive Cleanup : Type :=
| CleanupFn (f : UserFn unit unit)
| CleanupNotFunction.

Inductive HandlerRet : Type :=
| RetNothing
| RetCleanup (c : Cleanup).

Record Props : Type := {
  reactiveFn : Callable CompArg JsVal;
  deps : Deps;
  computationHandler : option (Callable CompArg HandlerRet)
}.

(** ** State *)

(** The object held by [useRef]. *)
Record Refs : Type := {
  isMounted : option bool;
  doDeferredRender : option bool;
  computationCleanup : option Cleanup;
  computation : Slot;
  disposeId : option nat;
  trackerData : JsVal
}.

(** The reactive engine as the hook sees it: the computations it created,
    each with the props closed over by the [tracked] it was given, and the
    handles on which [stop] was called. *)
Record Engine : Type := {
  nextComp : nat;
  comps : list (nat * Props);
  stopped : list nat
}.

(** The timer service: a virtual clock and the live timers (id, deadline). *)
Record Clock : Type := {
  now : nat;
  nextTimer : nat;
  timers : list (nat * nat)
}.

(** The component runtime: the reducer behind [forceUpdate], the deps
    remembered by [useMemo], the effect closure of the latest render. *)
Record Host : Type := {
  tick : nat;
  memoDeps : option Deps;
  pendingEffect : option Props;
  phase : Phase
}.

Record State : Type := {
  refs : Refs;
  world : W;
  engine : Engine;
  clock : Clock;
  host : Host;
  trace : list Event
}.

Definition initRefs : Refs :=
  {| isMounted := None;
     doDeferredRender := Some false;
     computationCleanup := None;
     computation := SlotUndefined;
     disposeId := None;
     trackerData := VUndefined |}.

Definition initState (w : W) : State :=
  {| refs := initRefs;
     world := w;
     engine := {| nextComp := 0; comps := []; stopped := [] |};
     clock := {| now := 0; nextTimer := 0; timers := [] |};
     host := {| tick := 0; memoDeps := None; pendingEffect := None;
                phase := Rendering |};
     trace := [] |}.

Definition set_isMounted (v : option bool) (r : Refs) : Refs :=
  {| isMounted := v;
     doDeferredRender := doDeferredRender r;
     computationCleanup := computationCleanup r;
     computation := computation r;
     disposeId := disposeId r;
     trackerData := trackerData r |}.

Definition set_doDeferredRender (v : option bool) (r : Refs) : Refs :=
  {| isMounted := isMounted r;
     doDeferredRender := v;
     computationCleanup := computationCleanup r;
     computation := computation r;
     disposeId := disposeId r;
     trackerData := trackerData r |}.

Definition set_computationCleanup (v : option Cleanup) (r : Refs) : Refs :=
  {| isMounted := isMounted r;
     doDeferredRender := doDeferredRender r;
     computationCleanup := v;
     computation := computation r;
     disposeId := disposeId r;
     trackerData := trackerData r |}.

Definition set_computation (v : Slot) (r : Refs) : Refs :=
  {| isMounted := isMounted r;
     doDeferredRender := doDeferredRender r;
     computationCleanup := computationCleanup r;
     computation := v;
     disposeId := disposeId r;
     trackerData := trackerData r |}.

Definition set_disposeId (v : option nat) (r : Refs) : Refs :=
  {| isMounted := isMounted r;
     doDeferredRender := doDeferredRender r;
     computationCleanup := computationCleanup r;
     computation := computation r;
     disposeId := v;
     trackerData := trackerData r |}.

Definition set_trackerData (v : JsVal) (r : Refs) : Refs :=
  {| isMounted := isMounted r;
     doDeferredRender := doDeferredRender r;
     computationCleanup := computationCleanup r;
     computation := computation r;
     disposeId := disposeId r;
     trackerData := v |}.

Definition with_refs (f : Refs -> Refs) (s : State) : State :=
  {| refs := f (refs s); world := world s; engine := engine s;
     clock := clock s; host := host s; trace := trace s |}.

Definition with_world (w : W) (s : State) : State :=
  {| refs := refs s; world := w; engine := engine s;
     clock := clock s; host := host s; trace := trace s |}.

Definition with_engine (g : Engine) (s : State) : State :=
  {| refs := refs s; world := world s; engine := g;
     clock := clock s; host := host s; trace := trace s |}.

Definition with_clock (c : Clock) (s : State) : State :=
  {| refs := refs s; world := world s; engine := engine s;
     clock := c; host := host s; trace := trace s |}.

Definition with_host (h : Host) (s : State) : State :=
  {| refs := refs s; world := world s; engine := engine s;
     clock := clock s; host := h; trace := trace s |}.

Definition log (e : Event) (s : State) : State :=
  {| refs := refs s; world := world s; engine := engine s;
     clock := clock s; host := host s; trace := trace s ++ [e] |}.

(** [!refs.isMounted] is true for [null] and [false]. *)
Definition mountedTruthy (r : Refs) : bool :=
  match isMounted r with Some true => true | _ => false end.

Definition deferredTruthy (r : Refs) : bool :=
  match doDeferredRender r with Some true => true | _ => false end.

(** ** The monad: state that survives a throw *)

Definition M (A : Type) : Type := State -> Outcome A * State.

Definition ret {A} (a : A) : M A := fun s => (Ok a, s).

Definition throw {A} (e : Exn) : M A := fun s => (Throw e, s).

Definition bind {A B} (m : M A) (k : A -> M B) : M B :=
  fun s =>
    match m s with
    | (Ok a, s1) => k a s1
    | (Throw e, s1) => (Throw e, s1)
    end.

Definition getRefs : M Refs := fun s => (Ok (refs s), s).

Definition modifyRefs (f : Refs -> Refs) : M unit :=
  fun s => (Ok tt, with_refs f s).

Definition emit (e : Event) : M unit := fun s => (Ok tt, log e s).

Definition when (b : bool) (m : M unit) : M unit :=
  if b then m else ret tt.

(** What a call expression does to the user world: calling a
    non-function throws a TypeError and touches nothing. *)
Definition applyFn {A B} (f : Callable A B) (a : A) (w : W) : Outcome B * W :=
  match f with
  | NotCallable _ _ => (Throw TypeError, w)
  | Fn f => f a w
  end.

Definition applyCleanup (c : Cleanup) (w : W) : Outcome unit * W :=
  match c with
  | CleanupFn f => f tt w
  | CleanupNotFunction => (Throw TypeError, w)
  end.

(** [computationHandler(c)] when a handler was supplied. *)
Definition applyHandler (h : option (Callable CompArg HandlerRet))
  (c : CompArg) (w : W) : Outcome HandlerRet * W :=
  match h with
  | Some h => applyFn h c w
  | None => (Ok RetNothing, w)
  end.

(** Runs user code on the user world. *)
Definition onWorld {B} (f : W -> Outcome B * W) : M B :=
  fun s => let (r, w) := f (world s) in (r, with_world w s).

Definition callable {A B} (f : Callable A B) : bool :=
  match f with Fn _ => true | NotCallable _ _ => false end.

(** A call expression; [ev] records that the callee was entered. *)
Definition call {A B} (ev : Event) (f : Callable A B) (a : A) : M B :=
  bind (when (callable f) (emit ev)) (fun _ => onWorld (applyFn f a)).

End Model.

Arguments NotCallable {W A B}.
Arguments Fn {W A B} f.
Arguments CleanupNotFunction {W}.
Arguments RetNothing {W}.
Arguments initRefs {W}.
Arguments getRefs {W}.
Arguments ret {W A} a.
Arguments throw {W A} e.
Arguments emit {W} e.
Arguments modifyRefs {W} f.

Declare Scope tracker_scope.
Delimit Scope tracker_scope with tracker.
Notation "x <- m ;; k" := (bind m (fun x => k))
  (at level 61, m at next level, right associativity) : tracker_scope.
Notation "m ;; k" := (bind m (fun _ => k))
  (at level 61, right associativity) : tracker_scope.
Open Scope tracker_scope.

(** ** Capabilities consumed from the engine, the timers and the runtime *)

Section Capabilities.

Variable W : Type.

(** [computation.stop()]. *)
Definition stop (cid : nat) : M W unit :=
  fun s =>
    let g := engine s in
    (Ok tt,
     with_engine {| nextComp := nextComp g; comps := comps g;
                    stopped := stopped g ++ [cid] |}
       (log (EvStop cid) s)).

(** [forceUpdate()]: dispatches to the reducer [fur]; the runtime answers
    with a later render pass. *)
Definition forceUpdate : M W unit :=
  fun s =>
    let h := host s in
    (Ok tt,
     with_host {| tick := fur (tick h); memoDeps := memoDeps h;
                  pendingEffect := pendingEffect h; phase := phase h |}
       (log EvForceUpdate s)).

(** [setTimeout(callback, delay)]: the only callback the hook ever
    schedules is the leak guard, so a live timer is its id and deadline. *)
Definition setTimeout (delay : nat) : M W nat :=
  fun s =>
    let c := clock s in
    let id := nextTimer c in
    (Ok id,
     with_clock {| now := now c; nextTimer := S id;
                   timers := timers c ++ [(id, now c + delay)] |}
       (log (EvSetTimeout id delay) s)).

Definition removeTimer (id : nat) (l : list (nat * nat)) : list (nat * nat) :=
  filter (fun t => negb (Nat.eqb (fst t) id)) l.

(** [clearTimeout(id)]: nothing happens for [undefined] or a dead id. *)
Definition clearTimeout (id : option nat) : M W unit :=
  fun s =>
    let c := clock s in
    (Ok tt,
     with_clock {| now := now c; nextTimer := nextTimer c;
                   timers := match id with
                             | Some i => removeTimer i (timers c)
                             | None => timers c
                             end |}
       (log (EvClearTimeout id) s)).

(** [Tracker.autorun(f)]: a fresh computation, whose first run happens
    before [autorun] returns the handle; an exception of the first run
    reaches the caller of [autorun].  [bound] records the props closed
    over by [f], so that a later invalidation re-enters the same closure. *)
Definition autorun (bound : Props W) (f : CompArg -> M W unit) : M W nat :=
  fun s =>
    let g := engine s in
    let cid := nextComp g in
    let s1 := with_engine {| nextComp := S cid;
                             comps := comps g ++ [(cid, bound)];
                             stopped := stopped g |}
                (log (EvAutorun cid) s) in
    match f (ArgComp cid true) s1 with
    | (Ok _, s2) => (Ok cid, s2)
    | (Throw e, s2) => (Throw e, s2)
    end.

(** [Tracker.nonreactive(f)]: runs [f] outside any enclosing computation;
    the hook keeps no enclosing computation of its own. *)
Definition nonreactive {A} (f : M W A) : M W A := f.

(** The runtime's memo primitive re-runs its callback on the first render,
    when the deps are [undefined] or [null], when the previous ones were,
    and when two lists differ by identity at some position they both
    have (it compares up to the shorter length). *)
Fixpoint keysEqual (prev next : list nat) : bool :=
  match prev, next with
  | a :: prev', b :: next' => Nat.eqb a b && keysEqual prev' next'
  | _, _ => true
  end.

Definition depsChanged (prev : option Deps) (next : Deps) : bool :=
  match next with
  | DepsUndefined | DepsNull => true
  | _ =>
      match prev with
      | None | Some DepsUndefined | Some DepsNull => true
      | Some (DepsArray ks) =>
          match next with
          | DepsArray ks' => negb (keysEqual ks ks')
          | _ => false
          end
      | Some (DepsOther _) => false
      end
  end.

End Capabilities.

Arguments forceUpdate {W}.
Arguments stop {W} cid.
Arguments setTimeout {W} delay.
Arguments clearTimeout {W} id.

(** ** The hook *)

Section Hook.

Variable W : Type.
Variable env : Env.

(** [checkCursor] (lines 8-28): warns if data is a Mongo.Cursor or a POJO
    containing a Mongo.Cursor. *)
Definition isCursorMember (kv : string * Member) : bool :=
  match snd kv with MCursor => true | MOther => false end.

Definition shouldWarn (data : JsVal) : bool :=
  mongoLoaded env &&
  match data with
  | VCursor => true
  | VPojo members => existsb isCursorMember members
  | _ => false
  end.

Definition checkCursor (data : JsVal) : M W unit :=
  when (shouldWarn data) (emit (EvWarn WarnCursor)).

Definition isFunction (c : Cleanup W) : bool :=
  match c with CleanupFn _ => true | CleanupNotFunction => false end.

(** [refs.computationCleanup()]: the stored value may be truthy and not
    a function. *)
Definition callCleanup (c : Cleanup W) : M W unit :=
  when (isFunction c) (emit EvCleanup) ;;
  onWorld (applyCleanup c).

(** [dispose] (lines 42-51). *)
Definition dispose : M W unit :=
  r <- getRefs ;;
  match computationCleanup r with
  | Some c =>
      callCleanup c ;;
      modifyRefs (set_computationCleanup None)
  | None => ret tt
  end ;;
  r <- getRefs ;;
  match computation r with
  | SlotComp cid =>
      stop cid ;;
      modifyRefs (set_computation SlotNull)
  | _ => ret tt
  end.

Section PerRender.

(** The closures below are created anew by every render pass and close
    over the arguments of that pass. *)
Variable p : Props W.

(** [runReactiveFn] (lines 53-57). *)
Definition runReactiveFn (c : CompArg) : M W unit :=
  data <- call (EvReactive c) (reactiveFn p) c ;;
  when (isDevelopment env) (checkCursor data) ;;
  modifyRefs (set_trackerData data).

(** Lines 65-73: a truthy result of the handler is stored, with a
    warning in development if it is not a function. *)
Definition storeCleanup (r : HandlerRet W) : M W unit :=
  match r with
  | RetNothing => ret tt
  | RetCleanup c =>
      when (isDevelopment env && negb (isFunction c))
           (emit (EvWarn WarnCleanupNotFunction)) ;;
      modifyRefs (set_computationCleanup (Some c))
  end.

(** The first-run branch of [tracked], handler part (lines 63-74): if
    there is a computationHandler, pass it the computation and store the
    result, which may be a cleanup method. *)
Definition attachHandler (c : CompArg) : M W unit :=
  match computationHandler p with
  | Some h =>
      cleanupHandler <- call (EvHandler c) h c ;;
      storeCleanup cleanupHandler
  | None => ret tt
  end.

(** The branch [c === null || c.firstRun] (lines 60-83): this captures
    data synchronously on first run and after deps change, but not when
    [refs.isMounted === false]. *)
Definition firstRun (c : CompArg) : M W unit :=
  attachHandler c ;;
  r <- getRefs ;;
  match isMounted r with
  | Some false => ret tt
  | Some true => runReactiveFn c
  | None =>
      modifyRefs (set_isMounted (Some false)) ;;
      runReactiveFn c
  end.

(** The [else] branch (lines 84-98), a later invalidation: if deps are
    anything other than an array, stop the computation and let the next
    render handle reactiveFn; otherwise run it only if mounted, and defer
    the render if not. *)
Definition rerun (c : CompArg) : M W unit :=
  if negb (isArray (deps p)) then
    dispose ;;
    forceUpdate
  else
    r <- getRefs ;;
    if mountedTruthy r then
      runReactiveFn c ;;
      forceUpdate
    else
      modifyRefs (set_doDeferredRender (Some true)).

(** [tracked] (lines 59-99); reading [c.firstRun] of [undefined] would
    throw. *)
Definition tracked (c : CompArg) : M W unit :=
  match c with
  | ArgUndefined => throw TypeError
  | ArgComp _ false => rerun c
  | _ => firstRun c
  end.

(** [Tracker.nonreactive(() => Tracker.autorun(tracked))] (lines 116 and
    144). *)
Definition createComputation : M W nat :=
  nonreactive (autorun p tracked).

(** The callback of the leak-guard timer (lines 124-128). *)
Definition timeoutCallback : M W unit :=
  r <- getRefs ;;
  when (negb (mountedTruthy r)) dispose.

(** Lines 123-129: the timeout is set only while not mounted. *)
Definition scheduleGuard : M W unit :=
  r <- getRefs ;;
  when (negb (mountedTruthy r))
    (id <- setTimeout guardDelay ;;
     modifyRefs (set_disposeId (Some id))).

(** The callback given to [useMemo] (lines 102-131). *)
Definition memoCallback : M W unit :=
  dispose ;;
  if isServer env then
    modifyRefs (set_computation SlotNull) ;;
    tracked ArgNull
  else
    c <- createComputation ;;
    modifyRefs (set_computation (SlotComp c)) ;;
    scheduleGuard.

(** The three blocks of the effect on the client: cancel the timeout
    (lines 138-139); restart the computation if it took longer than the
    guard delay to get here (lines 142-148); replay a render queued
    before the effect (lines 151-155). *)
Definition cancelGuard : M W unit :=
  r <- getRefs ;;
  clearTimeout (disposeId r) ;;
  modifyRefs (set_disposeId None).

Definition restartComputation : M W unit :=
  r <- getRefs ;;
  when (negb (slotTruthy (computation r)))
    (when (isArray (deps p))
       (c <- createComputation ;;
        modifyRefs (set_computation (SlotComp c))) ;;
     modifyRefs (set_doDeferredRender (Some true))).

Definition replayDeferred : M W unit :=
  r <- getRefs ;;
  when (deferredTruthy r)
    (runReactiveFn (slotArg (computation r)) ;;
     forceUpdate ;;
     modifyRefs (set_doDeferredRender None)).

(** The callback given to [useEffect] (lines 133-160); the cleanup it
    returns is [dispose]. *)
Definition effectCallback : M W unit :=
  modifyRefs (set_isMounted (Some true)) ;;
  when (negb (isServer env))
    (cancelGuard ;;
     restartComputation ;;
     replayDeferred).

(** [useMemo(callback, deps)] as the runtime runs it during a render. *)
Definition useMemo : M W unit :=
  fun s =>
    if depsChanged (memoDeps (host s)) (deps p) then
      match memoCallback s with
      | (Ok _, s1) =>
          let h := host s1 in
          (Ok tt,
           with_host {| tick := tick h; memoDeps := Some (deps p);
                        pendingEffect := pendingEffect h;
                        phase := phase h |} s1)
      | (Throw e, s1) => (Throw e, s1)
      end
    else (Ok tt, s).

(** [useEffect(callback, [])]: the runtime keeps the closure of the
    latest render and runs it once, after the first commit. *)
Definition useEffect : M W unit :=
  fun s =>
    let h := host s in
    (Ok tt,
     match phase h with
     | Rendering =>
         with_host {| tick := tick h; memoDeps := memoDeps h;
                      pendingEffect := Some p; phase := Rendering |} s
     | _ => s
     end).

(** [useTracker] (lines 34-163): the hooks run in order and the cached
    data is returned. *)
Definition useTracker : M W JsVal :=
  useMemo ;;
  useEffect ;;
  r <- getRefs ;;
  ret (trackerData r).

(** The development export (lines 165-187) checks the argument shapes
    first. *)
Definition useTrackerDev : M W JsVal :=
  when (match reactiveFn p with NotCallable => true | Fn _ => false end)
    (emit (EvWarn WarnReactiveFnType)) ;;
  when (depsTruthy (deps p) && negb (isArray (deps p)))
    (emit (EvWarn WarnDepsType)) ;;
  when (match computationHandler p with
        | Some NotCallable => true
        | _ => false
        end)
    (emit (EvWarn WarnHandlerType)) ;;
  useTracker.

Definition exported : M W JsVal :=
  if isDevelopment env then useTrackerDev else useTracker.

End PerRender.

End Hook.

Arguments dispose {W}.
Arguments timeoutCallback {W}.

(** ** The two event sources *)

Section Driver.

Variable W : Type.
Variable env : Env.

(** What can happen to an instance: the runtime renders it, commits it or
    unmounts it; the engine invalidates a computation; time passes; the
    data read by the user code changes. *)
Inductive Stimulus : Type :=
| Render (p : Props W)
| Commit
| Pulse (cid : nat)
| Elapse (dt : nat)
| Unmount
| Mutate (f : W -> W).

Definition exec {A} (m : M W A) (s : State W) : State W := snd (m s).

Definition setPhase (ph : Phase) (s : State W) : State W :=
  let h := host s in
  with_host {| tick := tick h; memoDeps := memoDeps h;
               pendingEffect := pendingEffect h; phase := ph |} s.

Definition lookupComp (cid : nat) (l : list (nat * Props W))
  : option (Props W) :=
  match find (fun cp => Nat.eqb (fst cp) cid) l with
  | Some cp => Some (snd cp)
  | None => None
  end.

Definition isStopped (cid : nat) (s : State W) : bool :=
  existsb (Nat.eqb cid) (stopped (engine s)).

Definition isLive (id : nat) (s : State W) : bool :=
  existsb (fun t => Nat.eqb (fst t) id) (timers (clock s)).

Definition render (p : Props W) (s : State W) : State W :=
  match phase (host s) with
  | Gone => s
  | _ => exec (exported env p) s
  end.

Definition commit (s : State W) : State W :=
  match phase (host s), pendingEffect (host s) with
  | Rendering, Some p => setPhase Mounted (exec (effectCallback env p) s)
  | _, _ => s
  end.

(** The runtime runs the cleanup of an effect only if the effect ran. *)
Definition unmount (s : State W) : State W :=
  match phase (host s) with
  | Mounted => setPhase Gone (exec dispose s)
  | _ => setPhase Gone s
  end.

(** An invalidation re-enters the [tracked] the computation was created
    with; its [firstRun] flag is false by then. *)
Definition pulse (cid : nat) (s : State W) : State W :=
  match lookupComp cid (comps (engine s)) with
  | Some p => exec (tracked env p (ArgComp cid false)) s
  | None => s
  end.

Definition expire (id : nat) (s : State W) : State W :=
  let c := clock s in
  exec timeoutCallback
    (with_clock {| now := now c; nextTimer := nextTimer c;
                   timers := removeTimer id (timers c) |} s).

Fixpoint fireTimers (due : list (nat * nat)) (s : State W) : State W :=
  match due with
  | [] => s
  | t :: rest =>
      fireTimers rest (if isLive (fst t) s then expire (fst t) s else s)
  end.

Definition isDue (t : nat) (timer : nat * nat) : bool := snd timer <=? t.

Definition elapse (dt : nat) (s : State W) : State W :=
  let c := clock s in
  let s1 := with_clock {| now := now c + dt; nextTimer := nextTimer c;
                          timers := timers c |} s in
  fireTimers (filter (isDue (now c + dt)) (timers c)) s1.

Definition step (s : State W) (e : Stimulus) : State W :=
  match e with
  | Render p => render p s
  | Commit => commit s
  | Pulse cid => pulse cid s
  | Elapse dt => elapse dt s
  | Unmount => unmount s
  | Mutate f => with_world (f (world s)) s
  end.

Definition run (es : list Stimulus) (s : State W) : State W :=
  fold_left step es s.

(** An engine that honours [stop] delivers no invalidation to a stopped
    computation. *)
Definition honoursStop (s : State W) (e : Stimulus) : bool :=
  match e with
  | Pulse cid => negb (isStopped cid s)
  | _ => true
  end.

Fixpoint runHonouring (es : list Stimulus) (s : State W) : bool :=
  match es with
  | [] => true
  | e :: rest => honoursStop s e && runHonouring rest (step s e)
  end.

Definition forceUpdates (s : State W) : nat := countEv isForceUpdate (trace s).
Definition creations (s : State W) : nat := countEv isAutorun (trace s).

End Driver.

Arguments Commit {W}.
Arguments Pulse {W} cid.
Arguments Elapse {W} dt.
Arguments Unmount {W}.

(** ** Concrete instances used for evaluation *)

Definition client : Env :=
  {| isServer := false; isDevelopment := true; mongoLoaded := true |}.

Definition server : Env :=
  {| isServer := true; isDevelopment := false; mongoLoaded := false |}.

(** A reactive source holding one number; [reactiveFn = () => source]. *)
Definition readSource : UserFn Z CompArg JsVal :=
  fun _ w => (Ok (VNum w), w).

(** [reactiveFn = () => 42]. *)
Definition const42 : UserFn Z CompArg JsVal :=
  fun _ w => (Ok (VNum 42), w).

Definition throwing (code : nat) : UserFn Z unit unit :=
  fun _ w => (Throw (UserError code), w).

Definition bump : UserFn Z unit unit :=
  fun _ w => (Ok tt, (w + 1)%Z).

Definition props42 : Props Z :=
  {| reactiveFn := Fn const42; deps := DepsUndefined;
     computationHandler := None |}.

Definition propsArr (keys : list nat) : Props Z :=
  {| reactiveFn := Fn readSource; deps := DepsArray keys;
     computationHandler := None |}.

Definition propsNoDeps : Props Z :=
  {| reactiveFn := Fn readSource; deps := DepsUndefined;
     computationHandler := None |}.

Definition propsCleanup (cl : Cleanup Z) (keys : list nat) : Props Z :=
  {| reactiveFn := Fn readSource; deps := DepsArray keys;
     computationHandler := Some (Fn (fun _ w => (Ok (RetCleanup cl), w))) |}.

(** A cleanup that counts its calls in the source, one that throws. *)
Definition propsCounting : Props Z := propsCleanup (CleanupFn bump) [1].

Definition propsThrowing : Props Z :=
  propsCleanup (CleanupFn (throwing 7)) [1].

(** One render pass on the client, not yet committed. *)
Definition rendered (p : Props Z) : State Z :=
  run client [Render p] (initState 0%Z).

(** Rendered, and the guard delay has passed without a commit. *)
Definition expired (p : Props Z) : State Z :=
  run client [Render p; Elapse 50] (initState 0%Z).

(** Rendered, committed, unmounted. *)
Definition unmounted (p : Props Z) : State Z :=
  run client [Render p; Commit; Unmount] (initState 0%Z).

(** Rendered, and invalidated once before the commit. *)
Definition pulsedOnce : State Z :=
  run client [Render (propsArr [1]); Pulse 0] (initState 0%Z).

(** Two render passes without deps, not yet committed. *)
Definition twiceRendered : State Z :=
  run client [Render propsNoDeps; Render propsNoDeps] (initState 0%Z).

(** ** Vocabulary of the statements *)

Section Vocabulary.

Variable W : Type.

(** What invoking the stored cleanup, if any, does to the user world. *)
Definition cleanupOutcome (c : option (Cleanup W)) (w : W)
  : Outcome unit * W :=
  match c with
  | Some c => applyCleanup c w
  | None => (Ok tt, w)
  end.

Definition occupied {A} (o : option A) : nat :=
  match o with Some _ => 1 | None => 0 end.

Definition held (c : Slot) : nat :=
  match c with SlotComp _ => 1 | _ => 0 end.

(** What the first run of a computation is called with. *)
Definition firstArg (env : Env) (cid : nat) : CompArg :=
  if isServer env then ArgNull else ArgComp cid true.

(** A step that leaves the timers alone: same clock and live timers, same
    timer slot, no [clearTimeout]. *)
Definition timerFrame (s s' : State W) : Prop :=
  clock s' = clock s /\
  disposeId (refs s') = disposeId (refs s) /\
  countEv isClearTimeout (trace s') = countEv isClearTimeout (trace s).

Definition untouched {A} (m : M W A) : Prop :=
  forall s, timerFrame s (snd (m s)).

(** A step that sets a leak-guard timer and cancels none: the live
    timers are kept, a fresh one due after the guard delay is added and
    named in the timer slot, and there is no [clearTimeout]. *)
Definition guardAdded (s s' : State W) : Prop :=
  now (clock s') = now (clock s) /\
  nextTimer (clock s') = S (nextTimer (clock s)) /\
  timers (clock s') =
    timers (clock s) ++ [(nextTimer (clock s), now (clock s) + guardDelay)] /\
  disposeId (refs s') = Some (nextTimer (clock s)) /\
  countEv isClearTimeout (trace s') = countEv isClearTimeout (trace s).

Definition cancelsNothing (s s' : State W) : Prop :=
  timerFrame s s' \/ guardAdded s s'.

(** User code that returns normally whatever the data. *)
Definition cleanupTotal (c : option (Cleanup W)) : Prop :=
  forall w, exists w', cleanupOutcome c w = (Ok tt, w').

Definition goodRet (r : HandlerRet W) : Prop :=
  match r with
  | RetNothing => True
  | RetCleanup c => cleanupTotal (Some c)
  end.

Definition wellBehaved (p : Props W) : Prop :=
  (forall c w, exists v w', applyFn (reactiveFn p) c w = (Ok v, w')) /\
  (forall c w, exists r w',
     applyHandler (computationHandler p) c w = (Ok r, w') /\ goodRet r).

(** A run in which the runtime never renders again and never commits. *)
Definition isAbandoning (e : Stimulus W) : bool :=
  match e with
  | Render _ | Commit => false
  | _ => true
  end.

Definition abandoned (es : list (Stimulus W)) : bool :=
  forallb isAbandoning es.

Definition elapsed (es : list (Stimulus W)) : nat :=
  fold_right (fun e n => match e with Elapse dt => dt + n | _ => n end) 0 es.

Definition rendersWell (es : list (Stimulus W)) : Prop :=
  Forall (fun e => match e with Render p => wellBehaved p | _ => True end)
    es.

(** The invariant of an abandoned instance whose computation [cid] was
    created at a time when the clock read [deadline - guardDelay]: until
    it is stopped, the computation sits in its slot and some live timer
    is due by [deadline]. *)
Definition guardStanding (cid deadline : nat) (s : State W) : Prop :=
  computation (refs s) = SlotComp cid /\
  exists id d,
    In (id, d) (timers (clock s)) /\ now (clock s) < d /\ d <= deadline.

Definition leakInv (cid deadline : nat) (s : State W) : Prop :=
  mountedTruthy (refs s) = false /\
  cleanupTotal (computationCleanup (refs s)) /\
  (isStopped cid s = true \/ guardStanding cid deadline s).

(** The invariant of a whole life: every computation the engine knows is
    stopped or is the one in the slot, and everything callable is
    well-behaved. *)
Definition accounted (s : State W) : Prop :=
  forall cid p,
    In (cid, p) (comps (engine s)) ->
    isStopped cid s = true \/ computation (refs s) = SlotComp cid.

Definition lifeInv (s : State W) : Prop :=
  accounted s /\
  cleanupTotal (computationCleanup (refs s)) /\
  (forall cid p, In (cid, p) (comps (engine s)) -> wellBehaved p) /\
  (forall p, pendingEffect (host s) = Some p -> wellBehaved p) /\
  (phase (host s) = Mounted -> mountedTruthy (refs s) = true).

Definition allStopped (s : State W) : Prop :=
  forall cid p, In (cid, p) (comps (engine s)) -> isStopped cid s = true.

(** What the invariant of a whole life looks at. *)
Definition view (s : State W) :=
  (comps (engine s), stopped (engine s), computation (refs s),
   computationCleanup (refs s),
   (pendingEffect (host s), phase (host s), mountedTruthy (refs s))).

(** After the unmount disposer: nothing is left to invalidate. *)
Definition quiet (s : State W) : Prop :=
  phase (host s) = Gone /\
  mountedTruthy (refs s) = true /\
  allStopped s.

End Vocabulary.

(** ** Post-states

    What each function of the hook leaves behind, as a function of the
    state it started in and of what the user code answered.  The lemmas
    of the next part show that the monadic code computes exactly these. *)

Section PostStates.

Variable W : Type.
Variable env : Env.

(** Appending one by one, as the code does. *)
Definition logs {A} (es : list A) (t : list A) : list A :=
  fold_left (fun t e => t ++ [e]) es t.

Definition cleared (c : Slot) : Slot :=
  match c with SlotComp _ => SlotNull | other => other end.

Definition stopIds (c : Slot) : list nat :=
  match c with SlotComp cid => [cid] | _ => [] end.

Definition cleanupEvents (c : option (Cleanup W)) : list Event :=
  match c with Some (CleanupFn _) => [EvCleanup] | _ => [] end.

Definition disposed (w' : W) (s : State W) : State W :=
  {| refs := set_computation (cleared (computation (refs s)))
               (set_computationCleanup None (refs s));
     world := w';
     engine := {| nextComp := nextComp (engine s);
                  comps := comps (engine s);
                  stopped := logs (stopIds (computation (refs s)))
                               (stopped (engine s)) |};
     clock := clock s;
     host := host s;
     trace := logs (cleanupEvents (computationCleanup (refs s))
                    ++ map EvStop (stopIds (computation (refs s))))
                (trace s) |}.

(** [dispose] interrupted by a throwing cleanup. *)
Definition cleanupFailed (w' : W) (s : State W) : State W :=
  {| refs := refs s;
     world := w';
     engine := engine s;
     clock := clock s;
     host := host s;
     trace := logs (cleanupEvents (computationCleanup (refs s))) (trace s) |}.

(** A call that threw: the callee was entered if it is a function. *)
Definition attempted {A B} (ev : Event) (f : Callable W A B) (w' : W)
  (s : State W) : State W :=
  {| refs := refs s;
     world := w';
     engine := engine s;
     clock := clock s;
     host := host s;
     trace := logs (if callable f then [ev] else []) (trace s) |}.

Definition isFirst (c : CompArg) : bool :=
  match c with
  | ArgNull | ArgComp _ true => true
  | _ => false
  end.

Definition cursorWarning (v : JsVal) : list Event :=
  if isDevelopment env && shouldWarn env v then [EvWarn WarnCursor] else [].

Definition recomputed (c : CompArg) (v : JsVal) (w' : W) (s : State W)
  : State W :=
  {| refs := set_trackerData v (refs s);
     world := w';
     engine := engine s;
     clock := clock s;
     host := host s;
     trace := logs (EvReactive c :: cursorWarning v) (trace s) |}.

Definition forced (s : State W) : State W :=
  {| refs := refs s;
     world := world s;
     engine := engine s;
     clock := clock s;
     host := {| tick := fur (tick (host s));
                memoDeps := memoDeps (host s);
                pendingEffect := pendingEffect (host s);
                phase := phase (host s) |};
     trace := logs [EvForceUpdate] (trace s) |}.

Definition handlerEvents (p : Props W) (c : CompArg) (r : HandlerRet W)
  : list Event :=
  match computationHandler p with
  | None => []
  | Some _ =>
      EvHandler c ::
      match r with
      | RetCleanup CleanupNotFunction =>
          if isDevelopment env then [EvWarn WarnCleanupNotFunction] else []
      | _ => []
      end
  end.

Definition storedCleanup (r : HandlerRet W) (old : option (Cleanup W))
  : option (Cleanup W) :=
  match r with
  | RetCleanup c => Some c
  | RetNothing => old
  end.

(** After the handler part of a first run. *)
Definition attached (p : Props W) (c : CompArg) (r : HandlerRet W)
  (w1 : W) (s : State W) : State W :=
  {| refs := set_computationCleanup
               (storedCleanup r (computationCleanup (refs s))) (refs s);
     world := w1;
     engine := engine s;
     clock := clock s;
     host := host s;
     trace := logs (handlerEvents p c r) (trace s) |}.

Definition markUnmounted (s : State W) : State W :=
  with_refs (set_isMounted
               (match isMounted (refs s) with
                | None => Some false
                | m => m
                end)) s.

(** The engine after [autorun] has registered a fresh computation. *)
Definition registered (p : Props W) (s : State W) : State W :=
  {| refs := refs s;
     world := world s;
     engine := {| nextComp := S (nextComp (engine s));
                  comps := comps (engine s) ++ [(nextComp (engine s), p)];
                  stopped := stopped (engine s) |};
     clock := clock s;
     host := host s;
     trace := logs [EvAutorun (nextComp (engine s))] (trace s) |}.

Definition guarded (s : State W) : State W :=
  {| refs := set_disposeId (Some (nextTimer (clock s))) (refs s);
     world := world s;
     engine := engine s;
     clock := {| now := now (clock s);
                 nextTimer := S (nextTimer (clock s));
                 timers := timers (clock s)
                           ++ [(nextTimer (clock s),
                                now (clock s) + guardDelay)] |};
     host := host s;
     trace := logs [EvSetTimeout (nextTimer (clock s)) guardDelay]
                (trace s) |}.

Definition unguarded (s : State W) : State W :=
  {| refs := set_disposeId None (set_isMounted (Some true) (refs s));
     world := world s;
     engine := engine s;
     clock := {| now := now (clock s);
                 nextTimer := nextTimer (clock s);
                 timers := match disposeId (refs s) with
                           | Some i => removeTimer i (timers (clock s))
                           | None => timers (clock s)
                           end |};
     host := host s;
     trace := logs [EvClearTimeout (disposeId (refs s))] (trace s) |}.

(** What the reactive function answered during a first run, if the first
    run got as far as calling it: it does not when [isMounted] is already
    [false]. *)
Definition firstAnswer (p : Props W) (c : CompArg) (w1 : W)
  (m : option bool) (a : option (JsVal * W)) : Prop :=
  match m, a with
  | Some false, None => True
  | Some false, Some _ => False
  | _, Some (v, w2) => applyFn (reactiveFn p) c w1 = (Ok v, w2)
  | _, None => False
  end.

(** After a whole first run. *)
Definition firstRan (p : Props W) (c : CompArg) (r : HandlerRet W) (w1 : W)
  (a : option (JsVal * W)) (s : State W) : State W :=
  match a with
  | Some (v, w2) => recomputed c v w2 (markUnmounted (attached p c r w1 s))
  | None => attached p c r w1 s
  end.

Definition guardedIfUnmounted (s : State W) : State W :=
  if mountedTruthy (refs s) then s else guarded s.

(** After the [useMemo] callback. *)
Definition recreated (p : Props W) (w1 : W) (r : HandlerRet W) (w2 : W)
  (a : option (JsVal * W)) (s : State W) : State W :=
  if isServer env then
    firstRan p ArgNull r w2 a
      (with_refs (set_computation SlotNull) (disposed w1 s))
  else
    guardedIfUnmounted
      (with_refs (set_computation (SlotComp (nextComp (engine s))))
         (firstRan p (ArgComp (nextComp (engine s)) true) r w2 a
            (registered p (disposed w1 s)))).

(** What the development export prints before it calls the hook. *)
Definition argWarnings (p : Props W) : list Event :=
  if isDevelopment env then
    (match reactiveFn p with
     | NotCallable => [EvWarn WarnReactiveFnType]
     | Fn _ => []
     end)
    ++ (if depsTruthy (deps p) && negb (isArray (deps p))
        then [EvWarn WarnDepsType] else [])
    ++ (match computationHandler p with
        | Some NotCallable => [EvWarn WarnHandlerType]
        | _ => []
        end)
  else [].

Definition warned (p : Props W) (s : State W) : State W :=
  {| refs := refs s;
     world := world s;
     engine := engine s;
     clock := clock s;
     host := host s;
     trace := logs (argWarnings p) (trace s) |}.

Definition memoized (p : Props W) (s : State W) : State W :=
  {| refs := refs s;
     world := world s;
     engine := engine s;
     clock := clock s;
     host := {| tick := tick (host s);
                memoDeps := Some (deps p);
                pendingEffect := pendingEffect (host s);
                phase := phase (host s) |};
     trace := trace s |}.

Definition effectRegistered (p : Props W) (s : State W) : State W :=
  match phase (host s) with
  | Rendering =>
      {| refs := refs s;
         world := world s;
         engine := engine s;
         clock := clock s;
         host := {| tick := tick (host s);
                    memoDeps := memoDeps (host s);
                    pendingEffect := Some p;
                    phase := Rendering |};
         trace := trace s |}
  | _ => s
  end.

End PostStates.

(** ** Further concrete instances *)

(** Rendered and committed on the client. *)
Definition committed (p : Props Z) : State Z :=
  run client [Render p; Commit] (initState 0%Z).

(** A first argument that is not a function. *)
Definition propsBroken : Props Z :=
  {| reactiveFn := NotCallable; deps := DepsArray [1];
     computationHandler := None |}.

(** A handler that returns a truthy value that is not a function. *)
Definition propsBadCleanup : Props Z := propsCleanup CleanupNotFunction [1].

(** The same source read through another closure. *)
Definition propsOther (keys : list nat) : Props Z :=
  {| reactiveFn := Fn (fun _ w => (Ok (VNum (w + 100)), w));
     deps := DepsArray keys;
     computationHandler := None |}.

(** ** Vocabulary of the further properties *)

Definition isSetTimeout (e : Event) : bool :=
  match e with EvSetTimeout _ _ => true | _ => false end.

(** Whether the cursor check of a build gets as far as reading the
    members of the data (lines 10-18): in development, with the mongo
    package, for a plain object with at least one own key. *)
Definition readsMembers (env : Env) (v : JsVal) : bool :=
  isDevelopment env && mongoLoaded env &&
  match v with
  | VPojo (_ :: _) => true
  | _ => false
  end.

(** Data of which neither build reads a member. *)
Definition memberFree (env1 env2 : Env) (v : JsVal) : Prop :=
  readsMembers env1 v = false /\ readsMembers env2 v = false.

Definition isWarn (e : Event) : bool :=
  match e with EvWarn _ => true | _ => false end.

(** A trace without its diagnostics. *)
Definition quietTrace (t : list Event) : list Event :=
  filter (fun e => negb (isWarn e)) t.

Section Advisory.

Variable W : Type.

(** Two states that differ at most by the warnings printed so far. *)
Definition agree (s1 s2 : State W) : Prop :=
  refs s1 = refs s2 /\
  world s1 = world s2 /\
  engine s1 = engine s2 /\
  clock s1 = clock s2 /\
  host s1 = host s2 /\
  quietTrace (trace s1) = quietTrace (trace s2).

(** Two computations that, from agreeing states, end the same way in
    agreeing states. *)
Definition sim {A} (m1 m2 : M W A) : Prop :=
  forall s1 s2,
    agree s1 s2 ->
    fst (m1 s1) = fst (m2 s2) /\ agree (snd (m1 s1)) (snd (m2 s2)).

(** A computation that returns normally and at most prints warnings. *)
Definition onlyWarns (m : M W unit) : Prop :=
  forall s, fst (m s) = Ok tt /\ agree s (snd (m s)).

End Advisory.

Section Invariants.

Variable W : Type.

(** A computation that keeps an invariant, however it ends. *)
Definition keeps (I : State W -> Prop) {A} (m : M W A) : Prop :=
  forall s, I s -> I (snd (m s)).

(** The instance has been committed, and [n] timers have been set since
    it was created. *)
Definition settled (n : nat) (s : State W) : Prop :=
  mountedTruthy (refs s) = true /\
  countEv isSetTimeout (trace s) = n.

(** The timers set so far. *)
Definition guardsSet (s : State W) : nat :=
  countEv isSetTimeout (trace s).

(** Events that involve neither the engine, nor the timers, nor the
    runtime, and pass [null] where a computation could be passed. *)
Definition isInert (e : Event) : bool :=
  match e with
  | EvHandler ArgNull | EvReactive ArgNull | EvCleanup | EvWarn _ => true
  | _ => false
  end.

(** What holds of an instance rendered on the server. *)
Definition serverInv (s : State W) : Prop :=
  comps (engine s) = [] /\
  stopped (engine s) = [] /\
  timers (clock s) = [] /\
  slotTruthy (computation (refs s)) = false /\
  deferredTruthy (refs s) = false /\
  forallb isInert (trace s) = true.

(** Every value [reactiveFn] returns satisfies [Q]. *)
Definition answers (Q : JsVal -> Prop) (p : Props W) : Prop :=
  forall c w v w', applyFn (reactiveFn p) c w = (Ok v, w') -> Q v.

(** The cached data is still the initial [undefined] or satisfies [Q],
    and so does whatever the closures the engine and the runtime hold
    can return. *)
Definition fromSource (Q : JsVal -> Prop) (s : State W) : Prop :=
  (trackerData (refs s) = VUndefined \/ Q (trackerData (refs s))) /\
  (forall cid p, In (cid, p) (comps (engine s)) -> answers Q p) /\
  (forall p, pendingEffect (host s) = Some p -> answers Q p).

Definition rendersAnswer (Q : JsVal -> Prop) (es : list (Stimulus W))
  : Prop :=
  Forall (fun e => match e with Render p => answers Q p | _ => True end) es.

(** Closures the engine and the runtime already hold answer with [Q]. *)
Definition boundAnswer (Q : JsVal -> Prop) (s : State W) : Prop :=
  (forall cid p, In (cid, p) (comps (engine s)) -> answers Q p) /\
  (forall p, pendingEffect (host s) = Some p -> answers Q p).

(** No warning has been printed. *)
Definition silent (s : State W) : Prop :=
  forallb (fun e => negb (isWarn e)) (trace s) = true.

End Invariants.

Arguments settled {W} n s.
Arguments guardsSet {W} s.
Arguments serverInv {W} s.
Arguments silent {W} s.
Arguments answers {W} Q p.
Arguments fromSource {W} Q s.
Arguments rendersAnswer {W} Q es.
Arguments boundAnswer {W} Q s.

(** A client build without the development checks. *)
Definition production : Env :=
  {| isServer := false; isDevelopment := false; mongoLoaded := true |}.

(** [reactiveFn] returns a cursor and deps is a truthy non-array: two
    warnings in development. *)
Definition propsCursor : Props Z :=
  {| reactiveFn := Fn (fun _ w => (Ok VCursor, w));
     deps := DepsOther true;
     computationHandler := None |}.

Definition isNumber (v : JsVal) : Prop := exists z, v = VNum z.

(** * Properties *)

Unset Implicit Arguments.

Ltac run_m :=
  cbv [dispose callCleanup runReactiveFn storeCleanup attachHandler
       firstRun rerun tracked createComputation timeoutCallback
       scheduleGuard memoCallback cancelGuard restartComputation
       replayDeferred effectCallback useMemo useEffect useTracker
       useTrackerDev exported checkCursor autorun nonreactive bind ret
       throw getRefs modifyRefs emit when onWorld call stop forceUpdate
       setTimeout clearTimeout] in *;
  cbn in *.

Section Properties.

(** ** The code computes the post-states *)

Context {W : Type}.
Variable env : Env.
Implicit Types (s : State W) (p : Props W) (c : CompArg) (e : Exn).

#[local] Arguments dispose : simpl never.
#[local] Arguments runReactiveFn : simpl never.
#[local] Arguments attachHandler : simpl never.
#[local] Arguments firstRun : simpl never.
#[local] Arguments rerun : simpl never.
#[local] Arguments tracked : simpl never.
#[local] Arguments createComputation : simpl never.
#[local] Arguments timeoutCallback : simpl never.
#[local] Arguments scheduleGuard : simpl never.
#[local] Arguments memoCallback : simpl never.
#[local] Arguments cancelGuard : simpl never.
#[local] Arguments restartComputation : simpl never.
#[local] Arguments replayDeferred : simpl never.
#[local] Arguments effectCallback : simpl never.
#[local] Arguments useMemo : simpl never.
#[local] Arguments useTracker : simpl never.
#[local] Arguments exported : simpl never.
#[local] Arguments shouldWarn : simpl never.
#[local] Arguments logs : simpl never.
#[local] Arguments countEv : simpl never.

Lemma countEv_app P (l l' : list Event) :
  countEv P (l ++ l') = countEv P l + countEv P l'.
Proof. unfold countEv. now rewrite filter_app, length_app. Qed.

Lemma logs_app {A} (es t : list A) : logs es t = t ++ es.
Proof.
  unfold logs. revert t. induction es as [|e es IH]; intros t; cbn.
  - now rewrite app_nil_r.
  - rewrite IH, <- app_assoc. reflexivity.
Qed.

Lemma bind_ok {A B} (m : M W A) (k : A -> M W B) s a s1 :
  m s = (Ok a, s1) -> bind m k s = k a s1.
Proof. unfold bind. now intros ->. Qed.

Lemma bind_throw {A B} (m : M W A) (k : A -> M W B) s e s1 :
  m s = (Throw e, s1) -> bind m k s = (Throw e, s1).
Proof. unfold bind. now intros ->. Qed.

(** *** Disposer *)

Lemma dispose_ok s w' :
  cleanupOutcome (computationCleanup (refs s)) (world s) = (Ok tt, w') ->
  dispose s = (Ok tt, disposed w' s).
Proof.
  destruct s as [[m d cl slot tid data] w [nc cs st] ck h tr]; cbn.
  intros H. run_m.
  destruct cl as [[f|]|]; cbn in *.
  - rewrite H. destruct slot; reflexivity.
  - discriminate.
  - injection H as <-. destruct slot; reflexivity.
Qed.

Lemma dispose_throw s cl e w' :
  computationCleanup (refs s) = Some cl ->
  applyCleanup cl (world s) = (Throw e, w') ->
  dispose s = (Throw e, cleanupFailed w' s).
Proof.
  destruct s as [[m d cl0 slot tid data] w [nc cs st] ck h tr]; cbn.
  intros -> H. run_m.
  destruct cl as [f|]; cbn in *.
  - now rewrite H.
  - now injection H as <- <-.
Qed.

(** *** runReactiveFn *)

Lemma runReactiveFn_ok p c s v w' :
  applyFn (reactiveFn p) c (world s) = (Ok v, w') ->
  runReactiveFn env p c s = (Ok tt, recomputed env c v w' s).
Proof.
  destruct s as [[m d cl slot tid data] w g ck h tr]; cbn.
  intros H. run_m. unfold recomputed, cursorWarning.
  destruct (reactiveFn p) as [|f]; cbn in *; [discriminate|].
  rewrite H. cbn.
  destruct (isDevelopment env); cbn; [|reflexivity].
  destruct (shouldWarn env v); reflexivity.
Qed.

Lemma runReactiveFn_throw p c s e w' :
  applyFn (reactiveFn p) c (world s) = (Throw e, w') ->
  runReactiveFn env p c s =
  (Throw e, attempted (EvReactive c) (reactiveFn p) w' s).
Proof.
  destruct s as [[m d cl slot tid data] w g ck h tr]; cbn.
  intros H. run_m. unfold attempted.
  destruct (reactiveFn p) as [|f]; cbn in *.
  - now injection H as <- <-.
  - now rewrite H.
Qed.

(** *** TrackedCallback *)

Lemma tracked_first p c s :
  isFirst c = true -> tracked env p c s = firstRun env p c s.
Proof. destruct c as [| |cid [|]]; try discriminate; reflexivity. Qed.

Lemma tracked_again p cid s :
  tracked env p (ArgComp cid false) s = rerun env p (ArgComp cid false) s.
Proof. reflexivity. Qed.

Lemma rerun_not_array p c s w' :
  isArray (deps p) = false ->
  cleanupOutcome (computationCleanup (refs s)) (world s) = (Ok tt, w') ->
  rerun env p c s = (Ok tt, forced (disposed w' s)).
Proof.
  intros Hd Hc. unfold rerun. rewrite Hd. cbn [negb].
  rewrite (bind_ok _ _ _ _ _ (dispose_ok _ _ Hc)). reflexivity.
Qed.

Lemma rerun_not_array_throw p c s cl e w' :
  isArray (deps p) = false ->
  computationCleanup (refs s) = Some cl ->
  applyCleanup cl (world s) = (Throw e, w') ->
  rerun env p c s = (Throw e, cleanupFailed w' s).
Proof.
  intros Hd Hc Ha. unfold rerun. rewrite Hd. cbn [negb].
  now rewrite (bind_throw _ _ _ _ _ (dispose_throw _ _ _ _ Hc Ha)).
Qed.

Lemma rerun_mounted p c s v w' :
  isArray (deps p) = true ->
  mountedTruthy (refs s) = true ->
  applyFn (reactiveFn p) c (world s) = (Ok v, w') ->
  rerun env p c s = (Ok tt, forced (recomputed env c v w' s)).
Proof.
  intros Hd Hm Hf. unfold rerun. rewrite Hd. cbn [negb].
  unfold bind at 1. cbn. rewrite Hm.
  rewrite (bind_ok _ _ _ _ _ (runReactiveFn_ok _ _ _ _ _ Hf)). reflexivity.
Qed.

Lemma rerun_deferred p c s :
  isArray (deps p) = true ->
  mountedTruthy (refs s) = false ->
  rerun env p c s = (Ok tt, with_refs (set_doDeferredRender (Some true)) s).
Proof.
  intros Hd Hm. unfold rerun. rewrite Hd. cbn [negb].
  unfold bind at 1. cbn. now rewrite Hm.
Qed.

Lemma attachHandler_ok p c s r w1 :
  applyHandler (computationHandler p) c (world s) = (Ok r, w1) ->
  attachHandler env p c s = (Ok tt, attached env p c r w1 s).
Proof.
  destruct s as [[m d cl slot tid data] w g ck h tr]; cbn.
  unfold attachHandler, attached, handlerEvents. cbn.
  destruct (computationHandler p) as [hd|]; cbn; intros H.
  - run_m. destruct hd as [|hf]; cbn in *; [discriminate|].
    rewrite H.
    destruct r as [|[f|]]; destruct (isDevelopment env); cbn; reflexivity.
  - now injection H as <- <-.
Qed.

Lemma attachHandler_throw p c s h e w1 :
  computationHandler p = Some h ->
  applyFn h c (world s) = (Throw e, w1) ->
  attachHandler env p c s = (Throw e, attempted (EvHandler c) h w1 s).
Proof.
  destruct s as [[m d cl slot tid data] w g ck hst tr]; cbn.
  unfold attachHandler, attempted. intros -> H. run_m.
  destruct h as [|hf]; cbn in *.
  - now injection H as <- <-.
  - now rewrite H.
Qed.

Lemma firstRun_stale p c s r w1 :
  applyHandler (computationHandler p) c (world s) = (Ok r, w1) ->
  isMounted (refs s) = Some false ->
  firstRun env p c s = (Ok tt, attached env p c r w1 s).
Proof.
  intros Hh Hm. unfold firstRun.
  rewrite (bind_ok _ _ _ _ _ (attachHandler_ok _ _ _ _ _ Hh)).
  unfold bind, getRefs; cbn. now rewrite Hm.
Qed.

Lemma firstRun_fresh p c s r w1 v w2 :
  applyHandler (computationHandler p) c (world s) = (Ok r, w1) ->
  isMounted (refs s) <> Some false ->
  applyFn (reactiveFn p) c w1 = (Ok v, w2) ->
  firstRun env p c s =
  (Ok tt, recomputed env c v w2 (markUnmounted (attached env p c r w1 s))).
Proof.
  intros Hh Hm Hf. unfold firstRun.
  rewrite (bind_ok _ _ _ _ _ (attachHandler_ok _ _ _ _ _ Hh)).
  destruct s as [[m d cl slot tid data] w g ck h tr]; cbn in *.
  unfold bind at 1, getRefs; cbn.
  destruct m as [[|]|]; try congruence; cbn.
  - erewrite runReactiveFn_ok by (cbn; exact Hf). reflexivity.
  - unfold bind, modifyRefs.
    erewrite runReactiveFn_ok by (cbn; exact Hf). reflexivity.
Qed.

Lemma firstRun_ok p c s r w1 a :
  applyHandler (computationHandler p) c (world s) = (Ok r, w1) ->
  firstAnswer p c w1 (isMounted (refs s)) a ->
  firstRun env p c s = (Ok tt, firstRan env p c r w1 a s).
Proof.
  intros Hh Ha. unfold firstRan.
  destruct (isMounted (refs s)) as [[|]|] eqn:Em, a as [[v w2]|];
    cbn in Ha; try contradiction.
  - apply firstRun_fresh; [exact Hh|congruence|exact Ha].
  - now apply firstRun_stale.
  - apply firstRun_fresh; [exact Hh|congruence|exact Ha].
Qed.

Lemma firstRun_handler_throw p c s h e w1 :
  computationHandler p = Some h ->
  applyFn h c (world s) = (Throw e, w1) ->
  firstRun env p c s = (Throw e, attempted (EvHandler c) h w1 s).
Proof.
  intros Hp Hh. unfold firstRun.
  now rewrite (bind_throw _ _ _ _ _
                 (attachHandler_throw _ _ _ _ _ _ Hp Hh)).
Qed.

(** *** Creation, render pass, effect *)

Lemma createComputation_run p s o s' :
  firstRun env p (ArgComp (nextComp (engine s)) true) (registered p s)
  = (o, s') ->
  createComputation env p s =
  (match o with Ok _ => Ok (nextComp (engine s)) | Throw e => Throw e end,
   s').
Proof.
  intros H. unfold createComputation, nonreactive, autorun.
  change (with_engine _ (log _ s)) with (registered p s).
  change (tracked env p (ArgComp (nextComp (engine s)) true))
    with (firstRun env p (ArgComp (nextComp (engine s)) true)).
  rewrite H. now destruct o.
Qed.

Lemma timeoutCallback_eq s :
  timeoutCallback s = if mountedTruthy (refs s) then (Ok tt, s) else dispose s.
Proof.
  unfold timeoutCallback, bind, getRefs, when; cbn.
  now destruct (mountedTruthy (refs s)).
Qed.

Lemma scheduleGuard_eq s :
  scheduleGuard s = (Ok tt, if mountedTruthy (refs s) then s else guarded s).
Proof.
  unfold scheduleGuard, bind, getRefs, when; cbn.
  now destruct (mountedTruthy (refs s)).
Qed.

Lemma memoCallback_client p s s1 cid s2 :
  isServer env = false ->
  dispose s = (Ok tt, s1) ->
  createComputation env p s1 = (Ok cid, s2) ->
  memoCallback env p s =
  (Ok tt,
   if mountedTruthy (refs s2)
   then with_refs (set_computation (SlotComp cid)) s2
   else guarded (with_refs (set_computation (SlotComp cid)) s2)).
Proof.
  intros Hs Hd Hc. unfold memoCallback. rewrite Hs.
  rewrite (bind_ok _ _ _ _ _ Hd), (bind_ok _ _ _ _ _ Hc).
  unfold bind, modifyRefs. rewrite scheduleGuard_eq. reflexivity.
Qed.

Lemma memoCallback_ok p s w1 r w2 a :
  cleanupOutcome (computationCleanup (refs s)) (world s) = (Ok tt, w1) ->
  applyHandler (computationHandler p)
    (firstArg env (nextComp (engine s))) w1 = (Ok r, w2) ->
  firstAnswer p (firstArg env (nextComp (engine s))) w2
    (isMounted (refs s)) a ->
  memoCallback env p s = (Ok tt, recreated env p w1 r w2 a s).
Proof.
  intros Hc Hh Ha. pose proof (dispose_ok _ _ Hc) as Hd.
  unfold recreated, firstArg in *. destruct (isServer env) eqn:Hs.
  - unfold memoCallback. rewrite Hs, (bind_ok _ _ _ _ _ Hd).
    unfold bind at 1, modifyRefs.
    rewrite tracked_first by reflexivity.
    apply firstRun_ok; cbn.
    + replace (world (disposed w1 s)) with w1; [exact Hh|].
      unfold cleanupOutcome in Hc.
      destruct s as [[m d [cl|] slot tid data] w g ck h tr]; cbn in *;
        congruence.
    + exact Ha.
  - assert (Hw : world (disposed w1 s) = w1).
    { unfold cleanupOutcome in Hc.
      destruct s as [[m d [cl|] slot tid data] w g ck h tr]; cbn in *;
        congruence. }
    rewrite (memoCallback_client p s (disposed w1 s) (nextComp (engine s))
               (firstRan env p (ArgComp (nextComp (engine s)) true) r w2 a
                  (registered p (disposed w1 s))) Hs Hd); [reflexivity|].
    apply (createComputation_run p (disposed w1 s) (Ok tt)).
    apply firstRun_ok; cbn; rewrite ?Hw; assumption.
Qed.

Lemma effectCallback_client p s :
  isServer env = false ->
  effectCallback env p s =
  (restartComputation env p ;; replayDeferred env p) (unguarded s).
Proof.
  intros Hs. unfold effectCallback. rewrite Hs. reflexivity.
Qed.

Lemma effectCallback_server p s :
  isServer env = true ->
  effectCallback env p s = (Ok tt, with_refs (set_isMounted (Some true)) s).
Proof.
  intros Hs. unfold effectCallback. rewrite Hs. reflexivity.
Qed.

Lemma restartComputation_held p s :
  slotTruthy (computation (refs s)) = true ->
  restartComputation env p s = (Ok tt, s).
Proof.
  intros H. unfold restartComputation, bind, getRefs; cbn. now rewrite H.
Qed.

Lemma restartComputation_array p s cid s1 :
  slotTruthy (computation (refs s)) = false ->
  isArray (deps p) = true ->
  createComputation env p s = (Ok cid, s1) ->
  restartComputation env p s =
  (Ok tt,
   with_refs (set_doDeferredRender (Some true))
     (with_refs (set_computation (SlotComp cid)) s1)).
Proof.
  intros H Hd Hc. unfold restartComputation, bind at 1, getRefs; cbn.
  rewrite H, Hd; cbn. unfold bind. now rewrite Hc.
Qed.

Lemma restartComputation_not_array p s :
  slotTruthy (computation (refs s)) = false ->
  isArray (deps p) = false ->
  restartComputation env p s =
  (Ok tt, with_refs (set_doDeferredRender (Some true)) s).
Proof.
  intros H Hd. unfold restartComputation, bind at 1, getRefs; cbn.
  now rewrite H, Hd.
Qed.

Lemma replayDeferred_idle p s :
  deferredTruthy (refs s) = false ->
  replayDeferred env p s = (Ok tt, s).
Proof.
  intros H. unfold replayDeferred, bind, getRefs; cbn. now rewrite H.
Qed.

Lemma replayDeferred_ok p s v w' :
  deferredTruthy (refs s) = true ->
  applyFn (reactiveFn p) (slotArg (computation (refs s))) (world s)
  = (Ok v, w') ->
  replayDeferred env p s =
  (Ok tt,
   with_refs (set_doDeferredRender None)
     (forced (recomputed env (slotArg (computation (refs s))) v w' s))).
Proof.
  intros H Hf. unfold replayDeferred, bind at 1, getRefs; cbn.
  rewrite H; cbn.
  rewrite (bind_ok _ _ _ _ _ (runReactiveFn_ok _ _ _ _ _ Hf)).
  reflexivity.
Qed.

Lemma replayDeferred_throw p s e w' :
  deferredTruthy (refs s) = true ->
  applyFn (reactiveFn p) (slotArg (computation (refs s))) (world s)
  = (Throw e, w') ->
  replayDeferred env p s =
  (Throw e,
   attempted (EvReactive (slotArg (computation (refs s)))) (reactiveFn p)
     w' s).
Proof.
  intros H Hf. unfold replayDeferred, bind at 1, getRefs; cbn.
  rewrite H; cbn.
  now rewrite (bind_throw _ _ _ _ _ (runReactiveFn_throw _ _ _ _ _ Hf)).
Qed.

Lemma useMemo_run p s s1 :
  depsChanged (memoDeps (host s)) (deps p) = true ->
  memoCallback env p s = (Ok tt, s1) ->
  useMemo env p s = (Ok tt, memoized p s1).
Proof.
  intros Hd Hm. unfold useMemo. now rewrite Hd, Hm.
Qed.

Lemma useMemo_throw p s e s1 :
  depsChanged (memoDeps (host s)) (deps p) = true ->
  memoCallback env p s = (Throw e, s1) ->
  useMemo env p s = (Throw e, s1).
Proof.
  intros Hd Hm. unfold useMemo. now rewrite Hd, Hm.
Qed.

Lemma useMemo_keep p s :
  depsChanged (memoDeps (host s)) (deps p) = false ->
  useMemo env p s = (Ok tt, s).
Proof.
  intros Hd. unfold useMemo. now rewrite Hd.
Qed.

Lemma useTracker_ok p s s1 :
  useMemo env p s = (Ok tt, s1) ->
  useTracker env p s = (Ok (trackerData (refs s1)), effectRegistered p s1).
Proof.
  intros H. unfold useTracker. rewrite (bind_ok _ _ _ _ _ H).
  unfold bind, useEffect, getRefs, ret, effectRegistered; cbn.
  destruct (phase (host s1)); reflexivity.
Qed.

Lemma useTracker_throw p s e s1 :
  useMemo env p s = (Throw e, s1) ->
  useTracker env p s = (Throw e, s1).
Proof.
  intros H. unfold useTracker. now rewrite (bind_throw _ _ _ _ _ H).
Qed.

Lemma memoCallback_dispose_throw p s e s1 :
  dispose s = (Throw e, s1) -> memoCallback env p s = (Throw e, s1).
Proof.
  intros H. unfold memoCallback. now rewrite (bind_throw _ _ _ _ _ H).
Qed.

Lemma exported_eq p s : exported env p s = useTracker env p (warned env p s).
Proof.
  destruct s as [r w g ck h tr].
  unfold exported, warned, argWarnings, useTrackerDev; cbn.
  destruct (isDevelopment env); [|reflexivity].
  unfold bind, when, emit, log; cbn.
  destruct (reactiveFn p); cbn;
    destruct (depsTruthy (deps p) && negb (isArray (deps p))); cbn;
    destruct (computationHandler p) as [[|]|]; reflexivity.
Qed.

(** ** Counting events *)

Lemma count_cursorWarning P v :
  (forall w, P (EvWarn w) = false) -> countEv P (cursorWarning env v) = 0.
Proof.
  intros H. unfold cursorWarning.
  destruct (isDevelopment env && shouldWarn env v); cbn; [|reflexivity].
  unfold countEv; cbn. now rewrite H.
Qed.

Lemma count_argWarnings P p :
  (forall w, P (EvWarn w) = false) -> countEv P (argWarnings env p) = 0.
Proof.
  intros H. unfold argWarnings.
  destruct (isDevelopment env); [|reflexivity].
  rewrite !countEv_app.
  destruct (reactiveFn p);
    destruct (depsTruthy (deps p) && negb (isArray (deps p)));
    destruct (computationHandler p) as [[|]|];
    unfold countEv; cbn; rewrite ?H; reflexivity.
Qed.

Lemma count_handlerEvents P p c r :
  (forall w, P (EvWarn w) = false) ->
  (forall a, P (EvHandler a) = false) ->
  countEv P (handlerEvents env p c r) = 0.
Proof.
  intros H H'. unfold handlerEvents.
  destruct (computationHandler p); [|reflexivity].
  destruct r as [|[f|]]; try destruct (isDevelopment env);
    unfold countEv; cbn; rewrite ?H, ?H'; reflexivity.
Qed.

Lemma countEv_nil P : countEv P [] = 0.
Proof. reflexivity. Qed.

Lemma countEv_cons P (ev : Event) (l : list Event) :
  countEv P (ev :: l) = (if P ev then 1 else 0) + countEv P l.
Proof. unfold countEv; cbn. now destruct (P ev). Qed.

Lemma count_cleanupEvents P (cl : option (Cleanup W)) :
  P EvCleanup = false -> countEv P (cleanupEvents cl) = 0.
Proof.
  intros H. destruct cl as [[f|]|]; try reflexivity.
  unfold countEv; cbn. now rewrite H.
Qed.

Lemma count_stopEvents P ids :
  (forall i, P (EvStop i) = false) -> countEv P (map EvStop ids) = 0.
Proof.
  intros H. induction ids as [|i ids IH]; [reflexivity|].
  cbn. now rewrite countEv_cons, H, IH.
Qed.

Lemma count_stops slot :
  countEv isStop (map EvStop (stopIds slot)) = held slot.
Proof. now destruct slot. Qed.

Lemma count_cleanups (cl : option (Cleanup W)) w w' :
  cleanupOutcome cl w = (Ok tt, w') ->
  countEv isCleanup (cleanupEvents cl) = occupied cl.
Proof. destruct cl as [[f|]|]; cbn; try reflexivity. discriminate. Qed.

Ltac count_ev :=
  unfold forceUpdates, creations in *; cbn;
  rewrite ?logs_app; rewrite ?countEv_app;
  rewrite ?count_cursorWarning by (intros; reflexivity);
  rewrite ?count_argWarnings by (intros; reflexivity);
  rewrite ?count_handlerEvents by (intros; reflexivity);
  rewrite ?count_cleanupEvents by reflexivity;
  rewrite ?count_stopEvents by (intros; reflexivity);
  rewrite ?count_stops;
  rewrite ?countEv_cons, ?countEv_nil;
  rewrite ?count_cursorWarning by (intros; reflexivity);
  cbn.

Lemma exported_recreate p s w1 r w2 a :
  depsChanged (memoDeps (host s)) (deps p) = true ->
  cleanupOutcome (computationCleanup (refs s)) (world s) = (Ok tt, w1) ->
  applyHandler (computationHandler p)
    (firstArg env (nextComp (engine s))) w1 = (Ok r, w2) ->
  firstAnswer p (firstArg env (nextComp (engine s))) w2
    (isMounted (refs s)) a ->
  exported env p s =
  (Ok (trackerData (refs (recreated env p w1 r w2 a (warned env p s)))),
   effectRegistered p
     (memoized p (recreated env p w1 r w2 a (warned env p s)))).
Proof.
  intros Hd Hc Hh Ha. rewrite exported_eq.
  apply (useTracker_ok p (warned env p s)
           (memoized p (recreated env p w1 r w2 a (warned env p s)))).
  apply useMemo_run; [exact Hd|].
  now apply memoCallback_ok.
Qed.

Lemma exported_keep p s :
  depsChanged (memoDeps (host s)) (deps p) = false ->
  exported env p s =
  (Ok (trackerData (refs s)), effectRegistered p (warned env p s)).
Proof.
  intros Hd. rewrite exported_eq.
  apply (useTracker_ok p (warned env p s) (warned env p s)).
  now apply useMemo_keep.
Qed.

Lemma depsChanged_first d : depsChanged None d = true.
Proof. now destruct d. Qed.

(** ** Render pass *)

(** C1. Synchronous first paint: the very first render calls
    [reactiveFn] during the first run of [tracked], caches what it
    returned, returns exactly that value, and requests no re-render. *)
Theorem first_render_synchronous p w r w1 v w2 :
  applyHandler (computationHandler p) (firstArg env 0) w = (Ok r, w1) ->
  applyFn (reactiveFn p) (firstArg env 0) w1 = (Ok v, w2) ->
  exists s',
    exported env p (initState w) = (Ok v, s') /\
    trackerData (refs s') = v /\
    world s' = w2 /\
    In (EvReactive (firstArg env 0)) (trace s') /\
    countEv isReactive (trace s') = 1 /\
    forceUpdates s' = 0 /\
    tick (host s') = 0.
Proof.
  intros Hh Hf.
  rewrite (exported_recreate p (initState w) w r w1 (Some (v, w2))
             (depsChanged_first _) eq_refl Hh Hf).
  unfold recreated, firstArg, guardedIfUnmounted.
  destruct (isServer env); cbn.
  - eexists; split; [reflexivity|]. cbn. repeat split.
    + rewrite logs_app. apply in_or_app. right. now left.
    + count_ev. reflexivity.
    + count_ev. reflexivity.
  - eexists; split; [reflexivity|]. cbn. repeat split.
    + rewrite !logs_app. apply in_or_app. left.
      apply in_or_app. right. now left.
    + count_ev. reflexivity.
    + count_ev. reflexivity.
Qed.

(** ** Disposer *)



(** ** TrackedCallback and MountReconciler *)

(** Whatever is in the slot, a pending deferred render is replayed by the
    effect with exactly one re-render request. *)
Lemma effect_replays_once p s :
  isServer env = false ->
  wellBehaved p ->
  deferredTruthy (refs s) = true ->
  exists s',
    effectCallback env p s = (Ok tt, s') /\
    forceUpdates s' = forceUpdates s + 1 /\
    doDeferredRender (refs s') = None /\
    isMounted (refs s') = Some true.
Proof.
  intros Hs [Hf Hh] Hdef.
  rewrite (effectCallback_client p s Hs).
  assert (Hreplay : forall s0,
            deferredTruthy (refs s0) = true ->
            exists s',
              replayDeferred env p s0 = (Ok tt, s') /\
              forceUpdates s' = forceUpdates s0 + 1 /\
              doDeferredRender (refs s') = None /\
              isMounted (refs s') = isMounted (refs s0)).
  { intros s0 Hd.
    destruct (Hf (slotArg (computation (refs s0))) (world s0))
      as (v & w' & Hv).
    rewrite (replayDeferred_ok p s0 v w' Hd Hv).
    eexists. split; [reflexivity|]. cbn. repeat split. count_ev. lia. }
  destruct (slotTruthy (computation (refs s))) eqn:Hslot.
  - rewrite (bind_ok _ _ _ _ _
               (restartComputation_held p (unguarded s) Hslot)).
    destruct (Hreplay (unguarded s) Hdef) as (s' & H1 & H2 & H3 & H4).
    exists s'. repeat split; try assumption.
    rewrite H2. count_ev. lia.
  - destruct (isArray (deps p)) eqn:Hd.
    + destruct (Hh (ArgComp (nextComp (engine s)) true) (world s))
        as (r & w1 & Hr & _).
      destruct (Hf (ArgComp (nextComp (engine s)) true) w1)
        as (v1 & w2 & Hv1).
      pose proof (createComputation_run p (unguarded s) (Ok tt) _
                    (firstRun_fresh p _ (registered p (unguarded s))
                       r w1 v1 w2 Hr ltac:(discriminate) Hv1)) as Hc.
      rewrite (bind_ok _ _ _ _ _
                 (restartComputation_array p (unguarded s) _ _
                    Hslot Hd Hc)).
      match goal with
      | |- context [replayDeferred env p ?s0] =>
          destruct (Hreplay s0 eq_refl) as (s' & H1 & H2 & H3 & H4)
      end.
      exists s'. repeat split; try assumption.
      rewrite H2. count_ev. lia.
    + rewrite (bind_ok _ _ _ _ _
                 (restartComputation_not_array p (unguarded s) Hslot Hd)).
      match goal with
      | |- context [replayDeferred env p ?s0] =>
          destruct (Hreplay s0 eq_refl) as (s' & H1 & H2 & H3 & H4)
      end.
      exists s'. repeat split; try assumption.
      rewrite H2. count_ev. lia.
Qed.

(** C2. Deferred replay, not drop: an invalidation with array deps that
    fires while [isMounted] is not yet true changes nothing but the
    deferred-render flag; the effect that follows the commit recomputes
    from the held handle on the data as it is then, clears the flag and
    requests exactly one re-render, after the recomputation.  The count
    is one as well when the handle is gone by then and the effect has to
    restart the computation first. *)
Theorem deferred_replay pI p cid hc s w0 v w' :
  isServer env = false ->
  isArray (deps pI) = true ->
  mountedTruthy (refs s) = false ->
  computation (refs s) = SlotComp hc ->
  applyFn (reactiveFn p) (ArgComp hc false) w0 = (Ok v, w') ->
  exists s2,
    tracked env pI (ArgComp cid false) s =
      (Ok tt, with_refs (set_doDeferredRender (Some true)) s) /\
    effectCallback env p
      (with_world w0 (with_refs (set_doDeferredRender (Some true)) s)) =
      (Ok tt, s2) /\
    trackerData (refs s2) = v /\
    doDeferredRender (refs s2) = None /\
    isMounted (refs s2) = Some true /\
    forceUpdates s2 = forceUpdates s + 1 /\
    trace s2 =
      trace s ++ [EvClearTimeout (disposeId (refs s));
                  EvReactive (ArgComp hc false)]
              ++ cursorWarning env v ++ [EvForceUpdate] /\
    (forall q w1 (s0 : State W),
       wellBehaved q ->
       deferredTruthy (refs s0) = true ->
       exists s3,
         effectCallback env q (with_world w1 s0) = (Ok tt, s3) /\
         forceUpdates s3 = forceUpdates s0 + 1 /\
         doDeferredRender (refs s3) = None).
Proof.
  intros Hs Hd Hm Hslot Hf.
  set (s1 := with_world w0 (with_refs (set_doDeferredRender (Some true)) s)).
  assert (Hr : restartComputation env p (unguarded s1) = (Ok tt, unguarded s1)).
  { apply restartComputation_held. cbn. now rewrite Hslot. }
  assert (Hp : replayDeferred env p (unguarded s1) =
               (Ok tt,
                with_refs (set_doDeferredRender None)
                  (forced (recomputed env (ArgComp hc false) v w'
                             (unguarded s1))))).
  { pose proof (replayDeferred_ok p (unguarded s1) v w' eq_refl) as H.
    cbn in H. rewrite Hslot in H. now apply H. }
  eexists. split.
  { rewrite tracked_again. now apply rerun_deferred. }
  split.
  { rewrite effectCallback_client by exact Hs.
    rewrite (bind_ok _ _ _ _ _ Hr). exact Hp. }
  cbn. repeat split.
  - count_ev. lia.
  - rewrite !logs_app, <- !app_assoc. reflexivity.
  - intros q w1 s0 Hq Hdef.
    destruct (effect_replays_once q (with_world w1 s0) Hs Hq Hdef)
      as (s3 & H1 & H2 & H3 & _).
    exists s3. repeat split; assumption.
Qed.

(** C6. Non-array deps always recreate: a later run of [tracked] with deps
    that are not an array disposes the held computation and requests a
    re-render without calling [reactiveFn]; with deps omitted, a render
    pass on the client disposes the old computation and creates a fresh
    one. *)
Theorem non_array_deps_recreate p cid s w1 :
  isArray (deps p) = false ->
  cleanupOutcome (computationCleanup (refs s)) (world s) = (Ok tt, w1) ->
  (exists s',
     tracked env p (ArgComp cid false) s = (Ok tt, s') /\
     slotTruthy (computation (refs s')) = false /\
     stopped (engine s') =
       stopped (engine s) ++ stopIds (computation (refs s)) /\
     countEv isStop (trace s') =
       countEv isStop (trace s) + held (computation (refs s)) /\
     forceUpdates s' = forceUpdates s + 1 /\
     countEv isReactive (trace s') = countEv isReactive (trace s) /\
     trackerData (refs s') = trackerData (refs s) /\
     creations s' = creations s) /\
  (deps p = DepsUndefined ->
   isServer env = false ->
   forall r w2 a,
     applyHandler (computationHandler p)
       (ArgComp (nextComp (engine s)) true) w1 = (Ok r, w2) ->
     firstAnswer p (ArgComp (nextComp (engine s)) true) w2
       (isMounted (refs s)) a ->
     exists v s',
       exported env p s = (Ok v, s') /\
       stopped (engine s') =
         stopped (engine s) ++ stopIds (computation (refs s)) /\
       countEv isStop (trace s') =
         countEv isStop (trace s) + held (computation (refs s)) /\
       computation (refs s') = SlotComp (nextComp (engine s)) /\
       comps (engine s') =
         comps (engine s) ++ [(nextComp (engine s), p)] /\
       creations s' = creations s + 1).
Proof.
  intros Hd Hc. split.
  - exists (forced (disposed w1 s)). split.
    { rewrite tracked_again. now apply rerun_not_array. }
    cbn. repeat split.
    + now destruct (computation (refs s)).
    + now rewrite logs_app.
    + count_ev. lia.
    + count_ev. lia.
    + count_ev. lia.
    + count_ev. lia.
  - intros Hu Hs r w2 a Hh Ha.
    assert (Hch : depsChanged (memoDeps (host s)) (deps p) = true)
      by now rewrite Hu.
    assert (Hh' : applyHandler (computationHandler p)
                    (firstArg env (nextComp (engine s))) w1 = (Ok r, w2))
      by (unfold firstArg; now rewrite Hs).
    assert (Ha' : firstAnswer p (firstArg env (nextComp (engine s))) w2
                    (isMounted (refs s)) a)
      by (unfold firstArg; now rewrite Hs).
    rewrite (exported_recreate p s w1 r w2 a Hch Hc Hh' Ha').
    eexists. eexists. split; [reflexivity|].
    unfold recreated, guardedIfUnmounted, firstRan, effectRegistered.
    rewrite Hs.
    destruct s as [[m d cl slot tid data] w [nc cs st] ck [tk md pe ph] tr].
    cbn in *.
    destruct a as [[v w3]|], m as [[|]|], ph; cbn; try contradiction;
      (repeat split; try (now rewrite logs_app); count_ev; lia).
Qed.

(** C7. Mount-reconciler recovery: when the effect finds no computation
    handle and the deps are an array, it creates a computation the way
    the render pass does (the same creation step, its first run
    included), marks a deferred render and replays it at once; with deps
    that are not an array it creates nothing. *)
Theorem mount_recovery p s r w1 v1 w2 v2 w3 :
  isServer env = false ->
  slotTruthy (computation (refs s)) = false ->
  isArray (deps p) = true ->
  applyHandler (computationHandler p)
    (ArgComp (nextComp (engine s)) true) (world s) = (Ok r, w1) ->
  applyFn (reactiveFn p) (ArgComp (nextComp (engine s)) true) w1
    = (Ok v1, w2) ->
  applyFn (reactiveFn p) (ArgComp (nextComp (engine s)) false) w2
    = (Ok v2, w3) ->
  exists s',
    effectCallback env p s = (Ok tt, s') /\
    computation (refs s') = SlotComp (nextComp (engine s)) /\
    comps (engine s') = comps (engine s) ++ [(nextComp (engine s), p)] /\
    creations s' = creations s + 1 /\
    forceUpdates s' = forceUpdates s + 1 /\
    doDeferredRender (refs s') = None /\
    isMounted (refs s') = Some true /\
    trackerData (refs s') = v2 /\
    world s' = w3 /\
    (computationCleanup (refs s) = None ->
     exists sg,
       memoCallback env p (unguarded s) = (Ok tt, sg) /\
       effectCallback env p s =
       replayDeferred env p
         (with_refs (set_doDeferredRender (Some true)) sg)) /\
    (forall q v w',
       isArray (deps q) = false ->
       applyFn (reactiveFn q) (slotArg (computation (refs s))) (world s)
       = (Ok v, w') ->
       exists s'',
         effectCallback env q s = (Ok tt, s'') /\
         engine s'' = engine s /\
         creations s'' = creations s /\
         slotTruthy (computation (refs s'')) = false /\
         forceUpdates s'' = forceUpdates s + 1).
Proof.
  intros Hs Hslot Hd Hh Hf1 Hf2.
  set (n := nextComp (engine s)) in *.
  set (s1 := recomputed env (ArgComp n true) v1 w2
               (markUnmounted
                  (attached env p (ArgComp n true) r w1
                     (registered p (unguarded s))))).
  assert (Hc : createComputation env p (unguarded s) = (Ok n, s1)).
  { apply (createComputation_run p (unguarded s) (Ok tt)).
    apply firstRun_fresh; [exact Hh|discriminate|exact Hf1]. }
  set (s2 := with_refs (set_doDeferredRender (Some true))
               (with_refs (set_computation (SlotComp n)) s1)).
  assert (Hr : restartComputation env p (unguarded s) = (Ok tt, s2))
    by (apply restartComputation_array; assumption).
  assert (Hp : replayDeferred env p s2 =
               (Ok tt,
                with_refs (set_doDeferredRender None)
                  (forced (recomputed env (ArgComp n false) v2 w3 s2))))
    by (apply (replayDeferred_ok p s2 v2 w3 eq_refl); exact Hf2).
  assert (He : effectCallback env p s = replayDeferred env p s2).
  { rewrite effectCallback_client by exact Hs.
    now rewrite (bind_ok _ _ _ _ _ Hr). }
  eexists. split; [rewrite He; exact Hp|].
  cbn. repeat split.
  - count_ev. lia.
  - count_ev. lia.
  - intros Hcl.
    assert (Hdis : dispose (unguarded s) = (Ok tt, unguarded s)).
    { rewrite (dispose_ok (unguarded s) (world s))
        by (cbn; now rewrite Hcl).
      destruct s as [[m d cl slot tid data] w [nc cs st] ck h tr].
      cbn in *. subst cl. destruct slot; try discriminate; reflexivity. }
    exists (with_refs (set_computation (SlotComp n)) s1). split.
    + now rewrite (memoCallback_client p (unguarded s) (unguarded s) n s1
                     Hs Hdis Hc).
    + exact He.
  - intros q v w' Hq Hf.
    set (s3 := with_refs (set_doDeferredRender (Some true)) (unguarded s)).
    assert (Hr' : restartComputation env q (unguarded s) = (Ok tt, s3))
      by (apply restartComputation_not_array; assumption).
    assert (Hp' : replayDeferred env q s3 =
               (Ok tt,
                with_refs (set_doDeferredRender None)
                  (forced (recomputed env
                             (slotArg (computation (refs s))) v w' s3))))
      by (apply (replayDeferred_ok q s3 v w' eq_refl); exact Hf).
    eexists. split.
    { rewrite effectCallback_client by exact Hs.
      rewrite (bind_ok _ _ _ _ _ Hr'). exact Hp'. }
    cbn. repeat split.
    + count_ev. lia.
    + exact Hslot.
    + count_ev. lia.
Qed.

(** C10. Recreation before the first commit returns a stale value: when
    the deps change on a render pass made while [isMounted] is [false],
    the first run of the new computation calls the computation handler and
    returns without calling [reactiveFn]; the cached result is untouched
    and the pass returns the previous value. *)
Theorem precommit_recreation_is_stale p s w1 r w2 :
  depsChanged (memoDeps (host s)) (deps p) = true ->
  isMounted (refs s) = Some false ->
  cleanupOutcome (computationCleanup (refs s)) (world s) = (Ok tt, w1) ->
  applyHandler (computationHandler p)
    (firstArg env (nextComp (engine s))) w1 = (Ok r, w2) ->
  exists s',
    exported env p s = (Ok (trackerData (refs s)), s') /\
    trackerData (refs s') = trackerData (refs s) /\
    countEv isReactive (trace s') = countEv isReactive (trace s) /\
    countEv isHandler (trace s') =
      countEv isHandler (trace s) + occupied (computationHandler p) /\
    forceUpdates s' = forceUpdates s /\
    (isServer env = false ->
     computation (refs s') = SlotComp (nextComp (engine s)) /\
     creations s' = creations s + 1).
Proof.
  intros Hch Hm Hc Hh.
  assert (Ha : firstAnswer p (firstArg env (nextComp (engine s))) w2
                 (isMounted (refs s)) None) by now rewrite Hm.
  rewrite (exported_recreate p s w1 r w2 None Hch Hc Hh Ha).
  unfold recreated, guardedIfUnmounted, firstRan, effectRegistered.
  assert (Hhe : countEv isHandler
                  (handlerEvents env p (firstArg env (nextComp (engine s))) r)
                = occupied (computationHandler p)).
  { unfold handlerEvents. destruct (computationHandler p); [|reflexivity].
    destruct r as [|[f|]]; try destruct (isDevelopment env); reflexivity. }
  unfold firstArg in *.
  destruct s as [[m d cl slot tid data] w [nc cs st] ck [tk md pe ph] tr].
  cbn in *. subst m.
  destruct (isServer env); cbn; eexists; (split; [reflexivity|]).
  - destruct ph; cbn; repeat split; try discriminate;
      count_ev; rewrite ?Hhe; lia.
  - destruct ph; cbn; repeat split; try discriminate;
      count_ev; rewrite ?Hhe; lia.
Qed.

(** ** Abandoned renders: the leak guard *)

Lemma cleanupTotal_none : cleanupTotal (@None (Cleanup W)).
Proof. intros w. now exists w. Qed.

Lemma dispose_total s :
  cleanupTotal (computationCleanup (refs s)) ->
  exists w', dispose s = (Ok tt, disposed w' s).
Proof.
  intros H. destruct (H (world s)) as [w' Hw].
  exists w'. now apply dispose_ok.
Qed.

Lemma isStopped_app cid (st ids : list nat) :
  existsb (Nat.eqb cid) (st ++ ids) =
  existsb (Nat.eqb cid) st || existsb (Nat.eqb cid) ids.
Proof. apply existsb_app. Qed.

Lemma isStopped_disposed cid w' s :
  isStopped cid (disposed w' s) =
  isStopped cid s ||
  match computation (refs s) with
  | SlotComp held => Nat.eqb cid held
  | _ => false
  end.
Proof.
  unfold isStopped; cbn. rewrite logs_app, isStopped_app.
  destruct (computation (refs s)); cbn; now rewrite ?orb_false_r.
Qed.

Lemma leakInv_after_dispose cid T s w' :
  leakInv cid T s -> isStopped cid (disposed w' s) = true.
Proof.
  intros (_ & _ & [H|[H _]]); rewrite isStopped_disposed.
  - now rewrite H.
  - rewrite H, Nat.eqb_refl. apply orb_true_r.
Qed.

Lemma leakInv_stopped cid T s :
  mountedTruthy (refs s) = false ->
  cleanupTotal (computationCleanup (refs s)) ->
  isStopped cid s = true ->
  leakInv cid T s.
Proof. intros Hm Hc Hs. repeat split; auto. Qed.

Lemma abandoned_dispose cid T s :
  leakInv cid T s ->
  exists s',
    dispose s = (Ok tt, s') /\
    leakInv cid T s' /\
    isStopped cid s' = true /\
    clock s' = clock s /\
    host s' = host s /\
    creations s' = creations s /\
    forceUpdates s' = forceUpdates s.
Proof.
  intros H. pose proof H as (Hm & Hc & _).
  destruct (dispose_total s Hc) as [w' Hd].
  exists (disposed w' s). split; [exact Hd|].
  pose proof (leakInv_after_dispose cid T s w' H) as Hs.
  split; [|split; [exact Hs|]].
  - apply leakInv_stopped; [exact Hm|apply cleanupTotal_none|exact Hs].
  - repeat split; count_ev; lia.
Qed.

Lemma lookupComp_some cid (l : list (nat * Props W)) p :
  lookupComp cid l = Some p -> In (cid, p) l.
Proof.
  unfold lookupComp. destruct (find _ l) as [[c q]|] eqn:E; [|discriminate].
  intros H; injection H as <-. apply find_some in E as [Hin Heq].
  cbn in Heq. apply Nat.eqb_eq in Heq. now subst c.
Qed.

Lemma abandoned_pulse cid T s k :
  leakInv cid T s ->
  leakInv cid T (pulse env k s) /\
  clock (pulse env k s) = clock s /\
  creations (pulse env k s) = creations s.
Proof.
  intros H. unfold pulse.
  destruct (lookupComp k (comps (engine s))) as [q|];
    [|split; [exact H|split; reflexivity]].
  unfold exec. rewrite tracked_again.
  pose proof H as (Hm & Hc & Hs).
  destruct (isArray (deps q)) eqn:Hq.
  - rewrite (rerun_deferred q _ s Hq Hm). cbn.
    split; [|split; reflexivity].
    split; [exact Hm|split; [exact Hc|exact Hs]].
  - destruct (Hc (world s)) as [w' Hw].
    rewrite (rerun_not_array q _ s w' Hq Hw).
    cbn. split; [|split; [reflexivity|count_ev; lia]].
    apply leakInv_stopped; cbn;
      [exact Hm|apply cleanupTotal_none|].
    apply (leakInv_after_dispose cid T s w' H).
Qed.

Lemma abandoned_expire cid T s id :
  mountedTruthy (refs s) = false ->
  cleanupTotal (computationCleanup (refs s)) ->
  isStopped cid s = true \/ computation (refs s) = SlotComp cid ->
  leakInv cid T (expire id s) /\
  isStopped cid (expire id s) = true /\
  now (clock (expire id s)) = now (clock s) /\
  timers (clock (expire id s)) = removeTimer id (timers (clock s)) /\
  creations (expire id s) = creations s.
Proof.
  intros Hm Hc Hs. unfold expire, exec.
  rewrite timeoutCallback_eq. cbn. rewrite Hm.
  destruct (Hc (world s)) as [w' Hw].
  rewrite (dispose_ok _ w') by exact Hw.
  assert (Hst : isStopped cid
                  (disposed w'
                     (with_clock
                        {| now := now (clock s);
                           nextTimer := nextTimer (clock s);
                           timers := removeTimer id (timers (clock s)) |}
                        s)) = true).
  { rewrite isStopped_disposed.
    change (isStopped cid (with_clock _ s)) with (isStopped cid s).
    change (computation (refs (with_clock _ s)))
      with (computation (refs s)).
    destruct Hs as [Hs|Hs].
    - now rewrite Hs.
    - rewrite Hs, Nat.eqb_refl. apply orb_true_r. }
  split; [|split; [exact Hst|split; [reflexivity|split; [reflexivity|]]]].
  - apply leakInv_stopped; [exact Hm|apply cleanupTotal_none|exact Hst].
  - count_ev. lia.
Qed.

Lemma isLive_in id d (s : State W) :
  In (id, d) (timers (clock s)) -> isLive id s = true.
Proof.
  intros H. apply existsb_exists. exists (id, d). split; [exact H|].
  apply Nat.eqb_refl.
Qed.

(** While the due timers fire one after the other: the computation is
    stopped, or it is in its slot and a live timer is either still to
    come in this batch or not yet due. *)
Lemma abandoned_fireTimers cid T due : forall s,
  mountedTruthy (refs s) = false ->
  cleanupTotal (computationCleanup (refs s)) ->
  (isStopped cid s = true \/
   (computation (refs s) = SlotComp cid /\
    exists id d,
      In (id, d) (timers (clock s)) /\ d <= T /\
      (now (clock s) < d \/ In (id, d) due))) ->
  leakInv cid T (fireTimers due s) /\
  now (clock (fireTimers due s)) = now (clock s) /\
  creations (fireTimers due s) = creations s.
Proof.
  induction due as [|[tid td] due IH]; intros s Hm Hc Hs; cbn.
  - split; [|split; reflexivity].
    split; [exact Hm|split; [exact Hc|]].
    destruct Hs as [Hs|(Hslot & id & d & Hin & Hd & [Hlt|[]])];
      [now left|right].
    split; [exact Hslot|]. exists id, d. auto.
  - destruct (isLive tid s) eqn:Hlive.
    + assert (Hs' : isStopped cid s = true \/
                    computation (refs s) = SlotComp cid)
        by (destruct Hs as [Hs|[Hs _]]; auto).
      destruct (abandoned_expire cid T s tid Hm Hc Hs')
        as ((Hm' & Hc' & _) & Hst & Hnow & _ & Hcr).
      destruct (IH (expire tid s) Hm' Hc' (or_introl Hst))
        as (HI & Hn & Hk).
      split; [exact HI|split; congruence].
    + apply IH; [exact Hm|exact Hc|].
      destruct Hs as [Hs|(Hslot & id & d & Hin & Hd & Hwhen)];
        [now left|right].
      split; [exact Hslot|]. exists id, d.
      split; [exact Hin|split; [exact Hd|]].
      destruct Hwhen as [Hlt|[Heq|Hin']]; auto.
      injection Heq as -> ->.
      rewrite (isLive_in id d s Hin) in Hlive. discriminate.
Qed.

Lemma abandoned_elapse cid T s dt :
  leakInv cid T s ->
  leakInv cid T (elapse dt s) /\
  now (clock (elapse dt s)) = now (clock s) + dt /\
  creations (elapse dt s) = creations s.
Proof.
  intros (Hm & Hc & Hs). unfold elapse.
  set (s1 := with_clock _ s).
  destruct (abandoned_fireTimers cid T
              (filter (isDue (now (clock s) + dt)) (timers (clock s))) s1)
    as (HI & Hn & Hk); [exact Hm|exact Hc| |].
  - destruct Hs as [Hs|(Hslot & id & d & Hin & Hlt & Hd)]; [now left|right].
    split; [exact Hslot|]. exists id, d.
    split; [exact Hin|split; [exact Hd|]].
    destruct (Nat.ltb_spec (now (clock s) + dt) d) as [Hl|Hl].
    + left. exact Hl.
    + right. apply filter_In. split; [exact Hin|].
      unfold isDue; cbn. now apply Nat.leb_le.
  - split; [exact HI|split; [exact Hn|exact Hk]].
Qed.

Lemma abandoned_unmount cid T s :
  leakInv cid T s ->
  leakInv cid T (unmount s) /\
  clock (unmount s) = clock s /\
  creations (unmount s) = creations s.
Proof.
  intros H. unfold unmount.
  destruct (phase (host s)); try (now split; [exact H|split]).
  destruct (abandoned_dispose cid T s H)
    as (s' & Hd & HI & _ & Hck & _ & Hcr & _).
  unfold exec. rewrite Hd. cbn.
  split; [exact HI|split; [exact Hck|exact Hcr]].
Qed.

Lemma abandoned_step cid T s ev :
  leakInv cid T s ->
  isAbandoning ev = true ->
  leakInv cid T (step env s ev) /\
  now (clock (step env s ev)) =
    now (clock s) + elapsed [ev] /\
  creations (step env s ev) = creations s.
Proof.
  intros H Hev. destruct ev as [p| |k|dt| |f]; try discriminate; cbn.
  - destruct (abandoned_pulse cid T s k H) as (HI & Hck & Hcr).
    rewrite Hck. split; [exact HI|split; [lia|exact Hcr]].
  - destruct (abandoned_elapse cid T s dt H) as (HI & Hn & Hcr).
    split; [exact HI|split; [lia|exact Hcr]].
  - destruct (abandoned_unmount cid T s H) as (HI & Hck & Hcr).
    rewrite Hck. split; [exact HI|split; [lia|exact Hcr]].
  - split; [|split; [lia|reflexivity]].
    destruct H as (Hm & Hc & Hs). split; [exact Hm|split; [exact Hc|]].
    exact Hs.
Qed.

Lemma abandoned_run cid T es : forall s,
  leakInv cid T s ->
  abandoned es = true ->
  leakInv cid T (run env es s) /\
  now (clock (run env es s)) = now (clock s) + elapsed es /\
  creations (run env es s) = creations s.
Proof.
  induction es as [|ev es IH]; intros s H Hes; cbn.
  - split; [exact H|split; [lia|reflexivity]].
  - cbn in Hes. apply andb_prop in Hes as [Hev Hes].
    destruct (abandoned_step cid T s ev H Hev) as (HI & Hn & Hcr).
    destruct (IH (step env s ev) HI Hes) as (HI' & Hn' & Hcr').
    split; [exact HI'|split].
    + unfold run in Hn'. rewrite Hn', Hn. unfold elapsed. cbn.
      destruct ev; lia.
    + unfold run in Hcr'. now rewrite Hcr'.
Qed.

(** C4. Leak-guard bound: a render pass that creates a computation
    while the instance is not yet mounted schedules a timer of 50 time
    units; if the runtime then never renders again and never commits,
    the computation is stopped once those 50 units have passed, and no
    computation is created any more. *)
Theorem leak_guard_bound p s w1 r w2 a es :
  isServer env = false ->
  depsChanged (memoDeps (host s)) (deps p) = true ->
  mountedTruthy (refs s) = false ->
  cleanupOutcome (computationCleanup (refs s)) (world s) = (Ok tt, w1) ->
  applyHandler (computationHandler p)
    (ArgComp (nextComp (engine s)) true) w1 = (Ok r, w2) ->
  goodRet r ->
  firstAnswer p (ArgComp (nextComp (engine s)) true) w2
    (isMounted (refs s)) a ->
  abandoned es = true ->
  exists v s',
    exported env p s = (Ok v, s') /\
    computation (refs s') = SlotComp (nextComp (engine s)) /\
    disposeId (refs s') = Some (nextTimer (clock s)) /\
    timers (clock s') =
      timers (clock s)
      ++ [(nextTimer (clock s), now (clock s) + guardDelay)] /\
    In (EvSetTimeout (nextTimer (clock s)) 50) (trace s') /\
    creations s' = creations s + 1 /\
    (guardDelay <= elapsed es ->
     isStopped (nextComp (engine s)) (run env es s') = true) /\
    creations (run env es s') = creations s'.
Proof.
  intros Hs Hch Hm Hc Hh Hr Ha Hes.
  assert (Hh' : applyHandler (computationHandler p)
                  (firstArg env (nextComp (engine s))) w1 = (Ok r, w2))
    by (unfold firstArg; now rewrite Hs).
  assert (Ha' : firstAnswer p (firstArg env (nextComp (engine s))) w2
                  (isMounted (refs s)) a)
    by (unfold firstArg; now rewrite Hs).
  rewrite (exported_recreate p s w1 r w2 a Hch Hc Hh' Ha').
  set (s' := effectRegistered p
               (memoized p (recreated env p w1 r w2 a (warned env p s)))).
  assert (Hfacts :
    computation (refs s') = SlotComp (nextComp (engine s)) /\
    disposeId (refs s') = Some (nextTimer (clock s)) /\
    timers (clock s') =
      timers (clock s)
      ++ [(nextTimer (clock s), now (clock s) + guardDelay)] /\
    now (clock s') = now (clock s) /\
    mountedTruthy (refs s') = false /\
    computationCleanup (refs s') = storedCleanup r None /\
    In (EvSetTimeout (nextTimer (clock s)) 50) (trace s') /\
    creations s' = creations s + 1).
  { subst s'. unfold recreated, guardedIfUnmounted, firstRan, effectRegistered.
    rewrite Hs. unfold mountedTruthy in *.
    destruct s as [[m d cl slot tid data] w [nc cs st] ck [tk md pe ph] tr].
    cbn in *.
    destruct a as [[v w3]|], m as [[|]|]; cbn in *;
      try contradiction; try discriminate;
      destruct ph; cbn; repeat split;
      try (rewrite !logs_app; apply in_or_app; right; now left);
      try (count_ev; lia);
      destruct r; reflexivity. }
  destruct Hfacts as (Hslot & Hid & Htm & Hnow & Hmt & Hcl & Hin & Hcr).
  assert (HI : leakInv (nextComp (engine s))
                 (now (clock s) + guardDelay) s').
  { split; [exact Hmt|split].
    - rewrite Hcl. destruct r as [|c]; [apply cleanupTotal_none|exact Hr].
    - right. split; [exact Hslot|].
      exists (nextTimer (clock s)), (now (clock s) + guardDelay).
      split; [rewrite Htm; apply in_or_app; right; now left|].
      rewrite Hnow. unfold guardDelay. lia. }
  destruct (abandoned_run _ _ es s' HI Hes) as (HI' & Hn' & Hcr').
  eexists. exists s'. split; [reflexivity|].
  split; [exact Hslot|split; [exact Hid|split; [exact Htm|]]].
  split; [exact Hin|split; [exact Hcr|]].
  split; [|exact Hcr'].
  intros Hel. destruct HI' as (_ & _ & [Hst|(_ & id & d & _ & Hlt & Hd)]).
  - exact Hst.
  - rewrite Hn', Hnow in Hlt. lia.
Qed.

(** ** A whole life: what is left after unmount *)

Lemma lifeInv_view s s' : view s' = view s -> lifeInv s -> lifeInv s'.
Proof.
  unfold view. intros H. injection H as Hc Hst Hsl Hcl Hp Hph Hm.
  unfold lifeInv, accounted, isStopped.
  now rewrite Hc, Hst, Hsl, Hcl, Hp, Hph, Hm.
Qed.

Lemma allStopped_disposed s w' :
  accounted s -> allStopped (disposed w' s).
Proof.
  intros H cid p Hin. rewrite isStopped_disposed.
  destruct (H cid p Hin) as [Hs|Hs]; rewrite Hs; [reflexivity|].
  rewrite Nat.eqb_refl. apply orb_true_r.
Qed.

Lemma allStopped_accounted s : allStopped s -> accounted s.
Proof. intros H cid p Hin. left. now apply (H cid p). Qed.

Lemma accounted_empty_slot s :
  accounted s -> slotTruthy (computation (refs s)) = false -> allStopped s.
Proof.
  intros H Hs cid p Hin. destruct (H cid p Hin) as [|E]; [assumption|].
  rewrite E in Hs. discriminate.
Qed.

Lemma lifeInv_disposed s w' : lifeInv s -> lifeInv (disposed w' s).
Proof.
  intros (HA & HB & HC & HD & HE).
  split; [apply allStopped_accounted, allStopped_disposed, HA|].
  split; [apply cleanupTotal_none|].
  split; [exact HC|split; [exact HD|exact HE]].
Qed.

(** A state built on one where every known computation is stopped:
    nothing new is registered, whatever sits in the slot. *)
Lemma lifeInv_settled s0 s' :
  allStopped s0 -> lifeInv s0 ->
  comps (engine s') = comps (engine s0) ->
  stopped (engine s') = stopped (engine s0) ->
  cleanupTotal (computationCleanup (refs s')) ->
  pendingEffect (host s') = pendingEffect (host s0) ->
  phase (host s') = phase (host s0) ->
  (mountedTruthy (refs s0) = true -> mountedTruthy (refs s') = true) ->
  lifeInv s'.
Proof.
  intros Hall (HA & HB & HC & HD & HE) Hc Hst Hcl Hp Hph Hm.
  unfold lifeInv, accounted, allStopped, isStopped in *.
  rewrite Hc, Hst, Hp, Hph.
  split; [intros cid p Hin; left; now apply (Hall cid p)|].
  split; [exact Hcl|]. split; [exact HC|]. split; [exact HD|].
  intros H. apply Hm, HE, H.
Qed.

(** The same with one computation more, which sits in the slot. *)
Lemma lifeInv_installed s0 s' n p :
  allStopped s0 -> lifeInv s0 -> wellBehaved p ->
  comps (engine s') = comps (engine s0) ++ [(n, p)] ->
  stopped (engine s') = stopped (engine s0) ->
  computation (refs s') = SlotComp n ->
  cleanupTotal (computationCleanup (refs s')) ->
  pendingEffect (host s') = pendingEffect (host s0) ->
  phase (host s') = phase (host s0) ->
  (mountedTruthy (refs s0) = true -> mountedTruthy (refs s') = true) ->
  lifeInv s'.
Proof.
  intros Hall (HA & HB & HC & HD & HE) Hwb Hc Hst Hsl Hcl Hp Hph Hm.
  unfold lifeInv, accounted, allStopped, isStopped in *.
  rewrite Hc, Hst, Hp, Hph, Hsl.
  split.
  { intros cid q Hin. apply in_app_or in Hin as [Hin|[Heq|[]]].
    - left. now apply (Hall cid q).
    - injection Heq as <- <-. now right. }
  split; [exact Hcl|].
  split.
  { intros cid q Hin. apply in_app_or in Hin as [Hin|[Heq|[]]].
    - now apply (HC cid q).
    - now injection Heq as <- <-. }
  split; [exact HD|].
  intros H. apply Hm, HE, H.
Qed.

Lemma cleanupTotal_stored r (old : option (Cleanup W)) :
  goodRet r -> cleanupTotal old -> cleanupTotal (storedCleanup r old).
Proof. destruct r; cbn; auto. Qed.

Lemma lifeInv_effectRegistered p s :
  wellBehaved p -> lifeInv s -> lifeInv (effectRegistered p s).
Proof.
  intros Hp H. unfold effectRegistered.
  destruct (phase (host s)) eqn:Eph; [|exact H|exact H].
  destruct H as (HA & HB & HC & HD & HE).
  split; [exact HA|]. split; [exact HB|]. split; [exact HC|].
  split; [|discriminate].
  cbn. intros q Hq. now injection Hq as <-.
Qed.

Lemma lifeInv_recreated p s w1 r w2 a :
  lifeInv s -> wellBehaved p -> goodRet r ->
  lifeInv (recreated env p w1 r w2 a s).
Proof.
  intros H Hp Hr.
  pose proof (lifeInv_disposed s w1 H) as Hd.
  pose proof (allStopped_disposed s w1 (proj1 H)) as Hall.
  pose proof (cleanupTotal_stored r None Hr cleanupTotal_none) as Hcl.
  unfold recreated, guardedIfUnmounted, firstRan.
  destruct (isServer env).
  - apply (lifeInv_settled (disposed w1 s)); try assumption;
      destruct a as [[v w3]|]; try reflexivity; try exact Hcl.
    + unfold mountedTruthy; cbn.
      now destruct (isMounted (refs s)) as [[|]|].
    + auto.
  - match goal with
    | |- lifeInv (if ?b then ?x else guarded ?x) =>
        cut (lifeInv x);
        [intros Hx; destruct b; [exact Hx|];
         apply (lifeInv_view x); [reflexivity|exact Hx]|]
    end.
    apply (lifeInv_installed (disposed w1 s) _ (nextComp (engine s)) p);
      try assumption; destruct a as [[v w3]|]; try reflexivity;
      try exact Hcl.
    + unfold mountedTruthy; cbn.
      now destruct (isMounted (refs s)) as [[|]|].
    + auto.
Qed.

Lemma lifeInv_warned p s : lifeInv s -> lifeInv (warned env p s).
Proof. apply lifeInv_view. reflexivity. Qed.

Lemma lifeInv_render p s :
  wellBehaved p -> lifeInv s -> lifeInv (render env p s).
Proof.
  intros Hp H.
  assert (Hx : lifeInv (exec (exported env p) s)).
  { unfold exec.
    destruct (depsChanged (memoDeps (host s)) (deps p)) eqn:Hch.
    - pose proof H as (_ & HB & _).
      destruct (HB (world s)) as [w1 Hw1].
      destruct Hp as [Hf Hh].
      destruct (Hh (firstArg env (nextComp (engine s))) w1)
        as (r & w2 & Hr & Hgood).
      assert (Ha : exists a,
                 firstAnswer p (firstArg env (nextComp (engine s))) w2
                   (isMounted (refs s)) a).
      { destruct (Hf (firstArg env (nextComp (engine s))) w2)
          as (v & w3 & Hv).
        destruct (isMounted (refs s)) as [[|]|];
          [exists (Some (v, w3))|exists None|exists (Some (v, w3))];
          cbn; auto. }
      destruct Ha as [a Ha].
      rewrite (exported_recreate p s w1 r w2 a Hch Hw1 Hr Ha). cbn.
      apply lifeInv_effectRegistered; [split; assumption|].
      apply (lifeInv_view (recreated env p w1 r w2 a (warned env p s)));
        [reflexivity|].
      apply lifeInv_recreated;
        [now apply lifeInv_warned|split; assumption|exact Hgood].
    - rewrite (exported_keep p s Hch). cbn.
      apply lifeInv_effectRegistered; [exact Hp|].
      now apply lifeInv_warned. }
  unfold render. now destruct (phase (host s)).
Qed.

Lemma lifeInv_replay p s :
  wellBehaved p -> lifeInv s -> lifeInv (exec (replayDeferred env p) s).
Proof.
  intros [Hf _] H. unfold exec.
  destruct (deferredTruthy (refs s)) eqn:Hd.
  - destruct (Hf (slotArg (computation (refs s))) (world s))
      as (v & w' & Hv).
    rewrite (replayDeferred_ok p s v w' Hd Hv). cbn.
    revert H. apply lifeInv_view. reflexivity.
  - now rewrite (replayDeferred_idle p s Hd).
Qed.

Lemma lifeInv_effect p s :
  wellBehaved p -> lifeInv s ->
  lifeInv (exec (effectCallback env p) s) /\
  mountedTruthy (refs (exec (effectCallback env p) s)) = true.
Proof.
  intros Hp H.
  assert (Hu : lifeInv (unguarded s)).
  { destruct H as (HA & HB & HC & HD & HE).
    split; [exact HA|]. split; [exact HB|]. split; [exact HC|].
    split; [exact HD|]. reflexivity. }
  assert (Hkeep : forall s0,
            mountedTruthy (refs s0) = true ->
            mountedTruthy (refs (exec (replayDeferred env p) s0)) = true).
  { intros s0 Hm. unfold exec.
    destruct (deferredTruthy (refs s0)) eqn:Hd.
    - destruct Hp as [Hf _].
      destruct (Hf (slotArg (computation (refs s0))) (world s0))
        as (v & w' & Hv).
      now rewrite (replayDeferred_ok p s0 v w' Hd Hv).
    - now rewrite (replayDeferred_idle p s0 Hd). }
  unfold exec in *. destruct (isServer env) eqn:Hs.
  - rewrite (effectCallback_server p s Hs). cbn. split; [|reflexivity].
    destruct H as (HA & HB & HC & HD & HE).
    split; [exact HA|]. split; [exact HB|]. split; [exact HC|].
    split; [exact HD|]. reflexivity.
  - rewrite (effectCallback_client p s Hs).
    destruct (slotTruthy (computation (refs s))) eqn:Hslot.
    + rewrite (bind_ok _ _ _ _ _
                 (restartComputation_held p (unguarded s) Hslot)).
      split; [now apply lifeInv_replay|now apply Hkeep].
    + pose proof (accounted_empty_slot _ (proj1 Hu) Hslot) as Hall.
      destruct (isArray (deps p)) eqn:Hd.
      * pose proof Hp as [Hf Hh].
        destruct (Hh (ArgComp (nextComp (engine s)) true) (world s))
          as (r & w1 & Hr & Hgood).
        destruct (Hf (ArgComp (nextComp (engine s)) true) w1)
          as (v1 & w2 & Hv1).
        pose proof (createComputation_run p (unguarded s) (Ok tt) _
                      (firstRun_fresh p _ (registered p (unguarded s))
                         r w1 v1 w2 Hr ltac:(discriminate) Hv1)) as Hc.
        rewrite (bind_ok _ _ _ _ _
                   (restartComputation_array p (unguarded s) _ _
                      Hslot Hd Hc)).
        split; [apply lifeInv_replay; [exact Hp|]|now apply Hkeep].
        apply (lifeInv_installed (unguarded s) _ (nextComp (engine s)) p);
          try assumption; try reflexivity.
        cbn. apply cleanupTotal_stored; [exact Hgood|apply H].
      * rewrite (bind_ok _ _ _ _ _
                   (restartComputation_not_array p (unguarded s) Hslot Hd)).
        split; [apply lifeInv_replay; [exact Hp|]|now apply Hkeep].
        revert Hu. apply lifeInv_view. reflexivity.
Qed.

Lemma lifeInv_commit s : lifeInv s -> lifeInv (commit env s).
Proof.
  intros H. unfold commit.
  destruct (phase (host s)) eqn:Eph; try exact H.
  destruct (pendingEffect (host s)) as [p|] eqn:Ep; try exact H.
  pose proof H as (_ & _ & _ & HD & _).
  destruct (lifeInv_effect p s (HD p Ep) H) as [(HA & HB & HC & HD' & HE) Hm].
  split; [exact HA|]. split; [exact HB|]. split; [exact HC|].
  split; [exact HD'|]. intros _. exact Hm.
Qed.

Lemma lifeInv_pulse s k : lifeInv s -> lifeInv (pulse env k s).
Proof.
  intros H. unfold pulse.
  destruct (lookupComp k (comps (engine s))) as [q|] eqn:El; [|exact H].
  pose proof H as (HA & HB & HC & HD & HE).
  pose proof (HC k q (lookupComp_some _ _ _ El)) as [Hf Hh].
  unfold exec. rewrite tracked_again.
  destruct (isArray (deps q)) eqn:Hq.
  - destruct (mountedTruthy (refs s)) eqn:Hm.
    + destruct (Hf (ArgComp k false) (world s)) as (v & w' & Hv).
      rewrite (rerun_mounted q _ s v w' Hq Hm Hv). cbn.
      revert H. apply lifeInv_view. reflexivity.
    + rewrite (rerun_deferred q _ s Hq Hm). cbn.
      revert H. apply lifeInv_view. reflexivity.
  - destruct (HB (world s)) as [w' Hw].
    rewrite (rerun_not_array q _ s w' Hq Hw). cbn.
    apply (lifeInv_view (disposed w' s)); [reflexivity|].
    now apply lifeInv_disposed.
Qed.

Lemma lifeInv_expire s id : lifeInv s -> lifeInv (expire id s).
Proof.
  intros H. unfold expire, exec. rewrite timeoutCallback_eq. cbn.
  destruct (mountedTruthy (refs s)) eqn:Hm.
  - cbn. revert H. apply lifeInv_view. unfold view; cbn. now rewrite Hm.
  - pose proof H as (_ & HB & _).
    destruct (HB (world s)) as [w' Hw].
    rewrite (dispose_ok _ w') by exact Hw. cbn.
    apply (lifeInv_view (disposed w' s)); [reflexivity|].
    now apply lifeInv_disposed.
Qed.

Lemma lifeInv_fireTimers due : forall s,
  lifeInv s -> lifeInv (fireTimers due s).
Proof.
  induction due as [|t due IH]; intros s H; cbn; [exact H|].
  apply IH. destruct (isLive (fst t) s); [now apply lifeInv_expire|exact H].
Qed.

Lemma lifeInv_step s ev :
  match ev with Render p => wellBehaved p | _ => True end ->
  lifeInv s -> lifeInv (step env s ev).
Proof.
  intros Hev H. destruct ev as [p| |k|dt| |f]; cbn.
  - now apply lifeInv_render.
  - now apply lifeInv_commit.
  - now apply lifeInv_pulse.
  - unfold elapse. apply lifeInv_fireTimers.
    revert H. apply lifeInv_view. reflexivity.
  - unfold unmount. destruct (phase (host s)) eqn:Eph.
    + destruct H as (HA & HB & HC & HD & HE).
      split; [exact HA|]. split; [exact HB|]. split; [exact HC|].
      split; [exact HD|]. discriminate.
    + pose proof H as (_ & HB & _).
      destruct (HB (world s)) as [w' Hw].
      unfold exec. rewrite (dispose_ok _ w') by exact Hw. cbn.
      destruct (lifeInv_disposed s w' H) as (HA & HB' & HC & HD & HE).
      split; [exact HA|]. split; [exact HB'|]. split; [exact HC|].
      split; [exact HD|]. discriminate.
    + destruct H as (HA & HB & HC & HD & HE).
      split; [exact HA|]. split; [exact HB|]. split; [exact HC|].
      split; [exact HD|]. discriminate.
  - revert H. apply lifeInv_view. reflexivity.
Qed.

Lemma lifeInv_run es : forall s,
  rendersWell es -> lifeInv s -> lifeInv (run env es s).
Proof.
  induction es as [|ev es IH]; intros s Hes H; cbn; [exact H|].
  inversion Hes as [|? ? Hev Hes']; subst.
  apply IH; [exact Hes'|]. now apply lifeInv_step.
Qed.

Lemma lifeInv_init (w : W) : lifeInv (initState w).
Proof.
  split; [intros cid p []|]. split; [apply cleanupTotal_none|].
  split; [intros cid p []|]. split; discriminate.
Qed.

Lemma quiet_unmount s :
  lifeInv s -> phase (host s) = Mounted -> quiet (unmount s).
Proof.
  intros H Hph. pose proof H as (HA & HB & _ & _ & HE).
  unfold unmount. rewrite Hph.
  destruct (HB (world s)) as [w' Hw].
  unfold exec. rewrite (dispose_ok _ w') by exact Hw. cbn.
  split; [reflexivity|]. split; [exact (HE Hph)|].
  exact (allStopped_disposed s w' HA).
Qed.

Lemma quiet_expire s id :
  quiet s ->
  quiet (expire id s) /\ forceUpdates (expire id s) = forceUpdates s.
Proof.
  intros (Hph & Hm & Hall). unfold expire, exec.
  rewrite timeoutCallback_eq. cbn. rewrite Hm. cbn.
  split; [|reflexivity]. split; [exact Hph|split; [exact Hm|exact Hall]].
Qed.

Lemma quiet_fireTimers due : forall s,
  quiet s ->
  quiet (fireTimers due s) /\
  forceUpdates (fireTimers due s) = forceUpdates s.
Proof.
  induction due as [|t due IH]; intros s H; cbn; [now split|].
  destruct (isLive (fst t) s).
  - destruct (quiet_expire s (fst t) H) as [Hq Hf].
    destruct (IH _ Hq) as [Hq' Hf']. split; [exact Hq'|congruence].
  - now apply IH.
Qed.

Lemma lookupComp_none_or_in k (l : list (nat * Props W)) :
  lookupComp k l = None \/ exists p, lookupComp k l = Some p /\ In (k, p) l.
Proof.
  destruct (lookupComp k l) as [p|] eqn:E; [right|now left].
  exists p. split; [reflexivity|now apply lookupComp_some].
Qed.

Lemma quiet_step s ev :
  quiet s -> honoursStop s ev = true ->
  quiet (step env s ev) /\ forceUpdates (step env s ev) = forceUpdates s.
Proof.
  intros H Hev. pose proof H as (Hph & Hm & Hall).
  destruct ev as [p| |k|dt| |f]; cbn.
  - unfold render. rewrite Hph. now split.
  - unfold commit. rewrite Hph. now split.
  - unfold pulse.
    destruct (lookupComp_none_or_in k (comps (engine s)))
      as [E|(q & E & Hin)]; rewrite E; [now split|].
    cbn in Hev. rewrite (Hall k q Hin) in Hev. discriminate.
  - unfold elapse.
    match goal with
    | |- context [fireTimers ?due ?s1] =>
        destruct (quiet_fireTimers due s1) as [Hq Hf];
        [split; [exact Hph|split; [exact Hm|exact Hall]]|]
    end.
    split; [exact Hq|exact Hf].
  - unfold unmount. rewrite Hph. cbn. split; [|reflexivity].
    split; [reflexivity|split; [exact Hm|exact Hall]].
  - split; [|reflexivity].
    split; [exact Hph|split; [exact Hm|exact Hall]].
Qed.

Lemma quiet_run es : forall s,
  quiet s -> runHonouring env es s = true ->
  forceUpdates (run env es s) = forceUpdates s.
Proof.
  induction es as [|ev es IH]; intros s H Hes; cbn; [reflexivity|].
  cbn in Hes. apply andb_prop in Hes as [Hev Hes].
  destruct (quiet_step s ev H Hev) as [Hq Hf].
  unfold run in IH. now rewrite (IH _ Hq Hes).
Qed.

(** C3, as the code has it.  After the unmount disposer has run, no
    re-render is requested for as long as the engine delivers no
    invalidation to a stopped computation; the user code is assumed to
    return normally.  (There is no check of its own: [isMounted] stays
    true after unmount, see the counterexample.) *)
Theorem no_update_after_unmount (w : W) history later :
  rendersWell history ->
  phase (host (run env history (initState w))) = Mounted ->
  runHonouring env later (unmount (run env history (initState w))) = true ->
  forceUpdates (run env later (unmount (run env history (initState w)))) =
  forceUpdates (unmount (run env history (initState w))).
Proof.
  intros Hh Hph Hl. apply quiet_run; [|exact Hl].
  apply quiet_unmount; [|exact Hph].
  apply lifeInv_run; [exact Hh|apply lifeInv_init].
Qed.

(** ** The leak-guard timer is cancelled by the effect only *)

Lemma timerFrame_refl s : timerFrame s s.
Proof. now repeat split. Qed.

Lemma timerFrame_trans s1 s2 s3 :
  timerFrame s1 s2 -> timerFrame s2 s3 -> timerFrame s1 s3.
Proof.
  intros (A1 & B1 & C1) (A2 & B2 & C2).
  repeat split; congruence.
Qed.

Lemma untouched_bind {A B} (m : M W A) (k : A -> M W B) :
  untouched m -> (forall a, untouched (k a)) -> untouched (bind m k).
Proof.
  intros Hm Hk s. unfold bind. specialize (Hm s).
  destruct (m s) as [[a|e] s1]; cbn in *; [|exact Hm].
  exact (timerFrame_trans _ _ _ Hm (Hk a s1)).
Qed.

Lemma untouched_ret {A} (a : A) : untouched (W := W) (ret a).
Proof. intros s. apply timerFrame_refl. Qed.

Lemma untouched_throw {A} e : untouched (W := W) (A := A) (throw e).
Proof. intros s. apply timerFrame_refl. Qed.

Lemma untouched_getRefs : untouched (W := W) getRefs.
Proof. intros s. apply timerFrame_refl. Qed.

Lemma untouched_when b (m : M W unit) : untouched m -> untouched (when b m).
Proof. destruct b; [auto|intros _; apply untouched_ret]. Qed.

Lemma untouched_emit ev :
  isClearTimeout ev = false -> untouched (W := W) (emit ev).
Proof.
  intros H s. repeat split. cbn.
  rewrite countEv_app, countEv_cons, countEv_nil, H. lia.
Qed.

Lemma untouched_modifyRefs (f : Refs W -> Refs W) :
  (forall r, disposeId (f r) = disposeId r) -> untouched (modifyRefs f).
Proof. intros H s. repeat split. apply H. Qed.

Lemma untouched_onWorld {B} (f : W -> Outcome B * W) : untouched (onWorld f).
Proof.
  intros s. unfold onWorld. destruct (f (world s)). now repeat split.
Qed.

Lemma untouched_stop cid : untouched (W := W) (stop cid).
Proof.
  intros s. repeat split. cbn.
  rewrite countEv_app, countEv_cons, countEv_nil. cbn. lia.
Qed.

Lemma untouched_forceUpdate : untouched (W := W) forceUpdate.
Proof.
  intros s. repeat split. cbn.
  rewrite countEv_app, countEv_cons, countEv_nil. cbn. lia.
Qed.

Ltac untouched_step :=
  first
    [ apply untouched_bind; [|intros ?]
    | apply untouched_ret
    | apply untouched_throw
    | apply untouched_getRefs
    | apply untouched_when
    | apply untouched_emit; reflexivity
    | apply untouched_modifyRefs; reflexivity
    | apply untouched_onWorld
    | apply untouched_stop
    | apply untouched_forceUpdate
    | match goal with
      | |- untouched (match ?x with _ => _ end) => destruct x
      end ].

Lemma untouched_dispose : untouched (W := W) dispose.
Proof. unfold dispose, callCleanup. repeat untouched_step. Qed.

Lemma untouched_call {A B} ev (f : Callable W A B) a :
  isClearTimeout ev = false -> untouched (call ev f a).
Proof.
  intros H. unfold call. apply untouched_bind.
  - apply untouched_when. now apply untouched_emit.
  - intros _. apply untouched_onWorld.
Qed.

Lemma untouched_runReactiveFn p c : untouched (runReactiveFn env p c).
Proof.
  unfold runReactiveFn, checkCursor.
  repeat first [apply untouched_call; reflexivity | untouched_step].
Qed.

Lemma untouched_firstRun p c : untouched (firstRun env p c).
Proof.
  unfold firstRun, attachHandler, storeCleanup.
  repeat first [apply untouched_runReactiveFn
               | apply untouched_call; reflexivity | untouched_step].
Qed.

Lemma untouched_rerun p c : untouched (rerun env p c).
Proof.
  unfold rerun.
  repeat first [apply untouched_runReactiveFn | apply untouched_dispose
               | untouched_step].
Qed.

Lemma untouched_tracked p c : untouched (tracked env p c).
Proof.
  destruct c as [| |cid [|]]; cbn;
    [apply untouched_firstRun|apply untouched_throw
    |apply untouched_firstRun|apply untouched_rerun].
Qed.

Lemma untouched_createComputation p : untouched (createComputation env p).
Proof.
  intros s. unfold createComputation, nonreactive, autorun.
  pose proof (untouched_tracked p (ArgComp (nextComp (engine s)) true)
                (registered p s)) as H.
  change (with_engine _ (log _ s)) with (registered p s).
  destruct (tracked env p _ (registered p s)) as [[u|e] s2]; cbn in *;
    (eapply timerFrame_trans; [|exact H]);
    repeat split; cbn;
    rewrite logs_app, countEv_app, countEv_cons, countEv_nil; cbn; lia.
Qed.

Lemma untouched_restartComputation p :
  untouched (restartComputation env p).
Proof.
  unfold restartComputation.
  repeat first [apply untouched_createComputation | untouched_step].
Qed.

Lemma untouched_replayDeferred p : untouched (replayDeferred env p).
Proof.
  unfold replayDeferred.
  repeat first [apply untouched_runReactiveFn | untouched_step].
Qed.

(** The render pass cancels nothing either. *)
Lemma cancelsNothing_after s s1 s2 :
  timerFrame s s1 -> cancelsNothing s1 s2 -> cancelsNothing s s2.
Proof.
  intros H1 [H2|(Hn & Hx & Ht & Hd & Hc)].
  - left. exact (timerFrame_trans _ _ _ H1 H2).
  - destruct H1 as (Hck & _ & Hc1). right.
    rewrite Hck in Hn, Hx, Ht, Hd. repeat split; congruence.
Qed.

Lemma cancelsNothing_count s s' :
  cancelsNothing s s' ->
  countEv isClearTimeout (trace s') = countEv isClearTimeout (trace s).
Proof. intros [(_ & _ & H)|(_ & _ & _ & _ & H)]; exact H. Qed.

Lemma cancelsNothing_incl s s' :
  cancelsNothing s s' -> incl (timers (clock s)) (timers (clock s')).
Proof.
  intros [(H & _)|(_ & _ & H & _)]; rewrite H.
  - apply incl_refl.
  - apply incl_appl, incl_refl.
Qed.

Lemma memoCallback_cancels_nothing p s :
  cancelsNothing s (exec (memoCallback env p) s).
Proof.
  unfold exec, memoCallback, bind at 1.
  pose proof (untouched_dispose s) as Hd.
  destruct (dispose s) as [[u|e] s1]; cbn in Hd |- *; [|now left].
  apply (cancelsNothing_after _ _ _ Hd).
  destruct (isServer env).
  - left.
    apply untouched_bind; [now apply untouched_modifyRefs|intros _].
    apply untouched_tracked.
  - unfold bind at 1. pose proof (untouched_createComputation p s1) as Hc.
    destruct (createComputation env p s1) as [[cid|e] s2]; cbn in Hc |- *;
      [|now left].
    apply (cancelsNothing_after _ _ _ Hc).
    unfold bind, modifyRefs. rewrite scheduleGuard_eq. cbn.
    change (mountedTruthy (set_computation (SlotComp cid) (refs s2)))
      with (mountedTruthy (refs s2)).
    destruct (mountedTruthy (refs s2)); [left; now repeat split|right].
    repeat split. cbn.
    rewrite logs_app, countEv_app, countEv_cons, countEv_nil. cbn. lia.
Qed.

Lemma exported_cancels_nothing p s :
  cancelsNothing s (exec (exported env p) s).
Proof.
  unfold exec. rewrite exported_eq. unfold useTracker, bind at 1.
  assert (Hw : timerFrame s (warned env p s)).
  { repeat split. cbn. rewrite logs_app, countEv_app.
    rewrite count_argWarnings by reflexivity. lia. }
  assert (Hm : cancelsNothing (warned env p s)
                 (snd (useMemo env p (warned env p s)))).
  { unfold useMemo. destruct (depsChanged _ _);
      [|left; apply timerFrame_refl].
    pose proof (memoCallback_cancels_nothing p (warned env p s)) as Hk.
    unfold exec in Hk.
    destruct (memoCallback env p (warned env p s)) as [[u|e] s1];
      cbn in Hk |- *; destruct Hk as [Hk|Hk]; [left|right|left|right];
      exact Hk. }
  destruct (useMemo env p (warned env p s)) as [[u|e] s1]; cbn in Hm |- *;
    [|exact (cancelsNothing_after _ _ _ Hw Hm)].
  unfold bind, useEffect, getRefs, ret. cbn.
  apply (cancelsNothing_after _ _ _ Hw).
  destruct (phase (host s1)); destruct Hm as [Hm|Hm];
    solve [left; exact Hm | right; exact Hm].
Qed.

Lemma untouched_count {A} (m : M W A) s :
  untouched m ->
  countEv isClearTimeout (trace (snd (m s))) =
  countEv isClearTimeout (trace s).
Proof. intros H. apply (H s). Qed.

Lemma fireTimers_no_clear due : forall s,
  countEv isClearTimeout (trace (fireTimers due s)) =
  countEv isClearTimeout (trace s).
Proof.
  induction due as [|t due IH]; intros s; cbn; [reflexivity|].
  rewrite IH. destruct (isLive (fst t) s); [|reflexivity].
  unfold expire, exec. rewrite timeoutCallback_eq. cbn.
  destruct (mountedTruthy (refs s)); [reflexivity|].
  now rewrite (untouched_count _ _ untouched_dispose).
Qed.

Lemma step_no_clear s (ev : Stimulus W) :
  ev <> Commit ->
  countEv isClearTimeout (trace (step env s ev)) =
  countEv isClearTimeout (trace s).
Proof.
  intros Hev. destruct ev as [p| |k|dt| |f]; cbn.
  - unfold render. destruct (phase (host s)); try reflexivity;
      apply cancelsNothing_count, exported_cancels_nothing.
  - now destruct Hev.
  - unfold pulse. destruct (lookupComp k (comps (engine s))) as [q|];
      [|reflexivity].
    apply untouched_count, untouched_tracked.
  - unfold elapse. now rewrite fireTimers_no_clear.
  - unfold unmount. destruct (phase (host s)); try reflexivity.
    apply (untouched_count _ s untouched_dispose).
  - reflexivity.
Qed.

(** C8, as the code has it.  The timer named by the slot is cancelled by
    the post-commit effect and by nothing else: on the client the effect
    calls [clearTimeout] exactly once, on the slot's timer, and empties
    the slot, whatever the user code does afterwards; [dispose] and
    [tracked] cancel no timer and leave the slot alone; a timer that
    expires once [isMounted] is true does nothing.  The render pass
    cancels none either: the [useMemo] callback, and so the whole pass,
    leaves timers and slot alone or adds a fresh timer and names it in
    the slot, every timer that was live staying live; and no stimulus
    but the commit (render, invalidation, passing time, unmount) logs a
    [clearTimeout]. *)
Theorem leak_guard_cancellation s p :
  isServer env = false ->
  timerFrame s (exec dispose s) /\
  (forall q c, timerFrame s (exec (tracked env q c) s)) /\
  timers (clock (exec (effectCallback env p) s)) =
    match disposeId (refs s) with
    | Some id => removeTimer id (timers (clock s))
    | None => timers (clock s)
    end /\
  disposeId (refs (exec (effectCallback env p) s)) = None /\
  countEv isClearTimeout (trace (exec (effectCallback env p) s)) =
    countEv isClearTimeout (trace s) + 1 /\
  (mountedTruthy (refs s) = true -> timeoutCallback s = (Ok tt, s)) /\
  (forall q,
     (timerFrame s (exec (memoCallback env q) s) \/
      guardAdded s (exec (memoCallback env q) s)) /\
     (timerFrame s (exec (exported env q) s) \/
      guardAdded s (exec (exported env q) s)) /\
     incl (timers (clock s)) (timers (clock (exec (exported env q) s))) /\
     countEv isClearTimeout (trace (exec (exported env q) s)) =
       countEv isClearTimeout (trace s)) /\
  (forall ev : Stimulus W,
     ev <> Commit ->
     countEv isClearTimeout (trace (step env s ev)) =
       countEv isClearTimeout (trace s)).
Proof.
  intros Hs.
  split; [apply untouched_dispose|].
  split; [intros q c; apply untouched_tracked|].
  assert (Hf : timerFrame (unguarded s) (exec (effectCallback env p) s)).
  { unfold exec. rewrite (effectCallback_client p s Hs).
    apply untouched_bind;
      [apply untouched_restartComputation
      |intros _; apply untouched_replayDeferred]. }
  destruct Hf as (Hck & Hid & Hn).
  split; [now rewrite Hck|]. split; [now rewrite Hid|].
  split.
  { rewrite Hn. cbn.
    rewrite logs_app, countEv_app, countEv_cons, countEv_nil. cbn. lia. }
  split; [intros Hm; rewrite timeoutCallback_eq; now rewrite Hm|].
  split.
  { intros q.
    split; [exact (memoCallback_cancels_nothing q s)|].
    split; [exact (exported_cancels_nothing q s)|].
    split; [apply cancelsNothing_incl, exported_cancels_nothing|].
    apply cancelsNothing_count, exported_cancels_nothing. }
  intros ev Hev. now apply step_no_clear.
Qed.

(** * Further properties of the hook *)

(** ** Invalidation of a mounted instance *)

(** X1. A later run of [tracked] with array deps on a mounted instance
    recomputes with the computation it was called with, caches the
    value and only then requests one re-render; the engine, the timers
    and the slot are left alone.  If [reactiveFn] throws, the cached
    value stays and no re-render is requested. *)
Theorem invalidation_when_mounted p cid s :
  isArray (deps p) = true ->
  mountedTruthy (refs s) = true ->
  (forall v w',
     applyFn (reactiveFn p) (ArgComp cid false) (world s) = (Ok v, w') ->
     exists s',
       tracked env p (ArgComp cid false) s = (Ok tt, s') /\
       trackerData (refs s') = v /\
       world s' = w' /\
       trace s' =
         trace s ++ EvReactive (ArgComp cid false) :: cursorWarning env v
                 ++ [EvForceUpdate] /\
       tick (host s') = tick (host s) + 1 /\
       engine s' = engine s /\
       clock s' = clock s /\
       computation (refs s') = computation (refs s) /\
       doDeferredRender (refs s') = doDeferredRender (refs s)) /\
  (forall e w',
     applyFn (reactiveFn p) (ArgComp cid false) (world s) = (Throw e, w') ->
     exists s',
       tracked env p (ArgComp cid false) s = (Throw e, s') /\
       trackerData (refs s') = trackerData (refs s) /\
       forceUpdates s' = forceUpdates s /\
       tick (host s') = tick (host s)).
Proof.
  intros Hd Hm. split.
  - intros v w' Hf. eexists. split.
    { rewrite tracked_again. exact (rerun_mounted p _ s v w' Hd Hm Hf). }
    cbn. repeat split.
    rewrite !logs_app, <- app_assoc. reflexivity.
  - intros e w' Hf. eexists. split.
    { rewrite tracked_again. unfold rerun. rewrite Hd. cbn [negb].
      unfold bind at 1. cbn. rewrite Hm.
      now rewrite (bind_throw _ _ _ _ _
                     (runReactiveFn_throw p _ s e w' Hf)). }
    cbn. repeat split.
    count_ev. destruct (callable (reactiveFn p));
      rewrite ?countEv_cons, ?countEv_nil; cbn; lia.
Qed.

(** ** Recreation *)

(** X2. When the deps change on a render pass of a mounted instance (on
    the client), the pass stops the old computation, creates a new one,
    computes with it and returns the fresh value at once: no leak-guard
    timer is scheduled and no re-render is requested. *)
Theorem recreation_when_mounted p s w1 r w2 v w3 :
  isServer env = false ->
  depsChanged (memoDeps (host s)) (deps p) = true ->
  isMounted (refs s) = Some true ->
  cleanupOutcome (computationCleanup (refs s)) (world s) = (Ok tt, w1) ->
  applyHandler (computationHandler p)
    (ArgComp (nextComp (engine s)) true) w1 = (Ok r, w2) ->
  applyFn (reactiveFn p) (ArgComp (nextComp (engine s)) true) w2
    = (Ok v, w3) ->
  exists s',
    exported env p s = (Ok v, s') /\
    trackerData (refs s') = v /\
    world s' = w3 /\
    computation (refs s') = SlotComp (nextComp (engine s)) /\
    computationCleanup (refs s') = storedCleanup r None /\
    isMounted (refs s') = Some true /\
    stopped (engine s') =
      stopped (engine s) ++ stopIds (computation (refs s)) /\
    clock s' = clock s /\
    disposeId (refs s') = disposeId (refs s) /\
    forceUpdates s' = forceUpdates s /\
    creations s' = creations s + 1 /\
    memoDeps (host s') = Some (deps p).
Proof.
  intros Hs Hch Hm Hc Hh Hf.
  assert (Hh' : applyHandler (computationHandler p)
                  (firstArg env (nextComp (engine s))) w1 = (Ok r, w2))
    by (unfold firstArg; now rewrite Hs).
  assert (Ha : firstAnswer p (firstArg env (nextComp (engine s))) w2
                 (isMounted (refs s)) (Some (v, w3)))
    by (unfold firstArg; rewrite Hs, Hm; exact Hf).
  rewrite (exported_recreate p s w1 r w2 _ Hch Hc Hh' Ha).
  unfold recreated, guardedIfUnmounted, firstRan, effectRegistered.
  rewrite Hs. unfold mountedTruthy.
  destruct s as [[m d cl slot tid data] w [nc cs st] ck [tk md pe ph] tr].
  cbn in *. subst m. cbn.
  eexists. split; [reflexivity|].
  destruct ph; cbn; repeat split;
    try (now rewrite logs_app); try (now destruct r); count_ev; lia.
Qed.

Lemma keysEqual_refl ks : keysEqual ks ks = true.
Proof.
  induction ks as [|k ks IH]; [reflexivity|].
  cbn. now rewrite Nat.eqb_refl, IH.
Qed.

(** X3. A render pass whose deps are the array of the previous pass does
    nothing to the instance: it returns the cached value without calling
    [reactiveFn] or the handler (even if they are new closures), and
    leaves refs, data, engine and timers as they were. *)
Theorem same_deps_render_is_inert p s ks :
  memoDeps (host s) = Some (DepsArray ks) ->
  deps p = DepsArray ks ->
  exists s',
    exported env p s = (Ok (trackerData (refs s)), s') /\
    refs s' = refs s /\
    world s' = world s /\
    engine s' = engine s /\
    clock s' = clock s /\
    memoDeps (host s') = memoDeps (host s) /\
    countEv isReactive (trace s') = countEv isReactive (trace s) /\
    countEv isHandler (trace s') = countEv isHandler (trace s) /\
    countEv isStop (trace s') = countEv isStop (trace s) /\
    forceUpdates s' = forceUpdates s /\
    creations s' = creations s.
Proof.
  intros Hm Hd.
  assert (Hch : depsChanged (memoDeps (host s)) (deps p) = false)
    by (rewrite Hm, Hd; cbn; now rewrite keysEqual_refl).
  rewrite (exported_keep p s Hch).
  eexists. split; [reflexivity|].
  unfold effectRegistered. cbn.
  destruct (phase (host s)); cbn; repeat split; count_ev; lia.
Qed.

(** ** The cleanup returned by the handler *)

(** X4. The function returned by the computation handler during a client
    render pass is what the next [dispose] invokes: once, on the data as
    it is then, and before the computation created in that pass is
    stopped. *)
Theorem handler_cleanup_round_trip p s w1 f w2 a w w' :
  isServer env = false ->
  depsChanged (memoDeps (host s)) (deps p) = true ->
  cleanupOutcome (computationCleanup (refs s)) (world s) = (Ok tt, w1) ->
  applyHandler (computationHandler p)
    (ArgComp (nextComp (engine s)) true) w1
    = (Ok (RetCleanup (CleanupFn f)), w2) ->
  firstAnswer p (ArgComp (nextComp (engine s)) true) w2
    (isMounted (refs s)) a ->
  f tt w = (Ok tt, w') ->
  exists v s1 s2,
    exported env p s = (Ok v, s1) /\
    In (EvHandler (ArgComp (nextComp (engine s)) true)) (trace s1) /\
    dispose (with_world w s1) = (Ok tt, s2) /\
    world s2 = w' /\
    trace s2 = trace s1 ++ [EvCleanup; EvStop (nextComp (engine s))] /\
    stopped (engine s2) = stopped (engine s1) ++ [nextComp (engine s)] /\
    computationCleanup (refs s2) = None /\
    computation (refs s2) = SlotNull.
Proof.
  intros Hs Hch Hc Hh Ha Hf.
  assert (Hh' : applyHandler (computationHandler p)
                  (firstArg env (nextComp (engine s))) w1
                = (Ok (RetCleanup (CleanupFn f)), w2))
    by (unfold firstArg; now rewrite Hs).
  assert (Ha' : firstAnswer p (firstArg env (nextComp (engine s))) w2
                  (isMounted (refs s)) a)
    by (unfold firstArg; now rewrite Hs).
  rewrite (exported_recreate p s w1 _ w2 a Hch Hc Hh' Ha').
  set (s1 := effectRegistered p
               (memoized p (recreated env p w1 (RetCleanup (CleanupFn f))
                              w2 a (warned env p s)))).
  assert (Hfacts :
    computationCleanup (refs s1) = Some (CleanupFn f) /\
    computation (refs s1) = SlotComp (nextComp (engine s)) /\
    In (EvHandler (ArgComp (nextComp (engine s)) true)) (trace s1)).
  { subst s1.
    unfold recreated, guardedIfUnmounted, firstRan, effectRegistered.
    rewrite Hs. unfold mountedTruthy.
    assert (Hp : exists h, computationHandler p = Some h).
    { destruct (computationHandler p) as [h|]; [now exists h|].
      cbn in Hh. discriminate. }
    destruct Hp as [h Hp].
    destruct s as [[m d cl slot tid data] w0 [nc cs st] ck [tk md pe ph] tr].
    cbn in *.
    assert (Hev : In (EvHandler (ArgComp nc true))
                    (handlerEvents env p (ArgComp nc true)
                       (RetCleanup (CleanupFn f))))
      by (unfold handlerEvents; rewrite Hp; now left).
    destruct a as [[v w3]|], m as [[|]|]; cbn in *;
      try contradiction; destruct ph; cbn; repeat split;
      rewrite !logs_app, !in_app_iff; tauto. }
  destruct Hfacts as (Hcl & Hslot & Hin).
  exists (trackerData
            (refs (recreated env p w1 (RetCleanup (CleanupFn f)) w2 a
                     (warned env p s)))), s1.
  exists (disposed w' (with_world w s1)).
  split; [reflexivity|]. split; [exact Hin|].
  split.
  { apply dispose_ok. cbn. fold s1. rewrite Hcl. exact Hf. }
  cbn. fold s1. rewrite Hcl, Hslot. cbn.
  repeat split. now rewrite logs_app.
Qed.

(** X5. A truthy handler result that is not a function is stored like a
    cleanup; from then on [dispose] throws a TypeError before it reaches
    [stop] and changes nothing, so however often it is called the
    computation stays in its slot, and every render pass that has to
    recreate, every non-array invalidation and every leak-guard expiry
    fails the same way. *)
Theorem non_function_cleanup_blocks_disposal s :
  computationCleanup (refs s) = Some CleanupNotFunction ->
  dispose s = (Throw TypeError, s) /\
  (forall n, Nat.iter n (exec dispose) s = s) /\
  (forall p, memoCallback env p s = (Throw TypeError, s)) /\
  (forall p,
     depsChanged (memoDeps (host s)) (deps p) = true ->
     fst (exported env p s) = Throw TypeError /\
     refs (snd (exported env p s)) = refs s /\
     engine (snd (exported env p s)) = engine s) /\
  (forall p cid,
     isArray (deps p) = false ->
     tracked env p (ArgComp cid false) s = (Throw TypeError, s)) /\
  (mountedTruthy (refs s) = false ->
   timeoutCallback s = (Throw TypeError, s)).
Proof.
  intros Hc.
  assert (Hd : forall s0,
            computationCleanup (refs s0) = Some CleanupNotFunction ->
            dispose s0 = (Throw TypeError, s0)).
  { intros s0 H0.
    rewrite (dispose_throw s0 CleanupNotFunction TypeError (world s0) H0
               eq_refl).
    unfold cleanupFailed. rewrite H0.
    now destruct s0 as [r0 w0 g0 ck0 h0 tr0]. }
  split; [now apply Hd|].
  split.
  { induction n as [|n IH]; [reflexivity|].
    rewrite Nat.iter_succ, IH. unfold exec. now rewrite (Hd s Hc). }
  split; [intros p; now apply memoCallback_dispose_throw, Hd|].
  split.
  { intros p Hch. rewrite exported_eq.
    rewrite (useTracker_throw p (warned env p s) TypeError (warned env p s)).
    - now repeat split.
    - apply useMemo_throw; [exact Hch|].
      apply memoCallback_dispose_throw. now apply Hd. }
  split.
  { intros p cid Hp. rewrite tracked_again. unfold rerun.
    rewrite Hp. cbn [negb]. now rewrite (bind_throw _ _ _ _ _ (Hd s Hc)). }
  intros Hm. rewrite timeoutCallback_eq, Hm. now apply Hd.
Qed.

Lemma firstRun_reactive_throw p c s r w1 e w2 :
  applyHandler (computationHandler p) c (world s) = (Ok r, w1) ->
  isMounted (refs s) <> Some false ->
  applyFn (reactiveFn p) c w1 = (Throw e, w2) ->
  firstRun env p c s =
  (Throw e,
   attempted (EvReactive c) (reactiveFn p) w2
     (markUnmounted (attached env p c r w1 s))).
Proof.
  intros Hh Hm Hf. unfold firstRun.
  rewrite (bind_ok _ _ _ _ _ (attachHandler_ok _ _ _ _ _ Hh)).
  destruct s as [[m d cl slot tid data] w g ck h tr]; cbn in *.
  unfold bind at 1, getRefs; cbn.
  destruct m as [[|]|]; try congruence; cbn.
  - erewrite runReactiveFn_throw by (cbn; exact Hf). reflexivity.
  - unfold bind, modifyRefs.
    erewrite runReactiveFn_throw by (cbn; exact Hf). reflexivity.
Qed.

(** X6. A first argument that is not a function is only warned about (in
    development): the render pass that has to call it throws a TypeError
    after the old computation was disposed; nothing is cached, the slot
    stays empty, no leak-guard timer is scheduled and the memo does not
    record the deps, so the next pass tries again. *)
Theorem non_function_reactiveFn_throws p s w1 r w2 :
  reactiveFn p = NotCallable ->
  depsChanged (memoDeps (host s)) (deps p) = true ->
  isMounted (refs s) <> Some false ->
  cleanupOutcome (computationCleanup (refs s)) (world s) = (Ok tt, w1) ->
  applyHandler (computationHandler p)
    (firstArg env (nextComp (engine s))) w1 = (Ok r, w2) ->
  exists s',
    exported env p s = (Throw TypeError, s') /\
    trackerData (refs s') = trackerData (refs s) /\
    slotTruthy (computation (refs s')) = false /\
    stopped (engine s') =
      stopped (engine s) ++ stopIds (computation (refs s)) /\
    clock s' = clock s /\
    host s' = host s /\
    countEv isReactive (trace s') = countEv isReactive (trace s) /\
    forceUpdates s' = forceUpdates s /\
    (isDevelopment env = true ->
     In (EvWarn WarnReactiveFnType) (trace s')).
Proof.
  intros Hr Hch Hm Hc Hh.
  pose proof (dispose_ok (warned env p s) w1 Hc) as Hd.
  assert (Hw : world (disposed w1 (warned env p s)) = w1).
  { unfold cleanupOutcome in Hc.
    destruct s as [[m d [cl|] slot tid data] w g ck h tr]; cbn in *;
      congruence. }
  assert (Hf : forall c w, applyFn (reactiveFn p) c w = (Throw TypeError, w))
    by (intros c w; now rewrite Hr).
  assert (Hmemo : exists s',
            memoCallback env p (warned env p s) = (Throw TypeError, s') /\
            trackerData (refs s') = trackerData (refs s) /\
            slotTruthy (computation (refs s')) = false /\
            stopped (engine s') =
              stopped (engine s) ++ stopIds (computation (refs s)) /\
            clock s' = clock s /\
            host s' = host s /\
            trace s' =
              trace (disposed w1 (warned env p s))
              ++ (if isServer env then []
                  else [EvAutorun (nextComp (engine s))])
              ++ handlerEvents env p (firstArg env (nextComp (engine s))) r).
  { unfold memoCallback. rewrite (bind_ok _ _ _ _ _ Hd).
    unfold firstArg in *. destruct (isServer env).
    - unfold bind at 1, modifyRefs.
      rewrite tracked_first by reflexivity.
      rewrite (firstRun_reactive_throw p ArgNull _ r w2 TypeError w2)
        by (cbn; rewrite ?Hw; auto).
      eexists. split; [reflexivity|]. unfold attempted. rewrite Hr. cbn.
      repeat split; rewrite ?logs_app, <- ?app_assoc, ?app_nil_r;
        reflexivity.
    - rewrite (bind_throw _ _ _ _ _
                 (createComputation_run p (disposed w1 (warned env p s))
                    (Throw TypeError) _
                    (firstRun_reactive_throw p _
                       (registered p (disposed w1 (warned env p s)))
                       r w2 TypeError w2
                       ltac:(cbn; rewrite ?Hw; exact Hh) Hm (Hf _ _)))).
      eexists. split; [reflexivity|]. unfold attempted. rewrite Hr. cbn.
      repeat split; rewrite ?logs_app, <- ?app_assoc, ?app_nil_r;
        try reflexivity.
      now destruct (computation (refs s)). }
  destruct Hmemo as (s' & He & Hdata & Hslot & Hst & Hck & Hho & Htr).
  exists s'. split.
  { rewrite exported_eq. apply useTracker_throw.
    now apply useMemo_throw. }
  split; [exact Hdata|]. split; [exact Hslot|]. split; [exact Hst|].
  split; [exact Hck|]. split; [exact Hho|].
  assert (Hcount : forall P,
            (forall w, P (EvWarn w) = false) ->
            (forall c, P (EvHandler c) = false) ->
            P EvCleanup = false ->
            (forall k, P (EvStop k) = false) ->
            (forall k, P (EvAutorun k) = false) ->
            countEv P (trace s') = countEv P (trace s)).
  { intros P H1 H2 H3 H4 H5. rewrite Htr. cbn.
    rewrite !logs_app, !countEv_app.
    rewrite count_argWarnings, count_cleanupEvents, count_stopEvents,
      count_handlerEvents by assumption.
    destruct (isServer env); rewrite ?countEv_cons, ?countEv_nil, ?H5; lia. }
  split; [now apply Hcount|]. split; [now apply Hcount|].
  intros Hdev. rewrite Htr. cbn. rewrite !logs_app.
  apply in_or_app. left. apply in_or_app. left. apply in_or_app. right.
  unfold argWarnings. rewrite Hdev, Hr. now left.
Qed.

(** ** Diagnostics are advisory *)

Lemma agree_refl s : agree s s.
Proof. now repeat split. Qed.

Lemma agree_sym s1 s2 : agree s1 s2 -> agree s2 s1.
Proof. intros (A & B & C & D & E & F). now repeat split. Qed.

Lemma agree_trans s1 s2 s3 : agree s1 s2 -> agree s2 s3 -> agree s1 s3.
Proof.
  intros (A & B & C & D & E & F) (A' & B' & C' & D' & E' & F').
  repeat split; congruence.
Qed.

Lemma quietTrace_app t1 t2 :
  quietTrace (t1 ++ t2) = quietTrace t1 ++ quietTrace t2.
Proof. apply filter_app. Qed.

Lemma sim_bind {A B} (m1 m2 : M W A) (k1 k2 : A -> M W B) :
  sim m1 m2 -> (forall a, sim (k1 a) (k2 a)) -> sim (bind m1 k1) (bind m2 k2).
Proof.
  intros Hm Hk s1 s2 H. unfold bind.
  destruct (Hm s1 s2 H) as [Hv Hs].
  destruct (m1 s1) as [[a1|e1] t1], (m2 s2) as [[a2|e2] t2]; cbn in *;
    try discriminate.
  - injection Hv as ->. exact (Hk a2 t1 t2 Hs).
  - injection Hv as ->. split; [reflexivity|exact Hs].
Qed.

Lemma sim_ret {A} (a : A) : sim (W := W) (ret a) (ret a).
Proof. intros s1 s2 H. now split. Qed.

Lemma sim_throw {A} e : sim (W := W) (A := A) (throw e) (throw e).
Proof. intros s1 s2 H. now split. Qed.

Lemma sim_getRefs : sim (W := W) getRefs getRefs.
Proof. intros s1 s2 H. split; [|exact H]. cbn. now destruct H as [-> _]. Qed.

Lemma sim_modifyRefs (f : Refs W -> Refs W) : sim (modifyRefs f) (modifyRefs f).
Proof.
  intros s1 s2 (HA & HB & HC & HD & HE & HF). split; [reflexivity|].
  unfold agree; cbn. rewrite HA. repeat split; assumption.
Qed.

Lemma sim_emit ev : sim (W := W) (emit ev) (emit ev).
Proof.
  intros s1 s2 (A & B & C & D & E & F). split; [reflexivity|].
  repeat split; cbn; try congruence.
  now rewrite !quietTrace_app, F.
Qed.

Lemma sim_when b (m1 m2 : M W unit) :
  sim m1 m2 -> sim (when b m1) (when b m2).
Proof. destruct b; [auto|intros _; apply sim_ret]. Qed.

Lemma sim_onWorld {B} (f : W -> Outcome B * W) : sim (onWorld f) (onWorld f).
Proof.
  intros s1 s2 (HA & HB & HC & HD & HE & HF). unfold onWorld. rewrite HB.
  destruct (f (world s2)) as [o w]. split; [reflexivity|].
  unfold agree; cbn. repeat split; assumption.
Qed.

Lemma sim_stop cid : sim (W := W) (stop cid) (stop cid).
Proof.
  intros s1 s2 (A & B & C & D & E & F). split; [reflexivity|].
  repeat split; cbn; try congruence.
  now rewrite !quietTrace_app, F.
Qed.

Lemma sim_forceUpdate : sim (W := W) forceUpdate forceUpdate.
Proof.
  intros s1 s2 (A & B & C & D & E & F). split; [reflexivity|].
  repeat split; cbn; try congruence.
  now rewrite !quietTrace_app, F.
Qed.

Lemma sim_setTimeout delay : sim (W := W) (setTimeout delay) (setTimeout delay).
Proof.
  intros s1 s2 (A & B & C & D & E & F). cbn. rewrite D.
  split; [reflexivity|].
  repeat split; cbn; try congruence.
  now rewrite !quietTrace_app, F.
Qed.

Lemma sim_clearTimeout id : sim (W := W) (clearTimeout id) (clearTimeout id).
Proof.
  intros s1 s2 (A & B & C & D & E & F). cbn. rewrite D.
  split; [reflexivity|].
  repeat split; cbn; try congruence.
  now rewrite !quietTrace_app, F.
Qed.

Lemma onlyWarns_ret : onlyWarns (W := W) (ret tt).
Proof. intros s. split; [reflexivity|apply agree_refl]. Qed.

Lemma onlyWarns_warn w : onlyWarns (W := W) (emit (EvWarn w)).
Proof.
  intros s. split; [reflexivity|]. repeat split. cbn.
  rewrite quietTrace_app. cbn. now rewrite app_nil_r.
Qed.

Lemma onlyWarns_when b (m : M W unit) : onlyWarns m -> onlyWarns (when b m).
Proof. destruct b; [auto|intros _; apply onlyWarns_ret]. Qed.

Lemma onlyWarns_seq (m1 m2 : M W unit) :
  onlyWarns m1 -> onlyWarns m2 -> onlyWarns (bind m1 (fun _ => m2)).
Proof.
  intros H1 H2 s. unfold bind. destruct (H1 s) as [Hv Hs].
  destruct (m1 s) as [[u|e] s1]; cbn in *; [|discriminate].
  destruct (H2 s1) as [Hv' Hs']. split; [exact Hv'|].
  exact (agree_trans _ _ _ Hs Hs').
Qed.

Lemma sim_warns (m1 m2 : M W unit) : onlyWarns m1 -> onlyWarns m2 -> sim m1 m2.
Proof.
  intros H1 H2 s1 s2 H. destruct (H1 s1) as [V1 A1], (H2 s2) as [V2 A2].
  split; [congruence|].
  apply (agree_trans _ s1); [now apply agree_sym|].
  now apply (agree_trans _ s2).
Qed.

Lemma sim_after_warns_l {A} (m : M W unit) (k1 k2 : M W A) :
  onlyWarns m -> sim k1 k2 -> sim (bind m (fun _ => k1)) k2.
Proof.
  intros Hm Hk s1 s2 H. unfold bind. destruct (Hm s1) as [Hv Hs].
  destruct (m s1) as [[u|e] t1]; cbn in *; [|discriminate].
  apply Hk. apply (agree_trans _ s1); [now apply agree_sym|exact H].
Qed.

Lemma sim_sym {A} (m1 m2 : M W A) : sim m1 m2 -> sim m2 m1.
Proof.
  intros H s1 s2 Hs. destruct (H s2 s1 (agree_sym _ _ Hs)) as [Hv Ha].
  split; [now symmetry|now apply agree_sym].
Qed.

Ltac sim_step :=
  first
    [ apply sim_bind; [|intros ?]
    | apply sim_ret
    | apply sim_throw
    | apply sim_getRefs
    | apply sim_modifyRefs
    | apply sim_emit
    | apply sim_onWorld
    | apply sim_stop
    | apply sim_forceUpdate
    | apply sim_setTimeout
    | apply sim_clearTimeout
    | apply sim_when
    | match goal with
      | |- sim (match ?x with _ => _ end) (match ?x with _ => _ end) =>
          destruct x
      end ].

Lemma sim_dispose : sim (W := W) dispose dispose.
Proof. unfold dispose, callCleanup. repeat sim_step. Qed.

Section TwoBuilds.

Variables env1 env2 : Env.
Hypothesis sameSide : isServer env1 = isServer env2.

Lemma sim_runReactiveFn p c :
  sim (runReactiveFn env1 p c) (runReactiveFn env2 p c).
Proof.
  unfold runReactiveFn, call, checkCursor. repeat sim_step.
  apply sim_warns; repeat apply onlyWarns_when; apply onlyWarns_warn.
Qed.

Lemma sim_firstRun p c : sim (firstRun env1 p c) (firstRun env2 p c).
Proof.
  unfold firstRun, attachHandler, storeCleanup, call.
  repeat first
    [ apply sim_runReactiveFn
    | apply sim_warns; apply onlyWarns_when; apply onlyWarns_warn
    | sim_step ].
Qed.

Lemma sim_rerun p c : sim (rerun env1 p c) (rerun env2 p c).
Proof.
  unfold rerun.
  repeat first [apply sim_runReactiveFn | apply sim_dispose | sim_step].
Qed.

Lemma sim_tracked p c : sim (tracked env1 p c) (tracked env2 p c).
Proof.
  destruct c as [| |cid [|]]; cbn;
    [apply sim_firstRun|apply sim_throw|apply sim_firstRun|apply sim_rerun].
Qed.

Lemma sim_createComputation p :
  sim (createComputation env1 p) (createComputation env2 p).
Proof.
  intros s1 s2 H. unfold createComputation, nonreactive, autorun.
  pose proof H as (A & B & C & D & E & F). rewrite C.
  assert (Hreg : agree
            (with_engine
               {| nextComp := S (nextComp (engine s2));
                  comps := comps (engine s2) ++ [(nextComp (engine s2), p)];
                  stopped := stopped (engine s2) |}
               (log (EvAutorun (nextComp (engine s2))) s1))
            (with_engine
               {| nextComp := S (nextComp (engine s2));
                  comps := comps (engine s2) ++ [(nextComp (engine s2), p)];
                  stopped := stopped (engine s2) |}
               (log (EvAutorun (nextComp (engine s2))) s2))).
  { repeat split; cbn; try congruence. now rewrite !quietTrace_app, F. }
  destruct (sim_tracked p (ArgComp (nextComp (engine s2)) true) _ _ Hreg)
    as [Hv Ha].
  destruct (tracked env1 p _ _) as [[u1|e1] t1],
           (tracked env2 p _ _) as [[u2|e2] t2]; cbn in *;
    try discriminate.
  - split; [reflexivity|exact Ha].
  - injection Hv as ->. split; [reflexivity|exact Ha].
Qed.

Lemma sim_memoCallback p : sim (memoCallback env1 p) (memoCallback env2 p).
Proof.
  unfold memoCallback, scheduleGuard. rewrite sameSide.
  apply sim_bind; [apply sim_dispose|intros _].
  destruct (isServer env2);
    repeat first [apply sim_tracked | apply sim_createComputation | sim_step].
Qed.

Lemma sim_effectCallback p :
  sim (effectCallback env1 p) (effectCallback env2 p).
Proof.
  unfold effectCallback, cancelGuard, restartComputation, replayDeferred.
  rewrite sameSide.
  repeat first
    [apply sim_runReactiveFn | apply sim_createComputation | sim_step].
Qed.

Lemma sim_useTracker p : sim (useTracker env1 p) (useTracker env2 p).
Proof.
  unfold useTracker.
  apply sim_bind; [|intros _; apply sim_bind; [|intros _]].
  - intros s1 s2 H. unfold useMemo.
    pose proof H as (A & B & C & D & E & F). rewrite E.
    destruct (depsChanged (memoDeps (host s2)) (deps p)); [|now split].
    destruct (sim_memoCallback p s1 s2 H) as [Hv Ha].
    destruct (memoCallback env1 p s1) as [[u1|e1] t1],
             (memoCallback env2 p s2) as [[u2|e2] t2]; cbn in *;
      try discriminate; [|split; [exact Hv|exact Ha]].
    split; [reflexivity|].
    destruct Ha as (A' & B' & C' & D' & E' & F').
    unfold agree; cbn. rewrite E'. repeat split; assumption.
  - intros s1 s2 H. unfold useEffect. split; [reflexivity|].
    pose proof H as (A & B & C & D & E & F). cbn. rewrite E.
    destruct (phase (host s2)); [|exact H|exact H].
    unfold agree; cbn. repeat split; assumption.
  - repeat sim_step.
Qed.

Lemma sim_dev_wrapper (build : Env) p (k : M W JsVal) :
  sim (useTracker build p) k -> sim (useTrackerDev build p) k.
Proof.
  intros H. unfold useTrackerDev.
  repeat (apply sim_after_warns_l;
          [apply onlyWarns_when; apply onlyWarns_warn|]).
  exact H.
Qed.

Lemma sim_exported p : sim (exported env1 p) (exported env2 p).
Proof.
  unfold exported.
  destruct (isDevelopment env1), (isDevelopment env2).
  - apply sim_dev_wrapper, sim_sym, sim_dev_wrapper, sim_sym, sim_useTracker.
  - apply sim_dev_wrapper, sim_useTracker.
  - apply sim_sym, sim_dev_wrapper, sim_sym, sim_useTracker.
  - apply sim_useTracker.
Qed.

Lemma sim_timeoutCallback : sim (W := W) timeoutCallback timeoutCallback.
Proof.
  unfold timeoutCallback.
  repeat first [apply sim_dispose | sim_step].
Qed.

Lemma agree_exec {A} (m1 m2 : M W A) s1 s2 :
  sim m1 m2 -> agree s1 s2 -> agree (exec m1 s1) (exec m2 s2).
Proof. intros Hm H. exact (proj2 (Hm s1 s2 H)). Qed.

Lemma agree_fireTimers due : forall s1 s2,
  agree s1 s2 -> agree (fireTimers due s1) (fireTimers due s2).
Proof.
  induction due as [|t due IH]; intros s1 s2 H; cbn; [exact H|].
  apply IH. pose proof H as (HA & HB & HC & HD & HE & HF).
  unfold isLive. rewrite HD.
  destruct (existsb _ (timers (clock s2))); [|exact H].
  unfold expire. apply agree_exec; [apply sim_timeoutCallback|].
  rewrite HD. unfold agree; cbn. repeat split; assumption.
Qed.

Lemma agree_step s1 s2 ev :
  agree s1 s2 -> agree (step env1 s1 ev) (step env2 s2 ev).
Proof.
  intros H. pose proof H as (HA & HB & HC & HD & HE & HF).
  destruct ev as [p| |k|dt| |f]; cbn.
  - unfold render. rewrite HE.
    destruct (phase (host s2)); try exact H;
      apply agree_exec; auto using sim_exported.
  - unfold commit. rewrite HE.
    destruct (phase (host s2)); try exact H.
    destruct (pendingEffect (host s2)) as [p|]; try exact H.
    pose proof (agree_exec _ _ _ _ (sim_effectCallback p) H)
      as (A' & B' & C' & D' & E' & F').
    unfold agree, setPhase; cbn. rewrite E'. repeat split; assumption.
  - unfold pulse. rewrite HC.
    destruct (lookupComp k (comps (engine s2))) as [q|]; [|exact H].
    apply agree_exec; auto using sim_tracked.
  - unfold elapse. rewrite HD. apply agree_fireTimers.
    unfold agree; cbn. repeat split; assumption.
  - unfold unmount. rewrite HE.
    destruct (phase (host s2)).
    + unfold agree, setPhase; cbn. rewrite HE. repeat split; assumption.
    + pose proof (agree_exec _ _ _ _ sim_dispose H)
        as (A' & B' & C' & D' & E' & F').
      unfold agree, setPhase; cbn. rewrite E'. repeat split; assumption.
    + unfold agree, setPhase; cbn. rewrite HE. repeat split; assumption.
  - unfold agree; cbn. rewrite HB. repeat split; assumption.
Qed.

Lemma agree_run es : forall s1 s2,
  agree s1 s2 -> agree (run env1 es s1) (run env2 es s2).
Proof.
  induction es as [|ev es IH]; intros s1 s2 H; cbn; [exact H|].
  apply IH. now apply agree_step.
Qed.

End TwoBuilds.




(** ** Invariants that hold whatever the user code does *)

Lemma keeps_bind (I : State W -> Prop) {A B} (m : M W A) (k : A -> M W B) :
  keeps I m -> (forall a, keeps I (k a)) -> keeps I (bind m k).
Proof.
  intros Hm Hk s H. unfold bind. specialize (Hm s H).
  destruct (m s) as [[a|e] s1]; cbn in *; [|exact Hm].
  exact (Hk a s1 Hm).
Qed.

(** Reading [refs] and going on: the continuation may use the invariant
    of the state it reads from. *)
Lemma keeps_read (I : State W -> Prop) {B} (k : Refs W -> M W B) :
  (forall s, I s -> I (snd (k (refs s) s))) -> keeps I (bind getRefs k).
Proof. intros H s Hs. exact (H s Hs). Qed.

Lemma keeps_ret (I : State W -> Prop) {A} (a : A) : keeps I (ret a).
Proof. intros s H. exact H. Qed.

Lemma keeps_throw (I : State W -> Prop) {A} e : keeps I (A := A) (throw e).
Proof. intros s H. exact H. Qed.

Lemma keeps_when (I : State W -> Prop) b (m : M W unit) : keeps I m -> keeps I (when b m).
Proof. destruct b; [auto|intros _; apply keeps_ret]. Qed.

Lemma keeps_onWorld (I : State W -> Prop) {B} (f : W -> Outcome B * W) :
  (forall s w, I s -> I (with_world w s)) -> keeps I (onWorld f).
Proof.
  intros H s Hs. unfold onWorld. destruct (f (world s)) as [o w].
  now apply H.
Qed.

Lemma keeps_call (I : State W -> Prop) {A B} ev (f : Callable W A B) a :
  (forall s, I s -> I (log ev s)) ->
  (forall s w, I s -> I (with_world w s)) ->
  keeps I (call ev f a).
Proof.
  intros He Hw. unfold call. apply keeps_bind.
  - apply keeps_when. intros s Hs. now apply He.
  - intros _. now apply keeps_onWorld.
Qed.

(** [solve_prim] closes what is left once the structure is peeled off:
    that one primitive step keeps the invariant. *)
Ltac keeps_with solve_prim :=
  repeat first
    [ apply keeps_ret
    | apply keeps_throw
    | apply keeps_when
    | apply keeps_call; [solve [solve_prim]|solve [solve_prim]]
    | apply keeps_onWorld; solve [solve_prim]
    | apply keeps_bind; [|intros ?]
    | match goal with
      | |- keeps _ (match ?x with _ => _ end) => destruct x
      end
    | solve [solve_prim] ].

(** *** Once mounted, always mounted *)

Ltac settled_prim :=
  unfold keeps, settled; intros;
  match goal with H : _ /\ _ |- _ => destruct H as [? ?] end;
  unfold log, with_refs, with_world, with_host, with_clock, with_engine;
  cbn; split; [assumption|];
  rewrite ?countEv_app, ?countEv_cons, ?countEv_nil; cbn;
  rewrite ?Nat.add_0_r; assumption.

Section Settled.

Variable n : nat.

Lemma settled_dispose : keeps (W := W) (settled n) dispose.
Proof.
  unfold dispose, callCleanup, getRefs, modifyRefs, emit, stop.
  keeps_with settled_prim.
Qed.

Lemma settled_runReactiveFn p c : keeps (settled n) (runReactiveFn env p c).
Proof.
  unfold runReactiveFn, checkCursor, modifyRefs, emit.
  keeps_with settled_prim.
Qed.

Lemma settled_firstRun p c : keeps (settled n) (firstRun env p c).
Proof.
  unfold firstRun. apply keeps_bind.
  - unfold attachHandler, storeCleanup, modifyRefs, emit.
    keeps_with settled_prim.
  - intros _. apply keeps_read. intros s H.
    assert (Hm : mountedTruthy (refs s) = true) by apply H.
    unfold mountedTruthy in Hm.
    destruct (isMounted (refs s)) as [[|]|]; try discriminate.
    now apply settled_runReactiveFn.
Qed.

Lemma settled_tracked p c : keeps (settled n) (tracked env p c).
Proof.
  assert (Hf : keeps (W := W) (settled n) forceUpdate)
    by (unfold forceUpdate; settled_prim).
  destruct c as [| |cid [|]];
    [apply settled_firstRun|apply keeps_throw|apply settled_firstRun|].
  change (keeps (settled n) (rerun env p (ArgComp cid false))).
  unfold rerun. destruct (negb (isArray (deps p))).
  - apply keeps_bind; [apply settled_dispose|intros _; exact Hf].
  - apply keeps_bind; [settled_prim|intros r].
    destruct (mountedTruthy r).
    + apply keeps_bind; [apply settled_runReactiveFn|intros _; exact Hf].
    + unfold modifyRefs. settled_prim.
Qed.

Lemma settled_createComputation p :
  keeps (settled n) (createComputation env p).
Proof.
  intros s H. unfold createComputation, nonreactive, autorun.
  assert (Hr : settled n (registered p s)).
  { destruct H as [Hm Hc]. split; [exact Hm|].
    unfold registered. cbn.
    now rewrite logs_app, countEv_app, countEv_cons, countEv_nil, Hc. }
  pose proof (settled_tracked p (ArgComp (nextComp (engine s)) true)
                (registered p s) Hr) as Hk.
  change (with_engine _ (log _ s)) with (registered p s).
  now destruct (tracked env p _ (registered p s)) as [[u|e] s2].
Qed.

Lemma settled_scheduleGuard : keeps (settled n) (@scheduleGuard W).
Proof.
  intros s H. rewrite scheduleGuard_eq.
  assert (Hm : mountedTruthy (refs s) = true) by apply H.
  now rewrite Hm.
Qed.

Lemma settled_memoCallback p : keeps (settled n) (memoCallback env p).
Proof.
  unfold memoCallback. apply keeps_bind; [apply settled_dispose|intros _].
  destruct (isServer env).
  - apply keeps_bind; [unfold modifyRefs; settled_prim|intros _].
    apply settled_tracked.
  - apply keeps_bind; [apply settled_createComputation|intros cid].
    apply keeps_bind; [unfold modifyRefs; settled_prim|intros _].
    apply settled_scheduleGuard.
Qed.

Lemma settled_effect_rest p :
  keeps (settled n)
    (@cancelGuard W ;; restartComputation env p ;; replayDeferred env p).
Proof.
  apply keeps_bind; [|intros _; apply keeps_bind; [|intros _]].
  - unfold cancelGuard, getRefs, clearTimeout, modifyRefs.
    keeps_with settled_prim.
  - unfold restartComputation.
    apply keeps_bind; [settled_prim|intros r].
    apply keeps_when.
    apply keeps_bind; [|intros _; unfold modifyRefs; settled_prim].
    apply keeps_when.
    apply keeps_bind; [apply settled_createComputation|].
    intros cid. unfold modifyRefs. settled_prim.
  - unfold replayDeferred.
    apply keeps_bind; [settled_prim|intros r].
    apply keeps_when.
    apply keeps_bind; [apply settled_runReactiveFn|intros _].
    apply keeps_bind; [unfold forceUpdate; settled_prim|intros _].
    unfold modifyRefs. settled_prim.
Qed.

Lemma settled_exported p : keeps (settled n) (exported env p).
Proof.
  intros s H. rewrite exported_eq. unfold useTracker, bind at 1.
  assert (Hw : settled n (warned env p s)).
  { destruct H as [Hm Hc]. split; [exact Hm|].
    unfold warned. cbn. rewrite logs_app, countEv_app, Hc.
    rewrite count_argWarnings by reflexivity. apply Nat.add_0_r. }
  assert (Hm : settled n (snd (useMemo env p (warned env p s)))).
  { unfold useMemo. destruct (depsChanged _ _); [|exact Hw].
    pose proof (settled_memoCallback p (warned env p s) Hw) as Hk.
    now destruct (memoCallback env p (warned env p s)) as [[u|e] s1]. }
  destruct (useMemo env p (warned env p s)) as [[u|e] s1]; [|exact Hm].
  cbn in Hm. unfold bind, useEffect, getRefs, ret. cbn.
  now destruct (phase (host s1)).
Qed.

Lemma settled_fireTimers due : forall s,
  settled n s -> settled n (fireTimers due s).
Proof.
  induction due as [|t due IH]; intros s H; cbn; [exact H|].
  apply IH. destruct (isLive (fst t) s); [|exact H].
  unfold expire, exec. rewrite timeoutCallback_eq.
  assert (Hm : mountedTruthy (refs s) = true) by apply H.
  cbn. now rewrite Hm.
Qed.

End Settled.

Lemma settled_after_effect p s :
  settled (guardsSet s) (exec (effectCallback env p) s).
Proof.
  unfold exec, effectCallback, bind at 1, modifyRefs.
  destruct (negb (isServer env)); [|now split].
  now apply settled_effect_rest.
Qed.

Lemma settled_step n s ev : settled n s -> settled n (step env s ev).
Proof.
  intros H. destruct ev as [p| |k|dt| |f]; cbn.
  - unfold render. destruct (phase (host s)); try exact H;
      now apply settled_exported.
  - unfold commit. destruct (phase (host s)); try exact H.
    destruct (pendingEffect (host s)) as [p|]; [|exact H].
    destruct H as [_ <-]. apply (settled_after_effect p s).
  - unfold pulse. destruct (lookupComp k (comps (engine s))) as [q|];
      [|exact H].
    now apply settled_tracked.
  - unfold elapse. now apply settled_fireTimers.
  - unfold unmount. destruct (phase (host s)); try exact H.
    now apply (settled_dispose n s).
  - exact H.
Qed.

Lemma settled_run n es : forall s, settled n s -> settled n (run env es s).
Proof.
  induction es as [|ev es IH]; intros s H; cbn; [exact H|].
  apply IH. now apply settled_step.
Qed.

(** X8. [isMounted] never reverts: the effect leaves it true however it
    ends, and from a state where it is true every entry point of the
    hook and every later life of the instance (renders, invalidations,
    timers, unmount, exceptions of the user code included) leaves it
    true. *)
Theorem mounted_never_reverts s :
  mountedTruthy (refs s) = true ->
  (forall es, mountedTruthy (refs (run env es s)) = true) /\
  (forall p, mountedTruthy (refs (exec (exported env p) s)) = true) /\
  (forall p c, mountedTruthy (refs (exec (tracked env p c) s)) = true) /\
  mountedTruthy (refs (exec dispose s)) = true /\
  (forall p (s0 : State W),
     mountedTruthy (refs (exec (effectCallback env p) s0)) = true).
Proof.
  intros H.
  assert (Hs : settled (guardsSet s) s) by now split.
  split; [intros es; now apply (settled_run _ es s Hs)|].
  split; [intros p; now apply (settled_exported _ p s Hs)|].
  split; [intros p c; now apply (settled_tracked _ p c s Hs)|].
  split; [now apply (settled_dispose _ s Hs)|].
  intros p s0. apply (settled_after_effect p s0).
Qed.

(** X9. The leak guard belongs to the time before the commit.  The
    effect itself sets no timer, and once [isMounted] is true no render,
    invalidation, timer expiry or unmount ever calls [setTimeout]
    again, whatever the deps and the user code. *)
Theorem no_guard_timer_after_mount s :
  mountedTruthy (refs s) = true ->
  (forall es, guardsSet (run env es s) = guardsSet s) /\
  (forall p, guardsSet (exec (exported env p) s) = guardsSet s) /\
  (forall p (s0 : State W),
     guardsSet (exec (effectCallback env p) s0) = guardsSet s0).
Proof.
  intros H.
  assert (Hs : settled (guardsSet s) s) by now split.
  split; [intros es; now apply (settled_run _ es s Hs)|].
  split; [intros p; now apply (settled_exported _ p s Hs)|].
  intros p s0. apply (settled_after_effect p s0).
Qed.

(** *** On the server nothing is created *)

Ltac server_prim :=
  unfold keeps, serverInv; intros;
  repeat match goal with H : _ /\ _ |- _ => destruct H end;
  unfold log, with_refs, with_world, with_host, with_clock, with_engine;
  cbn; rewrite ?forallb_app; cbn;
  repeat split; try assumption;
  match goal with H : forallb _ _ = true |- _ => now rewrite H end.

Lemma inert_counts (t : list Event) :
  forallb isInert t = true ->
  countEv isAutorun t = 0 /\ countEv isForceUpdate t = 0 /\
  countEv isStop t = 0 /\ countEv isClearTimeout t = 0.
Proof.
  unfold countEv. induction t as [|ev t IH]; cbn; [auto|].
  intros H. apply andb_prop in H. destruct H as [He Ht].
  specialize (IH Ht).
  destruct ev as [k| k |c|c| | |id d|o|wn]; try discriminate He;
    cbn; exact IH.
Qed.

Lemma server_dispose : keeps (W := W) serverInv dispose.
Proof.
  unfold dispose.
  apply keeps_bind; [server_prim|intros r].
  apply keeps_bind.
  - unfold callCleanup, modifyRefs, emit. keeps_with server_prim.
  - intros _. apply keeps_read. intros s H.
    assert (Hs : slotTruthy (computation (refs s)) = false) by apply H.
    destruct (computation (refs s)); try discriminate Hs; exact H.
Qed.

Lemma server_runReactiveFn p :
  keeps serverInv (runReactiveFn env p ArgNull).
Proof.
  unfold runReactiveFn, checkCursor, modifyRefs, emit.
  keeps_with server_prim.
Qed.

Lemma server_firstRun p : keeps serverInv (firstRun env p ArgNull).
Proof.
  unfold firstRun. apply keeps_bind.
  - unfold attachHandler, storeCleanup, modifyRefs, emit.
    keeps_with server_prim.
  - intros _. apply keeps_bind; [server_prim|intros r].
    destruct (isMounted r) as [[|]|].
    + apply server_runReactiveFn.
    + apply keeps_ret.
    + apply keeps_bind; [unfold modifyRefs; server_prim|intros _].
      apply server_runReactiveFn.
Qed.

Lemma server_exported p :
  isServer env = true -> keeps serverInv (exported env p).
Proof.
  intros Hsrv s H. rewrite exported_eq. unfold useTracker, bind at 1.
  assert (Hw : serverInv (warned env p s)).
  { assert (Ha : forallb isInert (argWarnings env p) = true).
    { unfold argWarnings. destruct (isDevelopment env); [|reflexivity].
      destruct (reactiveFn p), (depsTruthy (deps p) && negb (isArray (deps p))),
        (computationHandler p) as [[|]|]; reflexivity. }
    revert H. unfold warned, serverInv. cbn.
    rewrite logs_app, forallb_app, Ha, andb_true_r. tauto. }
  assert (Hm : serverInv (snd (useMemo env p (warned env p s)))).
  { unfold useMemo. destruct (depsChanged _ _); [|exact Hw].
    assert (Hk : keeps serverInv (memoCallback env p)).
    { unfold memoCallback. rewrite Hsrv.
      apply keeps_bind; [apply server_dispose|intros _].
      apply keeps_bind; [unfold modifyRefs; server_prim|intros _].
      apply server_firstRun. }
    specialize (Hk _ Hw).
    destruct (memoCallback env p (warned env p s)) as [[u|e] s1];
      exact Hk. }
  destruct (useMemo env p (warned env p s)) as [[u|e] s1]; [|exact Hm].
  cbn in Hm. unfold bind, useEffect, getRefs, ret. cbn.
  destruct (phase (host s1)); exact Hm.
Qed.

Lemma server_step s ev :
  isServer env = true -> serverInv s -> serverInv (step env s ev).
Proof.
  intros Hsrv H. destruct ev as [p| |k|dt| |f]; cbn.
  - unfold render. destruct (phase (host s)); try exact H;
      now apply server_exported.
  - unfold commit. destruct (phase (host s)); try exact H.
    destruct (pendingEffect (host s)) as [p|]; [|exact H].
    unfold exec, effectCallback, bind, modifyRefs. rewrite Hsrv. cbn.
    revert H. unfold serverInv. cbn. tauto.
  - unfold pulse.
    assert (Hc : comps (engine s) = []) by apply H.
    rewrite Hc. exact H.
  - unfold elapse.
    assert (Ht : timers (clock s) = []) by apply H.
    rewrite Ht. cbn. revert H. unfold serverInv. cbn. tauto.
  - unfold unmount. destruct (phase (host s)); try exact H.
    now apply (server_dispose s).
  - exact H.
Qed.

(** X10. Server rendering is inert.  With [Meteor.isServer] set, whatever
    the props of each render and whatever the user code does, a life
    that starts from a fresh instance never creates a computation, never
    sets or clears a timer, never stops anything and never requests a
    re-render; reactiveFn and computationHandler are only ever passed
    [null]. *)
Theorem server_render_is_inert (es : list (Stimulus W)) (w : W) :
  isServer env = true ->
  let s := run env es (initState w) in
  comps (engine s) = [] /\
  timers (clock s) = [] /\
  slotTruthy (computation (refs s)) = false /\
  forallb isInert (trace s) = true /\
  creations s = 0 /\
  forceUpdates s = 0 /\
  countEv isStop (trace s) = 0.
Proof.
  intros Hsrv s.
  assert (H : serverInv s).
  { subst s.
    assert (H0 : serverInv (initState w)) by (unfold serverInv; cbn; tauto).
    revert H0. generalize (initState w).
    induction es as [|ev es IH]; intros s0 H0; cbn; [exact H0|].
    apply IH. now apply server_step. }
  destruct H as (Hc & _ & Ht & Hs & _ & Hi).
  destruct (inert_counts _ Hi) as (Ha & Hf & Hst & _).
  unfold creations, forceUpdates. tauto.
Qed.

(** *** At most one computation is alive *)

(** X11. At most one computation is alive.  In any life of an instance
    whose user code returns normally, every computation ever created is
    stopped except possibly one, which is the one held in
    [refs.computation]; when the slot is empty nothing is alive. *)
Theorem at_most_one_live_computation (history : list (Stimulus W)) (w : W) :
  rendersWell history ->
  let s := run env history (initState w) in
  (forall k q, In (k, q) (comps (engine s)) -> isStopped k s = false ->
     computation (refs s) = SlotComp k) /\
  (forall k1 q1 k2 q2,
     In (k1, q1) (comps (engine s)) -> In (k2, q2) (comps (engine s)) ->
     isStopped k1 s = false -> isStopped k2 s = false -> k1 = k2) /\
  (slotTruthy (computation (refs s)) = false ->
   forall k q, In (k, q) (comps (engine s)) -> isStopped k s = true).
Proof.
  intros Hes s.
  assert (Hacc : accounted s).
  { apply (lifeInv_run history _ Hes (lifeInv_init w)). }
  assert (H1 : forall k q, In (k, q) (comps (engine s)) ->
                 isStopped k s = false -> computation (refs s) = SlotComp k).
  { intros k q Hin Hs. destruct (Hacc k q Hin) as [E|E]; [|exact E].
    rewrite E in Hs. discriminate. }
  split; [exact H1|]. split.
  - intros k1 q1 k2 q2 Hi1 Hi2 Hs1 Hs2.
    pose proof (H1 k1 q1 Hi1 Hs1) as E1.
    pose proof (H1 k2 q2 Hi2 Hs2) as E2.
    rewrite E1 in E2. now injection E2.
  - intros Hslot. exact (accounted_empty_slot s Hacc Hslot).
Qed.

(** *** Invalidations before the commit *)

(** X13. Invalidations that arrive before the commit coalesce.  While the
    instance is not mounted and the live closures were created with
    array deps, any number of invalidations, of any computations, leaves
    the whole state as it was except for [refs.doDeferredRender], which
    is set as soon as one of them reaches a registered computation: no
    user code runs, nothing is stopped, no re-render is requested. *)
Theorem deferred_invalidations_coalesce (ks : list nat) s :
  mountedTruthy (refs s) = false ->
  (forall k q, In (k, q) (comps (engine s)) -> isArray (deps q) = true) ->
  let s' := run env (map Pulse ks) s in
  (refs s' = refs s \/
   refs s' = set_doDeferredRender (Some true) (refs s)) /\
  world s' = world s /\ engine s' = engine s /\ clock s' = clock s /\
  host s' = host s /\ trace s' = trace s /\
  ((exists k q, In k ks /\ lookupComp k (comps (engine s)) = Some q) ->
   doDeferredRender (refs s') = Some true).
Proof.
  revert s. induction ks as [|k ks IH]; intros s Hm Hd; cbv zeta.
  { cbn. repeat split; auto. intros (k & q & [] & _). }
  change (run env (map Pulse (k :: ks)) s)
    with (run env (map Pulse ks) (pulse env k s)).
  assert (Hstep :
    pulse env k s = s /\ lookupComp k (comps (engine s)) = None \/
    pulse env k s = with_refs (set_doDeferredRender (Some true)) s /\
    exists q, lookupComp k (comps (engine s)) = Some q).
  { unfold pulse.
    destruct (lookupComp k (comps (engine s))) as [q|] eqn:E; [right|now left].
    split; [|now exists q].
    unfold exec.
    rewrite tracked_again, (rerun_deferred q _ s); [reflexivity| |exact Hm].
    apply (Hd k q). now apply lookupComp_some. }
  destruct Hstep as [[-> Hn]|[-> [q Hq]]].
  - pose proof (IH s Hm Hd) as IH1. cbv zeta in IH1.
    destruct IH1 as (Hr & Hw & He & Hc & Hh & Ht & Hdef).
    repeat split; try assumption.
    intros (k' & q' & [<-|Hin] & Hl); [congruence|].
    apply Hdef. now exists k', q'.
  - pose proof (IH (with_refs (set_doDeferredRender (Some true)) s) Hm Hd)
      as IH1.
    cbv zeta in IH1.
    destruct IH1 as (Hr & Hw & He & Hc & Hh & Ht & Hdef).
    split; [right; destruct Hr as [Hr|Hr]; exact Hr|].
    split; [exact Hw|]. split; [exact He|]. split; [exact Hc|].
    split; [exact Hh|]. split; [exact Ht|].
    intros _. destruct Hr as [Hr|Hr]; rewrite Hr; reflexivity.
Qed.

(** *** Production builds print nothing *)

Ltac silent_prim :=
  unfold keeps, silent; intros;
  unfold log, with_refs, with_world, with_host, with_clock, with_engine;
  cbn; rewrite ?forallb_app; cbn;
  try assumption;
  match goal with H : forallb _ _ = true |- _ => now rewrite H end.

Section Production.

Hypothesis production : isDevelopment env = false.

Lemma silent_dispose : keeps (W := W) silent dispose.
Proof.
  unfold dispose, callCleanup, getRefs, modifyRefs, emit, stop.
  keeps_with silent_prim.
Qed.

Lemma silent_runReactiveFn p c : keeps silent (runReactiveFn env p c).
Proof.
  unfold runReactiveFn. rewrite production. unfold when, modifyRefs.
  keeps_with silent_prim.
Qed.

Lemma silent_firstRun p c : keeps silent (firstRun env p c).
Proof.
  unfold firstRun. apply keeps_bind.
  - unfold attachHandler, storeCleanup. rewrite production.
    unfold modifyRefs. cbn [andb when]. keeps_with silent_prim.
  - intros _. apply keeps_bind; [silent_prim|intros r].
    destruct (isMounted r) as [[|]|].
    + apply silent_runReactiveFn.
    + apply keeps_ret.
    + apply keeps_bind; [unfold modifyRefs; silent_prim|intros _].
      apply silent_runReactiveFn.
Qed.

Lemma silent_tracked p c : keeps silent (tracked env p c).
Proof.
  assert (Hf : keeps (W := W) silent forceUpdate)
    by (unfold forceUpdate; silent_prim).
  destruct c as [| |cid [|]];
    [apply silent_firstRun|apply keeps_throw|apply silent_firstRun|].
  change (keeps silent (rerun env p (ArgComp cid false))).
  unfold rerun. destruct (negb (isArray (deps p))).
  - apply keeps_bind; [apply silent_dispose|intros _; exact Hf].
  - apply keeps_bind; [silent_prim|intros r].
    destruct (mountedTruthy r).
    + apply keeps_bind; [apply silent_runReactiveFn|intros _; exact Hf].
    + unfold modifyRefs. silent_prim.
Qed.

Lemma silent_createComputation p : keeps silent (createComputation env p).
Proof.
  intros s H. unfold createComputation, nonreactive, autorun.
  assert (Hr : silent (registered p s)).
  { revert H. unfold silent, registered. cbn.
    rewrite logs_app, forallb_app. cbn. now intros ->. }
  pose proof (silent_tracked p (ArgComp (nextComp (engine s)) true)
                (registered p s) Hr) as Hk.
  change (with_engine _ (log _ s)) with (registered p s).
  now destruct (tracked env p _ (registered p s)) as [[u|e] s2].
Qed.

Lemma silent_memoCallback p : keeps silent (memoCallback env p).
Proof.
  unfold memoCallback. apply keeps_bind; [apply silent_dispose|intros _].
  destruct (isServer env).
  - apply keeps_bind; [unfold modifyRefs; silent_prim|intros _].
    apply silent_tracked.
  - apply keeps_bind; [apply silent_createComputation|intros cid].
    apply keeps_bind; [unfold modifyRefs; silent_prim|intros _].
    unfold scheduleGuard, getRefs, setTimeout, modifyRefs.
    keeps_with silent_prim.
Qed.

Lemma silent_effectCallback p : keeps silent (effectCallback env p).
Proof.
  unfold effectCallback.
  apply keeps_bind; [unfold modifyRefs; silent_prim|intros _].
  apply keeps_when.
  apply keeps_bind; [|intros _; apply keeps_bind; [|intros _]].
  - unfold cancelGuard, getRefs, clearTimeout, modifyRefs.
    keeps_with silent_prim.
  - unfold restartComputation.
    apply keeps_bind; [silent_prim|intros r].
    apply keeps_when.
    apply keeps_bind; [|intros _; unfold modifyRefs; silent_prim].
    apply keeps_when.
    apply keeps_bind; [apply silent_createComputation|].
    intros cid. unfold modifyRefs. silent_prim.
  - unfold replayDeferred.
    apply keeps_bind; [silent_prim|intros r].
    apply keeps_when.
    apply keeps_bind; [apply silent_runReactiveFn|intros _].
    apply keeps_bind; [unfold forceUpdate; silent_prim|intros _].
    unfold modifyRefs. silent_prim.
Qed.

Lemma silent_exported p : keeps silent (exported env p).
Proof.
  intros s H. unfold exported. rewrite production.
  unfold useTracker, bind at 1.
  assert (Hm : silent (snd (useMemo env p s))).
  { unfold useMemo. destruct (depsChanged _ _); [|exact H].
    pose proof (silent_memoCallback p s H) as Hk.
    now destruct (memoCallback env p s) as [[u|e] s1]. }
  destruct (useMemo env p s) as [[u|e] s1]; [|exact Hm].
  cbn in Hm. unfold bind, useEffect, getRefs, ret. cbn.
  now destruct (phase (host s1)).
Qed.

Lemma silent_fireTimers due : forall s,
  silent s -> silent (fireTimers due s).
Proof.
  induction due as [|t due IH]; intros s H; cbn; [exact H|].
  apply IH. destruct (isLive (fst t) s); [|exact H].
  unfold expire, exec. rewrite timeoutCallback_eq. cbn.
  destruct (mountedTruthy (refs s)); [exact H|].
  now apply silent_dispose.
Qed.

Lemma silent_step s ev : silent s -> silent (step env s ev).
Proof.
  intros H. destruct ev as [p| |k|dt| |f]; cbn.
  - unfold render. destruct (phase (host s)); try exact H;
      now apply silent_exported.
  - unfold commit. destruct (phase (host s)); try exact H.
    destruct (pendingEffect (host s)) as [p|]; [|exact H].
    now apply (silent_effectCallback p s).
  - unfold pulse. destruct (lookupComp k (comps (engine s))) as [q|];
      [|exact H].
    now apply silent_tracked.
  - unfold elapse. now apply silent_fireTimers.
  - unfold unmount. destruct (phase (host s)); try exact H.
    now apply (silent_dispose s).
  - exact H.
Qed.

Lemma silent_run es : forall s, silent s -> silent (run env es s).
Proof.
  induction es as [|ev es IH]; intros s H; cbn; [exact H|].
  apply IH. now apply silent_step.
Qed.

End Production.

(** X14. Production builds print nothing.  With [Meteor.isDevelopment]
    unset, no life of an instance, whatever the props and the user code,
    calls [warn]: neither the checks of the argument types, nor the
    check of the handler's result, nor the cursor check is reached. *)
Theorem production_is_silent (es : list (Stimulus W)) s :
  isDevelopment env = false ->
  silent s ->
  silent (run env es s) /\
  countEv isWarn (trace (run env es s)) = countEv isWarn (trace s) /\
  (forall p, silent (exec (exported env p) s)) /\
  (forall p c, silent (exec (tracked env p c) s)).
Proof.
  intros Hp H.
  assert (Hz : forall t : list Event,
            forallb (fun ev => negb (isWarn ev)) t = true ->
            countEv isWarn t = 0).
  { unfold countEv. induction t as [|ev t IHt]; cbn; [reflexivity|].
    intros Ht. apply andb_prop in Ht as [He Ht].
    destruct (isWarn ev); [discriminate|]. now apply IHt. }
  pose proof (silent_run Hp es s H) as Hr.
  split; [exact Hr|]. split; [now rewrite (Hz _ Hr), (Hz _ H)|].
  split; [intros p; now apply silent_exported|].
  intros p c; now apply silent_tracked.
Qed.

(** *** Where the returned data comes from *)

Ltac source_prim :=
  unfold keeps, fromSource; intros;
  unfold log, with_refs, with_world, with_host, with_clock, with_engine;
  cbn; assumption.

Section Provenance.

Variable Q : JsVal -> Prop.

Lemma source_dispose : keeps (W := W) (fromSource Q) dispose.
Proof.
  unfold dispose, callCleanup, getRefs, modifyRefs, emit, stop.
  keeps_with source_prim.
Qed.

Lemma source_runReactiveFn p c :
  answers Q p -> keeps (fromSource Q) (runReactiveFn env p c).
Proof.
  intros Hp s (Hd & Hc & Hh).
  destruct (applyFn (reactiveFn p) c (world s)) as [[v|e] w'] eqn:E.
  - rewrite (runReactiveFn_ok p c s v w' E). cbn.
    split; [right; exact (Hp c (world s) v w' E)|]. now split.
  - rewrite (runReactiveFn_throw p c s e w' E). cbn. now repeat split.
Qed.

Lemma source_firstRun p c :
  answers Q p -> keeps (fromSource Q) (firstRun env p c).
Proof.
  intros Hp. unfold firstRun. apply keeps_bind.
  - unfold attachHandler, storeCleanup, modifyRefs, emit.
    keeps_with source_prim.
  - intros _. apply keeps_bind; [source_prim|intros r].
    destruct (isMounted r) as [[|]|].
    + now apply source_runReactiveFn.
    + apply keeps_ret.
    + apply keeps_bind; [unfold modifyRefs; source_prim|intros _].
      now apply source_runReactiveFn.
Qed.

Lemma source_tracked p c :
  answers Q p -> keeps (fromSource Q) (tracked env p c).
Proof.
  intros Hp.
  assert (Hf : keeps (W := W) (fromSource Q) forceUpdate)
    by (unfold forceUpdate; source_prim).
  destruct c as [| |cid [|]];
    [now apply source_firstRun|apply keeps_throw|now apply source_firstRun|].
  change (keeps (fromSource Q) (rerun env p (ArgComp cid false))).
  unfold rerun. destruct (negb (isArray (deps p))).
  - apply keeps_bind; [apply source_dispose|intros _; exact Hf].
  - apply keeps_bind; [source_prim|intros r].
    destruct (mountedTruthy r).
    + apply keeps_bind; [now apply source_runReactiveFn|intros _; exact Hf].
    + unfold modifyRefs. source_prim.
Qed.

Lemma source_createComputation p :
  answers Q p -> keeps (fromSource Q) (createComputation env p).
Proof.
  intros Hp s H. unfold createComputation, nonreactive, autorun.
  assert (Hr : fromSource Q (registered p s)).
  { destruct H as (Hd & Hc & Hh). split; [exact Hd|]. split; [|exact Hh].
    intros k q Hin. cbn in Hin. apply in_app_or in Hin as [Hin|[Hin|[]]].
    - exact (Hc k q Hin).
    - injection Hin as _ <-. exact Hp. }
  pose proof (source_tracked p (ArgComp (nextComp (engine s)) true) Hp
                (registered p s) Hr) as Hk.
  change (with_engine _ (log _ s)) with (registered p s).
  now destruct (tracked env p _ (registered p s)) as [[u|e] s2].
Qed.

Lemma source_memoCallback p :
  answers Q p -> keeps (fromSource Q) (memoCallback env p).
Proof.
  intros Hp.
  unfold memoCallback. apply keeps_bind; [apply source_dispose|intros _].
  destruct (isServer env).
  - apply keeps_bind; [unfold modifyRefs; source_prim|intros _].
    now apply source_tracked.
  - apply keeps_bind; [now apply source_createComputation|intros cid].
    apply keeps_bind; [unfold modifyRefs; source_prim|intros _].
    unfold scheduleGuard, getRefs, setTimeout, modifyRefs.
    keeps_with source_prim.
Qed.

Lemma source_effectCallback p :
  answers Q p -> keeps (fromSource Q) (effectCallback env p).
Proof.
  intros Hp. unfold effectCallback.
  apply keeps_bind; [unfold modifyRefs; source_prim|intros _].
  apply keeps_when.
  apply keeps_bind; [|intros _; apply keeps_bind; [|intros _]].
  - unfold cancelGuard, getRefs, clearTimeout, modifyRefs.
    keeps_with source_prim.
  - unfold restartComputation.
    apply keeps_bind; [source_prim|intros r].
    apply keeps_when.
    apply keeps_bind; [|intros _; unfold modifyRefs; source_prim].
    apply keeps_when.
    apply keeps_bind; [now apply source_createComputation|].
    intros cid. unfold modifyRefs. source_prim.
  - unfold replayDeferred.
    apply keeps_bind; [source_prim|intros r].
    apply keeps_when.
    apply keeps_bind; [now apply source_runReactiveFn|intros _].
    apply keeps_bind; [unfold forceUpdate; source_prim|intros _].
    unfold modifyRefs. source_prim.
Qed.

Lemma source_exported p :
  answers Q p -> keeps (fromSource Q) (exported env p).
Proof.
  intros Hp s H. rewrite exported_eq. unfold useTracker, bind at 1.
  assert (Hw : fromSource Q (warned env p s)) by exact H.
  assert (Hm : fromSource Q (snd (useMemo env p (warned env p s)))).
  { unfold useMemo. destruct (depsChanged _ _); [|exact Hw].
    pose proof (source_memoCallback p Hp (warned env p s) Hw) as Hk.
    destruct (memoCallback env p (warned env p s)) as [[u|e] s1];
      exact Hk. }
  destruct (useMemo env p (warned env p s)) as [[u|e] s1]; [|exact Hm].
  cbn in Hm. unfold bind, useEffect, getRefs, ret. cbn.
  destruct Hm as (Hd & Hc & Hh).
  destruct (phase (host s1)); cbn; repeat split; try assumption.
  intros q Hq. cbn in Hq. now injection Hq as <-.
Qed.

Lemma source_fireTimers due : forall s,
  fromSource Q s -> fromSource Q (fireTimers due s).
Proof.
  induction due as [|t due IH]; intros s H; cbn; [exact H|].
  apply IH. destruct (isLive (fst t) s); [|exact H].
  unfold expire, exec. rewrite timeoutCallback_eq. cbn.
  destruct (mountedTruthy (refs s)); [exact H|].
  now apply source_dispose.
Qed.

Lemma source_step s ev :
  match ev with Render p => answers Q p | _ => True end ->
  fromSource Q s -> fromSource Q (step env s ev).
Proof.
  intros Hev H. destruct ev as [p| |k|dt| |f]; cbn.
  - unfold render. destruct (phase (host s)); try exact H;
      now apply source_exported.
  - unfold commit. destruct (phase (host s)); try exact H.
    destruct (pendingEffect (host s)) as [p|] eqn:E; [|exact H].
    assert (Hp : answers Q p) by now apply H.
    now apply (source_effectCallback p Hp s).
  - unfold pulse.
    destruct (lookupComp k (comps (engine s))) as [q|] eqn:E; [|exact H].
    assert (Hq : answers Q q).
    { destruct H as (_ & Hc & _). apply (Hc k q).
      now apply lookupComp_some. }
    now apply source_tracked.
  - unfold elapse. now apply source_fireTimers.
  - unfold unmount. destruct (phase (host s)); try exact H.
    now apply (source_dispose s).
  - exact H.
Qed.

Lemma source_run es : forall s,
  rendersAnswer Q es -> fromSource Q s -> fromSource Q (run env es s).
Proof.
  induction es as [|ev es IH]; intros s Hes H; cbn; [exact H|].
  inversion Hes as [|? ? Hev Hes']; subst.
  apply IH; [exact Hes'|]. now apply source_step.
Qed.

End Provenance.

(** X15. The hook never invents data.  If every reactiveFn an instance
    is rendered with only returns values with some property, then at
    every moment of its life the cached data is either the initial
    [undefined] or has that property, and so has whatever a further
    render returns: the data is written by [runReactiveFn] alone, from
    what reactiveFn returned. *)
Theorem data_comes_from_reactiveFn (Q : JsVal -> Prop)
  (es : list (Stimulus W)) (w : W) :
  rendersAnswer Q es ->
  let s := run env es (initState w) in
  (trackerData (refs s) = VUndefined \/ Q (trackerData (refs s))) /\
  (forall p v s', answers Q p -> exported env p s = (Ok v, s') ->
     v = VUndefined \/ Q v).
Proof.
  intros Hes s.
  assert (H : fromSource Q s).
  { apply source_run; [exact Hes|].
    split; [now left|]. split; [intros k q []|discriminate]. }
  split; [apply H|].
  intros p v s' Hp E.
  pose proof (source_exported Q p Hp s H) as Hk. rewrite E in Hk. cbn in Hk.
  assert (Hv : v = trackerData (refs s')).
  { revert E. rewrite exported_eq. unfold useTracker, bind at 1.
    destruct (useMemo env p (warned env p s)) as [[u|e] s1]; [|discriminate].
    unfold bind, useEffect, getRefs, ret. cbn.
    intros E. injection E as <- <-. now destruct (phase (host s1)). }
  rewrite Hv. apply Hk.
Qed.

End Properties.

(** * Evaluation on concrete instances *)

(** An ordinary life on the client: render, commit, one invalidation
    after the source changed, unmount. *)
Example ordinary_life :
  let s := run client
             [Render (propsArr [1]); Commit; Mutate (fun _ => 7%Z);
              Pulse 0; Unmount] (initState 0%Z) in
  trace s =
    [EvAutorun 0; EvReactive (ArgComp 0 true); EvSetTimeout 0 50;
     EvClearTimeout (Some 0); EvReactive (ArgComp 0 false); EvForceUpdate;
     EvStop 0] /\
  trackerData (refs s) = VNum 7 /\
  timers (clock s) = [].
Proof. repeat split. Qed.

(** Deps [1], [1] again, then [2]: one disposal and one recreation, on
    the third render pass. *)
Example recreation_on_identity_change :
  let s2 := run client [Render (propsArr [1]); Commit; Render (propsArr [1])]
              (initState 0%Z) in
  let s3 := step client s2 (Render (propsArr [2])) in
  creations s2 = 1 /\ stopped (engine s2) = [] /\
  creations s3 = 2 /\ stopped (engine s3) = [0] /\
  computation (refs s3) = SlotComp 1.
Proof. repeat split. Qed.

(** On the server no computation is created and the function runs once,
    with [null]. *)
Example server_render :
  let r := exported server props42 (initState 0%Z) in
  fst r = Ok (VNum 42) /\
  trace (snd r) = [EvReactive ArgNull] /\
  computation (refs (snd r)) = SlotNull.
Proof. repeat split. Qed.

(** The guard expires before the commit; the effect restarts and replays. *)
Example slow_commit :
  let s := run client [Render (propsArr [1]); Elapse 50; Commit]
             (initState 0%Z) in
  trace s =
    [EvAutorun 0; EvReactive (ArgComp 0 true); EvSetTimeout 0 50; EvStop 0;
     EvClearTimeout (Some 0); EvAutorun 1; EvReactive (ArgComp 1 true);
     EvReactive (ArgComp 1 false); EvForceUpdate] /\
  computation (refs s) = SlotComp 1.
Proof. repeat split. Qed.

Lemma readSource_wellBehaved keys : wellBehaved (propsArr keys).
Proof.
  split.
  - intros c w. exists (VNum w), w. reflexivity.
  - intros c w. exists RetNothing, w. split; [reflexivity|exact I].
Qed.

(** [reactiveFn = () => 42] with no deps: the first render returns 42. *)
Lemma first_render_synchronous_witness :
  exists s',
    exported client props42 (initState 0%Z) = (Ok (VNum 42), s') /\
    trackerData (refs s') = VNum 42 /\
    forceUpdates s' = 0.
Proof.
  destruct (first_render_synchronous client props42 0%Z RetNothing 0%Z
              (VNum 42) 0%Z eq_refl eq_refl)
    as (s' & H & Hd & _ & _ & _ & Hf & _).
  exists s'. repeat split; assumption.
Defined.

(** The source changes to 7 between the render and the commit, and two
    invalidations fire: each only raises the flag, and the effect replays
    once, with 7. *)
Lemma deferred_replay_witness :
  exists s2,
    effectCallback client (propsArr [1])
      (with_world 7%Z
         (with_refs (set_doDeferredRender (Some true)) pulsedOnce))
    = (Ok tt, s2) /\
    trackerData (refs s2) = VNum 7 /\
    forceUpdates s2 = 1.
Proof.
  destruct (deferred_replay client (propsArr [1]) (propsArr [1]) 0 0
              pulsedOnce 7%Z (VNum 7) 7%Z
              eq_refl eq_refl eq_refl eq_refl eq_refl)
    as (s2 & _ & H & Hd & _ & _ & Hf & _).
  exists s2. repeat split; assumption.
Defined.

(** An abandoned render: after 50 time units computation 0 is stopped. *)
Lemma leak_guard_bound_witness :
  abandoned [Pulse (W := Z) 0; Elapse 20; Unmount; Elapse 30] = true /\
  exists v s',
    exported client propsCounting (initState 0%Z) = (Ok v, s') /\
    isStopped 0
      (run client [Pulse 0; Elapse 20; Unmount; Elapse 30] s') = true.
Proof.
  split; [reflexivity|].
  destruct (leak_guard_bound client propsCounting (initState 0%Z) 0%Z
              (RetCleanup (CleanupFn bump)) 0%Z (Some (VNum 0, 0%Z))
              [Pulse 0; Elapse 20; Unmount; Elapse 30]
              eq_refl eq_refl eq_refl eq_refl eq_refl
              (fun w => ex_intro _ (w + 1)%Z eq_refl)
              eq_refl eq_refl)
    as (v & s' & H & _ & _ & _ & _ & _ & Hst & _).
  exists v, s'. split; [exact H|]. apply Hst. unfold guardDelay. cbn. lia.
Defined.


(** Deps omitted: the second render pass stops computation 0 and creates
    computation 1. *)
Lemma non_array_deps_recreate_witness :
  exists v s',
    exported client propsNoDeps (rendered propsNoDeps) = (Ok v, s') /\
    stopped (engine s') = [0] /\
    computation (refs s') = SlotComp 1.
Proof.
  destruct (non_array_deps_recreate client propsNoDeps 0
              (rendered propsNoDeps) 0%Z eq_refl eq_refl) as [_ H].
  destruct (H eq_refl eq_refl RetNothing 0%Z None eq_refl I)
    as (v & s' & He & Hst & _ & Hsl & _).
  exists v, s'. repeat split; assumption.
Defined.

(** The guard expired before the commit: the effect creates computation 1
    and replays. *)
Lemma mount_recovery_witness :
  exists s',
    effectCallback client (propsArr [1]) (expired (propsArr [1]))
    = (Ok tt, s') /\
    computation (refs s') = SlotComp 1 /\
    forceUpdates s' = forceUpdates (expired (propsArr [1])) + 1.
Proof.
  destruct (mount_recovery client (propsArr [1]) (expired (propsArr [1]))
              RetNothing 0%Z (VNum 0) 0%Z (VNum 0) 0%Z
              eq_refl eq_refl eq_refl eq_refl eq_refl eq_refl)
    as (s' & H & Hsl & _ & _ & Hf & _).
  exists s'. repeat split; assumption.
Defined.


(** The deps change from [1] to [2] before the commit while the source
    reads 7: the pass still returns the 0 cached by the first pass. *)
Lemma precommit_recreation_is_stale_witness :
  exists s',
    exported client (propsArr [2])
      (with_world 7%Z (rendered (propsArr [1]))) = (Ok (VNum 0), s') /\
    trackerData (refs s') = VNum 0.
Proof.
  destruct (precommit_recreation_is_stale client (propsArr [2])
              (with_world 7%Z (rendered (propsArr [1]))) 7%Z RetNothing 7%Z
              eq_refl eq_refl eq_refl eq_refl)
    as (s' & H & Hd & _).
  exists s'. split; assumption.
Defined.

(** After unmount, time passing and a pulse for an unknown handle request
    nothing. *)
Lemma no_update_after_unmount_witness :
  forceUpdates
    (run client [Elapse 100; Pulse 5; Commit]
       (unmount (run client [Render (propsArr [1]); Commit]
                   (initState 0%Z)))) =
  forceUpdates
    (unmount (run client [Render (propsArr [1]); Commit] (initState 0%Z))).
Proof.
  apply (no_update_after_unmount client 0%Z
           [Render (propsArr [1]); Commit] [Elapse 100; Pulse 5; Commit]).
  - constructor; [apply readSource_wellBehaved|].
    constructor; [exact I|constructor].
  - reflexivity.
  - reflexivity.
Defined.

(** C3 as stated fails: a pulse that reaches [tracked] after the unmount
    disposer has run finds [isMounted] still true, recomputes and
    requests a re-render. *)
Lemma update_after_unmount_counterexample :
  phase (host (unmounted (propsArr [1]))) = Gone /\
  isStopped 0 (unmounted (propsArr [1])) = true /\
  forceUpdates (unmounted (propsArr [1])) = 0 /\
  forceUpdates (step client (unmounted (propsArr [1])) (Pulse 0)) = 1 /\
  ~ (forall later,
       forceUpdates (run client later (unmounted (propsArr [1]))) =
       forceUpdates (unmounted (propsArr [1]))).
Proof.
  repeat split; try reflexivity.
  intros H. specialize (H [Pulse 0]). discriminate H.
Qed.

Lemma leak_guard_cancellation_witness :
  timers (clock (exec (effectCallback client propsNoDeps) twiceRendered))
  = [(0, 50)] /\
  disposeId (refs (exec (effectCallback client propsNoDeps) twiceRendered))
  = None.
Proof.
  destruct (leak_guard_cancellation client twiceRendered propsNoDeps eq_refl)
    as (_ & _ & Ht & Hid & _).
  split; [exact Ht|exact Hid].
Defined.

(** C8 as stated fails: two render passes before the commit leave two
    live leak-guard timers; the commit cancels the second only, the
    unmount disposer cancels none, and the first is never cancelled. *)
Lemma leak_guard_timer_counterexample :
  timers (clock (exec dispose (rendered propsNoDeps))) = [(0, 50)] /\
  timers (clock twiceRendered) = [(0, 50); (1, 50)] /\
  ~ (List.length (timers (clock twiceRendered)) <= 1) /\
  timers (clock (run client [Commit; Unmount] twiceRendered)) = [(0, 50)] /\
  countEv isClearTimeout (trace (run client [Commit; Unmount] twiceRendered))
  = 1.
Proof.
  repeat split; try reflexivity. cbn. lia.
Qed.

(** ** Further evaluations *)

(** Committed, the source changes to 7 and computation 0 is invalidated:
    the data is 7 and one re-render is requested. *)
Lemma invalidation_when_mounted_witness :
  exists s',
    tracked client (propsArr [1]) (ArgComp 0 false)
      (with_world 7%Z (committed (propsArr [1]))) = (Ok tt, s') /\
    trackerData (refs s') = VNum 7 /\
    tick (host s') = 1.
Proof.
  destruct (invalidation_when_mounted client (propsArr [1]) 0
              (with_world 7%Z (committed (propsArr [1]))) eq_refl eq_refl)
    as [H _].
  destruct (H (VNum 7) 7%Z eq_refl) as (s' & Ht & Hd & _ & _ & Hk & _).
  exists s'. repeat split; assumption.
Defined.

(** Committed with deps [[1]], rendered again with deps [[2]] and another
    reactiveFn: computation 0 is stopped, computation 1 is held and the
    render returns the new data. *)
Lemma recreation_when_mounted_witness :
  exists s',
    exported client (propsOther [2]) (committed (propsArr [1]))
    = (Ok (VNum 100), s') /\
    computation (refs s') = SlotComp 1 /\
    stopped (engine s') = [0].
Proof.
  destruct (recreation_when_mounted client (propsOther [2])
              (committed (propsArr [1])) 0%Z RetNothing 0%Z (VNum 100) 0%Z
              eq_refl eq_refl eq_refl eq_refl eq_refl eq_refl)
    as (s' & H & _ & _ & Hc & _ & _ & Hs & _).
  exists s'. repeat split; assumption.
Defined.

(** The source changed to 7 without an invalidation: a render with the
    same deps still returns the cached 0. *)
Lemma same_deps_render_is_inert_witness :
  exists s',
    exported client (propsArr [1])
      (with_world 7%Z (committed (propsArr [1]))) = (Ok (VNum 0), s') /\
    creations s' = 1.
Proof.
  destruct (same_deps_render_is_inert client (propsArr [1])
              (with_world 7%Z (committed (propsArr [1]))) [1]
              eq_refl eq_refl)
    as (s' & H & _ & _ & _ & _ & _ & _ & _ & _ & _ & Hc).
  exists s'. split; assumption.
Defined.

(** The handler returns a counting cleanup: it runs at the disposal and
    computation 0 is stopped after it. *)
Lemma handler_cleanup_round_trip_witness :
  exists v s1 s2,
    exported client propsCounting (initState 0%Z) = (Ok v, s1) /\
    dispose (with_world 0%Z s1) = (Ok tt, s2) /\
    world s2 = 1%Z /\
    stopped (engine s2) = [0].
Proof.
  destruct (handler_cleanup_round_trip client propsCounting (initState 0%Z)
              0%Z bump 0%Z (Some (VNum 0, 0%Z)) 0%Z 1%Z
              eq_refl eq_refl eq_refl eq_refl eq_refl eq_refl)
    as (v & s1 & s2 & H & _ & Hd & Hw & _ & Hs & _).
  exists v, s1, s2. repeat split; try assumption.
  rewrite Hs.
  assert (E : snd (exported client propsCounting (initState 0%Z)) = s1)
    by now rewrite H.
  now rewrite <- E.
Defined.

(** The handler returned a truthy value that is no function: the
    disposal throws and changes nothing. *)
Lemma non_function_cleanup_blocks_disposal_witness :
  dispose (rendered propsBadCleanup)
  = (Throw TypeError, rendered propsBadCleanup) /\
  slotTruthy (computation (refs (unmounted propsBadCleanup))) = true.
Proof.
  destruct (non_function_cleanup_blocks_disposal client
              (rendered propsBadCleanup) eq_refl) as [H _].
  split; [exact H|reflexivity].
Defined.

(** No reactiveFn: the first render throws. *)
Lemma non_function_reactiveFn_throws_witness :
  exists s',
    exported client propsBroken (initState 0%Z) = (Throw TypeError, s') /\
    In (EvWarn WarnReactiveFnType) (trace s').
Proof.
  destruct (non_function_reactiveFn_throws client propsBroken
              (initState 0%Z) 0%Z RetNothing 0%Z eq_refl eq_refl)
    as (s' & H & _ & _ & _ & _ & _ & _ & _ & Hw);
    [discriminate|reflexivity|reflexivity|].
  exists s'. split; [exact H|]. now apply Hw.
Defined.


(** After the commit: an invalidation, new deps, the unmount and a late
    timer leave [isMounted] true. *)
Lemma mounted_never_reverts_witness :
  mountedTruthy
    (refs (run client
             [Pulse 0; Render (propsOther [2]); Unmount; Elapse 60]
             (committed (propsArr [1])))) = true.
Proof.
  destruct (mounted_never_reverts client (committed (propsArr [1]))
              eq_refl) as [H _].
  apply H.
Defined.

(** The render before the commit set the only timer. *)
Lemma no_guard_timer_after_mount_witness :
  guardsSet
    (run client [Render (propsOther [2]); Pulse 1; Render propsNoDeps]
       (committed (propsArr [1]))) = 1.
Proof.
  destruct (no_guard_timer_after_mount client (committed (propsArr [1]))
              eq_refl) as [H _].
  apply H.
Defined.

(** A whole life on the server. *)
Lemma server_render_is_inert_witness :
  creations
    (run server [Render (propsArr [1]); Commit; Pulse 0; Elapse 60;
                 Render (propsArr [2]); Unmount] (initState 0%Z)) = 0 /\
  timers
    (clock
       (run server [Render (propsArr [1]); Commit; Pulse 0; Elapse 60;
                    Render (propsArr [2]); Unmount] (initState 0%Z))) = [].
Proof.
  destruct (server_render_is_inert server
              [Render (propsArr [1]); Commit; Pulse 0; Elapse 60;
               Render (propsArr [2]); Unmount] 0%Z eq_refl)
    as (_ & Ht & _ & _ & Hc & _).
  split; assumption.
Defined.

(** After new deps, computation 1 is the one alive and it is the one
    held. *)
Lemma at_most_one_live_computation_witness :
  computation
    (refs (run client
             [Render (propsArr [1]); Commit; Render (propsArr [2]); Pulse 0]
             (initState 0%Z))) = SlotComp 1.
Proof.
  assert (Hw : rendersWell
            [Render (propsArr [1]); Commit; Render (propsArr [2]);
             Pulse (W := Z) 0]).
  { repeat constructor; apply readSource_wellBehaved. }
  destruct (at_most_one_live_computation client
              [Render (propsArr [1]); Commit; Render (propsArr [2]); Pulse 0]
              0%Z Hw) as [H _].
  apply (H 1 (propsArr [2])); [right; left; reflexivity|reflexivity].
Defined.

(** Four invalidations before the commit, one of them of an unknown
    computation: only the flag changes. *)
Lemma deferred_invalidations_coalesce_witness :
  trace (run client [Pulse 0; Pulse 0; Pulse 5; Pulse 0]
           (rendered (propsArr [1])))
  = trace (rendered (propsArr [1])) /\
  doDeferredRender
    (refs (run client [Pulse 0; Pulse 0; Pulse 5; Pulse 0]
             (rendered (propsArr [1])))) = Some true.
Proof.
  assert (Hd : forall k q,
            In (k, q) (comps (engine (rendered (propsArr [1])))) ->
            isArray (deps q) = true).
  { intros k q [H|[]]. injection H as _ <-. reflexivity. }
  destruct (deferred_invalidations_coalesce client [0; 0; 5; 0]
              (rendered (propsArr [1])) eq_refl Hd)
    as (_ & _ & _ & _ & _ & Ht & Hf).
  split; [exact Ht|]. apply Hf. exists 0, (propsArr [1]).
  split; [now left|reflexivity].
Defined.

(** The life that warns twice in development is silent in production. *)
Lemma production_is_silent_witness :
  silent (run production [Render propsCursor; Commit; Pulse 0]
            (initState 0%Z)).
Proof.
  destruct (production_is_silent production
              [Render propsCursor; Commit; Pulse 0] (initState 0%Z)
              eq_refl eq_refl) as [H _].
  exact H.
Defined.

(** A source of numbers: the cached data is [undefined] or a number. *)
Lemma data_comes_from_reactiveFn_witness :
  let s := run client
             [Render (propsArr [1]); Commit; Mutate (fun _ => 7%Z); Pulse 0]
             (initState 0%Z) in
  trackerData (refs s) = VUndefined \/ isNumber (trackerData (refs s)).
Proof.
  assert (Ha : forall keys, answers isNumber (propsArr keys)).
  { intros keys c w v w' H. cbn in H. injection H as <- _. now exists w. }
  assert (Hr : rendersAnswer isNumber
            [Render (propsArr [1]); Commit; Mutate (fun _ => 7%Z);
             Pulse 0]).
  { repeat constructor. apply Ha. }
  destruct (data_comes_from_reactiveFn client isNumber
              [Render (propsArr [1]); Commit; Mutate (fun _ => 7%Z); Pulse 0]
              0%Z Hr) as [H _].
  exact H.
Defined.
